(** * dwb_local_planner: the DWB local planner core, embedded and verified

    Shallow embedding of [dwb_local_planner/src/dwb_local_planner.cpp]:
    the path segmenter of [setPlan], the segment/goal state machine of
    [isGoalReached], the critic chain of [scoreTrajectory], the candidate
    loop of [coreScoringAlgorithm] and the window/prune passes of
    [transformGlobalPlan].

    Numbers.  A C++ [double] is modelled by an exact rational ([Q]):
    rounding, infinities and NaN are outside the model.  Comparisons are
    the boolean tests on [Q], so every definition below evaluates.
    [cos] and [sin] (libm) are parameters of the segmenter.

    Effects.  The planner object is a record that is passed in and
    returned.  Calls on collaborators whose order or absence matters
    (publisher, plugin resets, goal checker) are appended to the field
    [effects].  C++ exceptions, failed assertions and undefined behaviour
    (indexing or erasing past the end of a vector) are constructors of
    [Outcome].  A critic is a function from a trajectory to a score or a
    rejection; the generator offers a finite list of twists.

    Layout.  Messages and collaborators; the planner (module
    [DWBLocalPlanner]); specification-side definitions and concrete
    inputs; then the facts, component by component. *)

From Stdlib Require Import List String ZArith NArith QArith Lia Lqa Bool.
Import ListNotations.
Open Scope Q_scope.

(** ** Numbers *)

Definition double := Q.

(** [a < b], [a > b] and [a == b] on doubles. *)
Definition dlt (a b : double) : bool := negb (Qle_bool b a).
Definition dgt (a b : double) : bool := dlt b a.
Definition deq (a b : double) : bool := Qeq_bool a b.

(** [ros::Time], as a count of nanoseconds; default-constructed it is 0. *)
Definition Time := N.

(** ** Messages *)

Module Header.
Record t := mk { frame_id : string; stamp : Time }.
Definition default : t := mk EmptyString 0%N.
Definition set_stamp (h : t) (s : Time) : t := mk (frame_id h) s.
Definition set_frame_id (h : t) (f : string) : t := mk f (stamp h).
End Header.

Module Pose2D.
Record t := mk { x : double; y : double; theta : double }.
Definition default : t := mk 0 0 0.
End Pose2D.

Module Twist2D.
Record t := mk { x : double; y : double; theta : double }.
Definition default : t := mk 0 0 0.
End Twist2D.

Module Pose2DStamped.
Record t := mk { header : Header.t; pose : Pose2D.t }.
Definition default : t := mk Header.default Pose2D.default.
Definition set_stamp (p : t) (s : Time) : t :=
  mk (Header.set_stamp (header p) s) (pose p).
End Pose2DStamped.

Module Path2D.
Record t := mk { header : Header.t; poses : list Pose2D.t }.
Definition default : t := mk Header.default [].
End Path2D.

Module Trajectory2D.
Record t := mk { velocity : Twist2D.t;
                 time_offsets : list double;
                 poses : list Pose2D.t }.
Definition default : t := mk Twist2D.default [] [].
End Trajectory2D.

Module CriticScore.
Record t := mk { name : string; raw_score : double; scale : double }.
Definition default : t := mk EmptyString 0 0.
End CriticScore.

Module TrajectoryScore.
Record t := mk { traj : Trajectory2D.t;
                 scores : list CriticScore.t;
                 total : double }.
Definition default : t := mk Trajectory2D.default [] 0.
Definition set_total (s : t) (v : double) : t := mk (traj s) (scores s) v.
End TrajectoryScore.

Module LocalPlanEvaluation.
Record t := mk { header : Header.t;
                 twists : list TrajectoryScore.t;
                 best_index : N;
                 worst_index : N }.
Definition default : t := mk Header.default [] 0%N 0%N.
Definition push_back (r : t) (s : TrajectoryScore.t) : t :=
  mk (header r) (twists r ++ [s]) (best_index r) (worst_index r).
(** [twists.size() - 1], stored in a [uint16] field. *)
Definition last_index (r : t) : N :=
  (N.of_nat (List.length (twists r) - 1) mod 65536)%N.
Definition mark_best (r : t) : t :=
  mk (header r) (twists r) (last_index r) (worst_index r).
Definition mark_worst (r : t) : t :=
  mk (header r) (twists r) (best_index r) (last_index r).
End LocalPlanEvaluation.

(** ** Exceptions and outcomes *)

Module IllegalTrajectoryException.
Record t := mk { getCriticName : string; what : string }.
End IllegalTrajectoryException.

(** Modelled from the spec: the class [IllegalTrajectoryTracker] is declared
    in [dwb_local_planner/illegal_trajectory_tracker.h], which is not among
    the sources.  The spec gives it two counters (trajectories seen, illegal
    ones) and a count per (critic name, reason) kept in first-seen order. *)
Module IllegalTrajectoryTracker.
Record t := mk { total_count : nat;
                 illegal_count : nat;
                 counts : list ((string * string) * nat) }.
Definition empty : t := mk 0 0 [].

Definition key_eqb (a b : string * string) : bool :=
  (String.eqb (fst a) (fst b) && String.eqb (snd a) (snd b))%bool.

Fixpoint bump (k : string * string) (l : list ((string * string) * nat))
  : list ((string * string) * nat) :=
  match l with
  | [] => [(k, 1%nat)]
  | (k', n) :: rest =>
      if key_eqb k k' then (k', S n) :: rest else (k', n) :: bump k rest
  end.

Definition addLegalTrajectory (tr : t) : t :=
  mk (S (total_count tr)) (illegal_count tr) (counts tr).

Definition addIllegalTrajectory (tr : t) (e : IllegalTrajectoryException.t) : t :=
  mk (S (total_count tr)) (S (illegal_count tr))
     (bump (IllegalTrajectoryException.getCriticName e,
            IllegalTrajectoryException.what e) (counts tr)).

Definition legal_count (tr : t) : nat := (total_count tr - illegal_count tr)%nat.
End IllegalTrajectoryTracker.

Inductive Exception :=
| PlannerException (msg : string)
| PlannerTFException (msg : string)
| NoLegalTrajectoriesException (tracker : IllegalTrajectoryTracker.t).

(** What a call does: return, throw, stop on a failed [ROS_ASSERT], or run
    into undefined behaviour.  [OutOfFuel] belongs to the model only: a
    [while] loop that is not structurally recursive runs on a step bound,
    and [OutOfFuel] says the bound was too small. *)
Inductive Outcome (A : Type) :=
| Return (a : A)
| Throw (e : Exception)
| AssertionFailed
| Undefined
| OutOfFuel.
Arguments Return {A} a.
Arguments Throw {A} e.
Arguments AssertionFailed {A}.
Arguments Undefined {A}.
Arguments OutOfFuel {A}.

(** ** Geometry *)

(** The squares and the sum are exact here; those of the program are
    rounded, and can underflow or overflow. *)
Definition getSquareDistance (pose_a pose_b : Pose2D.t) : double :=
  let x_diff := Pose2D.x pose_a - Pose2D.x pose_b in
  let y_diff := Pose2D.y pose_a - Pose2D.y pose_b in
  x_diff * x_diff + y_diff * y_diff.

(** ** Collaborators *)

Module TrajectoryCritic.
Record t := mk { getName : string;
                 getScale : double;
                 scoreTrajectory :
                   Trajectory2D.t -> double + IllegalTrajectoryException.t }.
End TrajectoryCritic.

(** [startNewIteration] followed by [hasMoreTwists]/[nextTwist] enumerates a
    finite sequence of twists. *)
Module TrajectoryGenerator.
Record t := mk { twists : Twist2D.t -> list Twist2D.t;
                 generateTrajectory :
                   Pose2D.t -> Twist2D.t -> Twist2D.t -> Trajectory2D.t }.
End TrajectoryGenerator.

Module GoalChecker.
Record t := mk { isGoalReached : Pose2D.t -> Pose2D.t -> Twist2D.t -> bool }.
End GoalChecker.

Module Costmap.
Record t := mk { getFrameId : string;
                 getWidth : N;
                 getHeight : N;
                 getResolution : double }.
End Costmap.

(** The transform provider with the two helpers of [nav_2d_utils] that the
    planner calls on it; [transformPose] fails with [None]. *)
Module TFListener.
Record t := mk { transformPose :
                   string -> Pose2DStamped.t -> option Pose2DStamped.t;
                 transformStampedPose :
                   Pose2DStamped.t -> string -> Pose2D.t }.
End TFListener.

(** Calls on collaborators, in program order. *)
Inductive Effect :=
| GoalChecker_isGoalReached (query goal : Pose2D.t) (velocity : Twist2D.t)
| Publish_GlobalPlan (plan : Path2D.t)
| TrajectoryGenerator_reset
| GoalChecker_reset
| TrajectoryCritic_reset (name : string).

(** ** The planner *)

Module DWBLocalPlanner.

Record t := mk {
  tf_ : TFListener.t;
  costmap_ : Costmap.t;
  prune_plan_ : bool;
  prune_distance_ : double;
  short_circuit_trajectory_evaluation_ : bool;
  debug_trajectory_details_ : bool;
  (** the parameter [split_path] of the node handle, read by [setPlan] *)
  split_path : bool;
  traj_generator_ : TrajectoryGenerator.t;
  goal_checker_ : GoalChecker.t;
  critics_ : list TrajectoryCritic.t;
  global_plan_ : Path2D.t;
  global_plan_segments_ : list Path2D.t;
  goal_pose_ : Pose2DStamped.t;
  intermediate_goal_pose_ : Pose2DStamped.t;
  effects : list Effect
}.

Definition set_global_plan_ (p : t) (v : Path2D.t) : t :=
  mk (tf_ p) (costmap_ p) (prune_plan_ p) (prune_distance_ p)
     (short_circuit_trajectory_evaluation_ p) (debug_trajectory_details_ p)
     (split_path p) (traj_generator_ p) (goal_checker_ p) (critics_ p)
     v (global_plan_segments_ p) (goal_pose_ p) (intermediate_goal_pose_ p)
     (effects p).

Definition set_global_plan_segments_ (p : t) (v : list Path2D.t) : t :=
  mk (tf_ p) (costmap_ p) (prune_plan_ p) (prune_distance_ p)
     (short_circuit_trajectory_evaluation_ p) (debug_trajectory_details_ p)
     (split_path p) (traj_generator_ p) (goal_checker_ p) (critics_ p)
     (global_plan_ p) v (goal_pose_ p) (intermediate_goal_pose_ p)
     (effects p).

Definition set_goal_pose_ (p : t) (v : Pose2DStamped.t) : t :=
  mk (tf_ p) (costmap_ p) (prune_plan_ p) (prune_distance_ p)
     (short_circuit_trajectory_evaluation_ p) (debug_trajectory_details_ p)
     (split_path p) (traj_generator_ p) (goal_checker_ p) (critics_ p)
     (global_plan_ p) (global_plan_segments_ p) v (intermediate_goal_pose_ p)
     (effects p).

Definition set_intermediate_goal_pose_ (p : t) (v : Pose2DStamped.t) : t :=
  mk (tf_ p) (costmap_ p) (prune_plan_ p) (prune_distance_ p)
     (short_circuit_trajectory_evaluation_ p) (debug_trajectory_details_ p)
     (split_path p) (traj_generator_ p) (goal_checker_ p) (critics_ p)
     (global_plan_ p) (global_plan_segments_ p) (goal_pose_ p) v
     (effects p).

Definition set_short_circuit (p : t) (v : bool) : t :=
  mk (tf_ p) (costmap_ p) (prune_plan_ p) (prune_distance_ p)
     v (debug_trajectory_details_ p)
     (split_path p) (traj_generator_ p) (goal_checker_ p) (critics_ p)
     (global_plan_ p) (global_plan_segments_ p) (goal_pose_ p)
     (intermediate_goal_pose_ p) (effects p).

(** Append calls on collaborators to the log. *)
Definition emit (p : t) (es : list Effect) : t :=
  mk (tf_ p) (costmap_ p) (prune_plan_ p) (prune_distance_ p)
     (short_circuit_trajectory_evaluation_ p) (debug_trajectory_details_ p)
     (split_path p) (traj_generator_ p) (goal_checker_ p) (critics_ p)
     (global_plan_ p) (global_plan_segments_ p) (goal_pose_ p)
     (intermediate_goal_pose_ p) (effects p ++ es).

(** [v.back()] of a vector; it is only defined on a non-empty one. *)
Definition back (v : list Pose2D.t) : option Pose2D.t :=
  match v with
  | [] => None
  | p :: rest => Some (last rest p)
  end.

Definition transformPoseToLocal (this : t) (pose : Pose2DStamped.t) : Pose2D.t :=
  TFListener.transformStampedPose (tf_ this) pose
                                  (Costmap.getFrameId (costmap_ this)).

Definition resetPlugins (this : t) : t :=
  emit this (TrajectoryGenerator_reset :: GoalChecker_reset ::
             map (fun critic => TrajectoryCritic_reset (TrajectoryCritic.getName critic))
                 (critics_ this)).

Definition isGoalReached (this : t) (pose : Pose2DStamped.t) (velocity : Twist2D.t)
  : t * Outcome bool :=
  if String.eqb (Header.frame_id (Pose2DStamped.header (goal_pose_ this))) EmptyString
  then (this, Return false)
  else
    (* Update time stamp of goal pose *)
    let stamp := Header.stamp (Pose2DStamped.header pose) in
    let this := set_goal_pose_ this
                  (Pose2DStamped.set_stamp (goal_pose_ this) stamp) in
    let this := set_intermediate_goal_pose_ this
                  (Pose2DStamped.set_stamp (intermediate_goal_pose_ this) stamp) in
    (* use the goal_checker_ to check if the intermediate goal was reached *)
    let local_pose := transformPoseToLocal this pose in
    let local_goal := transformPoseToLocal this (intermediate_goal_pose_ this) in
    let ret := GoalChecker.isGoalReached (goal_checker_ this)
                                         local_pose local_goal velocity in
    let this := emit this [GoalChecker_isGoalReached local_pose local_goal velocity] in
    if ret then
      match global_plan_segments_ this with
      | [] => (this, Return ret)
      | segment :: rest =>
          (* activate next path segment *)
          let this := set_global_plan_ this segment in
          let this := set_global_plan_segments_ this rest in
          (* set the next goal pose *)
          match back (Path2D.poses (global_plan_ this)) with
          | None => (this, Undefined)
          | Some last_pose =>
              let this := set_intermediate_goal_pose_ this
                            (Pose2DStamped.mk (Path2D.header (global_plan_ this))
                                              last_pose) in
              (* publish the next path segment *)
              let this := emit this [Publish_GlobalPlan (global_plan_ this)] in
              (* reset critics etc, as we changed the global_plan_ *)
              (resetPlugins this, Return false)
          end
      end
    else (this, Return ret).

Definition setGoalPose (this : t) (goal_pose : Pose2DStamped.t) : t :=
  set_intermediate_goal_pose_ (set_goal_pose_ this goal_pose) goal_pose.


(** *** Path segmenter ([setPlan]) *)

Section Segmenter.
Variables cos sin : double -> double.

(** The dot product [d] of the step from [from] to [to] with the
    heading at [from]. *)
Definition headingDot (from to : Pose2D.t) : double :=
  let v1_0 := Pose2D.x to - Pose2D.x from in
  let v1_1 := Pose2D.y to - Pose2D.y from in
  let v2_0 := cos (Pose2D.theta from) in
  let v2_1 := sin (Pose2D.theta from) in
  v1_0 * v2_0 + v1_1 * v2_1.

(** The inner [while]: add poses to [segment] while they lead into the
    same direction; at a change of direction the last pose of the
    segment goes back to the front of [copy].  [segment] holds at least
    its first two poses, so [last] never falls back on its default. *)
Fixpoint extendSegment (backwards onlyRotation : bool)
         (segment copy : list Pose2D.t) : list Pose2D.t * list Pose2D.t :=
  match copy with
  | [] => (segment, copy)
  | next :: copy' =>
      let segment_back := last segment Pose2D.default in
      let d := headingDot segment_back next in
      let b := dlt d 0 in
      let rot := dlt (d * d) 1e-10 in
      if (Bool.eqb b backwards && Bool.eqb rot onlyRotation)%bool
      then extendSegment backwards onlyRotation (segment ++ [next]) copy'
      else (segment, segment_back :: copy)
  end.

(** The outer [while (copy.poses.size() > 1)]. *)
Fixpoint splitLoop (fuel : nat) (header : Header.t) (copy : list Pose2D.t)
         (segments : list Path2D.t) : option (list Path2D.t) :=
  match copy with
  | first :: second :: copy' =>
      match fuel with
      | O => None
      | S fuel' =>
          let d := headingDot first second in
          let backwards := dlt d 0 in
          let onlyRotation := dlt (d * d) 1e-10 in
          let '(segment, copy'') :=
            extendSegment backwards onlyRotation [first; second] copy' in
          splitLoop fuel' header copy'' (segments ++ [Path2D.mk header segment])
      end
  | _ => Some segments
  end.

Definition setPlan (this : t) (path : Path2D.t) : t * Outcome unit :=
  let this := set_global_plan_segments_ this [] in
  let split :=
    if split_path this
    then splitLoop (List.length (Path2D.poses path)) (Path2D.header path)
                   (Path2D.poses path) (global_plan_segments_ this)
    else Some (global_plan_segments_ this ++ [path]) in
  match split with
  | None => (this, OutOfFuel)
  | Some segments =>
      let this := set_global_plan_segments_ this segments in
      (* set the global_plan_ to be the first segment *)
      match global_plan_segments_ this with
      | [] => (this, Undefined)
      | segment :: rest =>
          let this := set_global_plan_ this segment in
          let this := set_global_plan_segments_ this rest in
          (* publish not the complete path, but only the first segment *)
          let this := emit this [Publish_GlobalPlan (global_plan_ this)] in
          (* set the intermediate goal *)
          match back (Path2D.poses (global_plan_ this)) with
          | None => (this, Undefined)
          | Some last_pose =>
              let this := set_intermediate_goal_pose_ this
                            (Pose2DStamped.mk (Path2D.header (global_plan_ this))
                                              last_pose) in
              (resetPlugins this, Return tt)
          end
      end
  end.
End Segmenter.

(** *** Critic chain ([scoreTrajectory]) *)

Definition push_score (score : TrajectoryScore.t) (cs : CriticScore.t)
  : TrajectoryScore.t :=
  TrajectoryScore.mk (TrajectoryScore.traj score)
                     (TrajectoryScore.scores score ++ [cs])
                     (TrajectoryScore.total score).

(** The [for] over [critics_], from the critic at the head of [critics]. *)
Fixpoint scoreCritics (short_circuit : bool) (best_score : double)
         (critics : list TrajectoryCritic.t) (score : TrajectoryScore.t)
  : TrajectoryScore.t + IllegalTrajectoryException.t :=
  match critics with
  | [] => inl score
  | critic :: critics' =>
      let name := TrajectoryCritic.getName critic in
      let scale := TrajectoryCritic.getScale critic in
      if deq scale 0
      then scoreCritics short_circuit best_score critics'
             (push_score score
                (CriticScore.mk name (CriticScore.raw_score CriticScore.default) scale))
      else
        match TrajectoryCritic.scoreTrajectory critic (TrajectoryScore.traj score) with
        | inr e => inr e
        | inl critic_score =>
            let score := push_score score (CriticScore.mk name critic_score scale) in
            let score := TrajectoryScore.set_total score
                           (TrajectoryScore.total score + critic_score * scale) in
            if (short_circuit && dgt best_score 0
                && dgt (TrajectoryScore.total score) best_score)%bool
            then inl score
            else scoreCritics short_circuit best_score critics' score
        end
  end.

Definition scoreTrajectory (this : t) (traj : Trajectory2D.t) (best_score : double)
  : TrajectoryScore.t + IllegalTrajectoryException.t :=
  scoreCritics (short_circuit_trajectory_evaluation_ this) best_score (critics_ this)
               (TrajectoryScore.mk traj [] 0).

(** *** Candidate loop ([coreScoringAlgorithm]) *)

Record Evaluation := mkEvaluation {
  best : TrajectoryScore.t;
  worst : TrajectoryScore.t;
  tracker : IllegalTrajectoryTracker.t;
  results : option LocalPlanEvaluation.t
}.

(** [best.total = -1], the rest default-constructed. *)
Definition unset : TrajectoryScore.t :=
  TrajectoryScore.set_total TrajectoryScore.default (-1).

Definition startEvaluation (results : option LocalPlanEvaluation.t) : Evaluation :=
  mkEvaluation unset unset IllegalTrajectoryTracker.empty results.

(** One turn of the [while (hasMoreTwists())] loop, on the trajectory
    generated for the next twist. *)
Definition evaluateCandidate (this : t) (ev : Evaluation) (traj : Trajectory2D.t)
  : Evaluation :=
  match scoreTrajectory this traj (TrajectoryScore.total (best ev)) with
  | inl score =>
      let tracker := IllegalTrajectoryTracker.addLegalTrajectory (tracker ev) in
      let results := option_map (fun r => LocalPlanEvaluation.push_back r score)
                                (results ev) in
      let '(best, results) :=
        if (dlt (TrajectoryScore.total (best ev)) 0
            || dlt (TrajectoryScore.total score) (TrajectoryScore.total (best ev)))%bool
        then (score, option_map LocalPlanEvaluation.mark_best results)
        else (best ev, results) in
      let '(worst, results) :=
        if (dlt (TrajectoryScore.total (worst ev)) 0
            || dgt (TrajectoryScore.total score) (TrajectoryScore.total (worst ev)))%bool
        then (score, option_map LocalPlanEvaluation.mark_worst results)
        else (worst ev, results) in
      mkEvaluation best worst tracker results
  | inr e =>
      let failed_score :=
        TrajectoryScore.mk traj
          [CriticScore.mk (IllegalTrajectoryException.getCriticName e) (-1)
                          (CriticScore.scale CriticScore.default)]
          (-1) in
      let results := option_map (fun r => LocalPlanEvaluation.push_back r failed_score)
                                (results ev) in
      mkEvaluation (best ev) (worst ev)
                   (IllegalTrajectoryTracker.addIllegalTrajectory (tracker ev) e)
                   results
  end.

(** The trajectories of one cycle, one per twist of the generator. *)
Definition candidates (this : t) (pose : Pose2D.t) (velocity : Twist2D.t)
  : list Trajectory2D.t :=
  map (TrajectoryGenerator.generateTrajectory (traj_generator_ this) pose velocity)
      (TrajectoryGenerator.twists (traj_generator_ this) velocity).

Definition evaluateAll (this : t) (trajs : list Trajectory2D.t)
           (results : option LocalPlanEvaluation.t) : Evaluation :=
  fold_left (evaluateCandidate this) trajs (startEvaluation results).

Definition coreScoringAlgorithm (this : t) (pose : Pose2D.t) (velocity : Twist2D.t)
           (results : option LocalPlanEvaluation.t)
  : option LocalPlanEvaluation.t * Outcome TrajectoryScore.t :=
  let ev := evaluateAll this (candidates this pose velocity) results in
  if dlt (TrajectoryScore.total (best ev)) 0
  then (DWBLocalPlanner.results ev, Throw (NoLegalTrajectoriesException (tracker ev)))
  else (DWBLocalPlanner.results ev, Return (best ev)).

(** *** Plan transformer ([transformGlobalPlan]) *)

(** [max(getWidth(), getHeight()) * getResolution() / 2.0]; the maximum
    is taken on the unsigned cell counts. *)
Definition dist_threshold (costmap : Costmap.t) : double :=
  inject_Z (Z.of_N (N.max (Costmap.getWidth costmap) (Costmap.getHeight costmap)))
  * Costmap.getResolution costmap / 2.

(** The windowing [for] over [global_plan_.poses], from the pose at the
    head of [plan]; [transformed] is [transformed_plan.poses] so far. *)
Fixpoint windowLoop (this : t) (robot_pose : Pose2D.t) (sq_dist_threshold : double)
         (plan transformed : list Pose2D.t) : list Pose2D.t :=
  match plan with
  | [] => transformed
  | pose_i :: plan' =>
      let stamped_pose :=
        Pose2DStamped.mk
          (Header.set_frame_id Header.default
             (Header.frame_id (Path2D.header (global_plan_ this))))
          pose_i in
      if dgt (getSquareDistance robot_pose pose_i) sq_dist_threshold
      then
        if (List.length transformed =? 0)%nat
        then (* skip to a point that is within the distance of the robot *)
          windowLoop this robot_pose sq_dist_threshold plan' transformed
        else (* should_break: this pose is still pushed *)
          transformed ++ [transformPoseToLocal this stamped_pose]
      else
        windowLoop this robot_pose sq_dist_threshold plan'
                   (transformed ++ [transformPoseToLocal this stamped_pose])
  end.

(** The lockstep prune [while]: [it] walks [transformed], [global_it]
    walks [global]; both are at the front of what is left.  Erasing at
    [global_plan_.poses.end()] is undefined ([None]). *)
Fixpoint pruneLoop (costmap_pose : Pose2D.t) (sq_prune_dist : double)
         (transformed global : list Pose2D.t)
  : option (list Pose2D.t * list Pose2D.t) :=
  match transformed with
  | [] => Some (transformed, global)
  | w :: transformed' =>
      if dlt (getSquareDistance costmap_pose w) sq_prune_dist
      then Some (transformed, global)
      else
        match global with
        | [] => None
        | _ :: global' => pruneLoop costmap_pose sq_prune_dist transformed' global'
        end
  end.

(** The check after the two passes. *)
Definition finishTransform (this : t) (transformed_plan : Path2D.t)
  : t * Outcome Path2D.t :=
  if (List.length (Path2D.poses transformed_plan) =? 0)%nat
  then (this, Throw (PlannerException "Resulting plan has 0 poses in it."))
  else (this, Return transformed_plan).

Definition transformGlobalPlan (this : t) (pose : Pose2DStamped.t)
  : t * Outcome Path2D.t :=
  if (List.length (Path2D.poses (global_plan_ this)) =? 0)%nat
  then (this, Throw (PlannerException "Received plan with zero length"))
  else
    (* let's get the pose of the robot in the frame of the plan *)
    match TFListener.transformPose (tf_ this)
            (Header.frame_id (Path2D.header (global_plan_ this))) pose with
    | None =>
        (this, Throw (PlannerTFException
                        "Unable to transform robot pose into global plan's frame"))
    | Some robot_pose =>
        let header := Header.mk (Costmap.getFrameId (costmap_ this))
                                (Header.stamp (Pose2DStamped.header pose)) in
        (* we'll discard points on the plan that are outside the local costmap *)
        let dist_threshold := dist_threshold (costmap_ this) in
        let sq_dist_threshold := dist_threshold * dist_threshold in
        let transformed :=
          windowLoop this (Pose2DStamped.pose robot_pose) sq_dist_threshold
                     (Path2D.poses (global_plan_ this)) [] in
        (* Prune both plans based on robot position *)
        if prune_plan_ this
        then
          match TFListener.transformPose (tf_ this) (Header.frame_id header) pose with
          | None =>
              (this, Throw (PlannerTFException
                              "Unable to transform robot pose into costmap's frame"))
          | Some costmap_pose =>
              if (List.length (Path2D.poses (global_plan_ this))
                  <? List.length transformed)%nat
              then (this, AssertionFailed)
              else
                let sq_prune_dist := prune_distance_ this * prune_distance_ this in
                match pruneLoop (Pose2DStamped.pose costmap_pose) sq_prune_dist
                                transformed (Path2D.poses (global_plan_ this)) with
                | None => (this, Undefined)
                | Some (transformed, global) =>
                    let this := set_global_plan_ this
                                  (Path2D.mk (Path2D.header (global_plan_ this)) global) in
                    let this := emit this [Publish_GlobalPlan (global_plan_ this)] in
                    finishTransform this (Path2D.mk header transformed)
                end
          end
        else finishTransform this (Path2D.mk header transformed)
    end.

End DWBLocalPlanner.

Import DWBLocalPlanner.

(** ** Specification-side definitions *)

(** Concatenate segments, dropping the first pose of every segment after
    the first. *)
Definition rejoin (segments : list (list Pose2D.t)) : list Pose2D.t :=
  match segments with
  | [] => []
  | s :: rest => s ++ List.concat (map (@tl Pose2D.t) rest)
  end.

(** The last pose of each segment is the first pose of the next one. *)
Fixpoint overlapping (segments : list (list Pose2D.t)) : Prop :=
  match segments with
  | s :: ((s' :: _) as rest) =>
      (exists cut, back s = Some cut /\ hd_error s' = Some cut) /\ overlapping rest
  | _ => True
  end.

(** The segments [setPlan] leaves behind: the active one, then the queue. *)
Definition segmentsOf (this : DWBLocalPlanner.t) : list Path2D.t :=
  global_plan_ this :: global_plan_segments_ this.

(** ** Concrete collaborators and inputs *)

(** Taylor polynomials around 0, exact at 0. *)
Definition cos_taylor (t : double) : double := 1 - t * t / 2 + t * t * t * t / 24.
Definition sin_taylor (t : double) : double := t - t * t * t / 6.

(** A transform provider in which all frames coincide. *)
Definition identity_tf : TFListener.t :=
  TFListener.mk (fun _ pose => Some pose) (fun pose _ => Pose2DStamped.pose pose).

(** A 10 x 10 costmap of 1 m cells: the window threshold is 5 m. *)
Definition costmap10 : Costmap.t := Costmap.mk "odom" 10 10 1.

(** A critic that gives every trajectory the forward velocity as score. *)
Definition velocity_critic (name : string) (scale : double) : TrajectoryCritic.t :=
  TrajectoryCritic.mk name scale
    (fun traj => inl (Twist2D.x (Trajectory2D.velocity traj))).

(** A critic that rejects every trajectory. *)
Definition rejecting_critic (name : string) (scale : double) : TrajectoryCritic.t :=
  TrajectoryCritic.mk name scale
    (fun _ => inr (IllegalTrajectoryException.mk name "rejected")).

(** A generator that offers the given twists and holds each one still. *)
Definition list_generator (twists : list Twist2D.t) : TrajectoryGenerator.t :=
  TrajectoryGenerator.mk (fun _ => twists)
    (fun _ _ twist => Trajectory2D.mk twist [] []).

Definition always_reached : GoalChecker.t := GoalChecker.mk (fun _ _ _ => true).

Definition examplePlanner (prune split short_circuit : bool)
           (critics : list TrajectoryCritic.t) (twists : list Twist2D.t)
  : DWBLocalPlanner.t :=
  DWBLocalPlanner.mk identity_tf costmap10 prune 1 short_circuit false split
                     (list_generator twists) always_reached critics
                     Path2D.default [] Pose2DStamped.default Pose2DStamped.default [].

Definition map_header : Header.t := Header.mk "map" 0%N.

(** The path of the segmentation scenario. *)
Definition scenario_path : Path2D.t :=
  Path2D.mk map_header
            [Pose2D.mk 0 0 0; Pose2D.mk 1 0 0; Pose2D.mk 2 0 0; Pose2D.mk 2 1 1.57].

(** What the outer loop produces from [copy], given enough turns. *)
Definition splits (h : Header.t) (copy : list Pose2D.t) (new : list Path2D.t) : Prop :=
  ((2 <= List.length copy)%nat -> rejoin (map Path2D.poses new) = copy)
  /\ ((List.length copy < 2)%nat -> new = [])
  /\ overlapping (map Path2D.poses new)
  /\ (forall s rest, new = s :: rest -> hd_error (Path2D.poses s) = hd_error copy)
  /\ Forall (fun s => Path2D.header s = h /\ (2 <= List.length (Path2D.poses s))%nat) new.

(** Every queued segment has a last pose.  [setPlan] establishes this and
    [isGoalReached] keeps it. *)
Definition queue_ok (this : DWBLocalPlanner.t) : Prop :=
  Forall (fun s => Path2D.poses s <> []) (global_plan_segments_ this).

(** A goal has been set. *)
Definition goal_set (this : DWBLocalPlanner.t) : Prop :=
  Header.frame_id (Pose2DStamped.header (goal_pose_ this)) <> EmptyString.

(** The planner states that calls of the interface lead to, from a
    planner with an empty queue. *)
Inductive reachable (cos sin : double -> double) : DWBLocalPlanner.t -> Prop :=
| reach_start this :
    global_plan_segments_ this = [] -> reachable cos sin this
| reach_setGoalPose this goal_pose :
    reachable cos sin this -> reachable cos sin (setGoalPose this goal_pose)
| reach_setPlan this path this' :
    reachable cos sin this ->
    setPlan cos sin this path = (this', Return tt) ->
    reachable cos sin this'
| reach_isGoalReached this pose velocity this' reached :
    reachable cos sin this ->
    isGoalReached this pose velocity = (this', reached) ->
    reachable cos sin this'
| reach_transformGlobalPlan this pose this' result :
    reachable cos sin this ->
    transformGlobalPlan this pose = (this', result) ->
    reachable cos sin this'.

(** The goal poses after the stamps of [pose] were copied into them. *)
Definition stamped_goal (this : DWBLocalPlanner.t) (pose : Pose2DStamped.t)
  : Pose2DStamped.t :=
  Pose2DStamped.set_stamp (goal_pose_ this) (Header.stamp (Pose2DStamped.header pose)).

Definition stamped_intermediate (this : DWBLocalPlanner.t) (pose : Pose2DStamped.t)
  : Pose2DStamped.t :=
  Pose2DStamped.set_stamp (intermediate_goal_pose_ this)
                          (Header.stamp (Pose2DStamped.header pose)).

(** The question put to the goal checker. *)
Definition goal_query (this : DWBLocalPlanner.t) (pose : Pose2DStamped.t)
           (velocity : Twist2D.t) : Effect :=
  GoalChecker_isGoalReached
    (transformPoseToLocal this pose)
    (transformPoseToLocal this (stamped_intermediate this pose))
    velocity.

Definition goal_checker_says (this : DWBLocalPlanner.t) (pose : Pose2DStamped.t)
           (velocity : Twist2D.t) : bool :=
  GoalChecker.isGoalReached (goal_checker_ this)
    (transformPoseToLocal this pose)
    (transformPoseToLocal this (stamped_intermediate this pose))
    velocity.

(** A planner that follows the first segment of the scenario path, with the
    second one queued. *)
Definition trackingPlanner : DWBLocalPlanner.t :=
  DWBLocalPlanner.mk identity_tf costmap10 true 1 true false true
    (list_generator []) always_reached [velocity_critic "PathDist" 1]
    (Path2D.mk map_header [Pose2D.mk 0 0 0; Pose2D.mk 1 0 0; Pose2D.mk 2 0 0])
    [Path2D.mk map_header [Pose2D.mk 2 0 0; Pose2D.mk 2 1 1.57]]
    (Pose2DStamped.mk map_header (Pose2D.mk 2 1 1.57))
    (Pose2DStamped.mk map_header (Pose2D.mk 2 0 0))
    [].

(** Every critic has a non-negative scale and gives non-negative scores. *)
Definition nonneg_critics (this : DWBLocalPlanner.t) : Prop :=
  Forall (fun critic =>
            0 <= TrajectoryCritic.getScale critic
            /\ forall traj raw_score,
                TrajectoryCritic.scoreTrajectory critic traj = inl raw_score ->
                0 <= raw_score)
         (critics_ this).

(** The sum of [raw_score * scale] over the critics with a non-zero scale,
    in the order of the critic list. *)
Definition spec_weighted_sum (critics : list TrajectoryCritic.t) (traj : Trajectory2D.t)
  : double :=
  fold_left
    (fun acc critic =>
       match TrajectoryCritic.scoreTrajectory critic traj with
       | inl raw_score => acc + raw_score * TrajectoryCritic.getScale critic
       | inr _ => acc
       end)
    (filter (fun critic => negb (deq (TrajectoryCritic.getScale critic) 0)) critics)
    0.

(** The candidate an outcome selects, if any. *)
Definition selected (o : Outcome TrajectoryScore.t) : option TrajectoryScore.t :=
  match o with
  | Return s => Some s
  | _ => None
  end.

(** How a short-circuited run of the chain relates to the full run: the
    two agree, or the short run stopped at a total above a set
    [best_score], and the full run was rejected or ended no lower. *)
Definition short_circuit_sound (best_score : double)
           (short full : TrajectoryScore.t + IllegalTrajectoryException.t) : Prop :=
  short = full
  \/ exists s,
      short = inl s
      /\ 0 < best_score
      /\ best_score < TrajectoryScore.total s
      /\ match full with
         | inl s' => TrajectoryScore.total s <= TrajectoryScore.total s'
         | inr _ => True
         end.

(** A critic with scores 1 (forward speed at most 1) and 4 (above). *)
Definition speed_limit_critic (name : string) (scale : double) : TrajectoryCritic.t :=
  TrajectoryCritic.mk name scale
    (fun traj => if dgt (Twist2D.x (Trajectory2D.velocity traj)) 1 then inl 4 else inl 1).

(** Three twists under two critics with non-negative scores. *)
Definition cautiousPlanner : DWBLocalPlanner.t :=
  examplePlanner false false true
    [speed_limit_critic "SpeedLimit" 2; speed_limit_critic "Twirling" 0.5;
     speed_limit_critic "Disabled" 0]
    [Twist2D.mk 0.5 0 0; Twist2D.mk 2 0 0; Twist2D.mk 1 0 0.3].

(** One candidate that drives backwards under a critic that scores the
    forward velocity: its total is -2. *)
Definition reversingPlanner : DWBLocalPlanner.t :=
  examplePlanner false false true [velocity_critic "Speed" 1] [Twist2D.mk (-2) 0 0].

(** After every prefix of the candidates, [best] and [worst] are the unset
    sentinel or have a non-negative total. *)
Definition never_negative_installed (this : DWBLocalPlanner.t)
           (trajs : list Trajectory2D.t) (results : option LocalPlanEvaluation.t) : Prop :=
  forall pre post,
    trajs = pre ++ post ->
    let ev := evaluateAll this pre results in
    (best ev = unset \/ 0 <= TrajectoryScore.total (best ev))
    /\ (worst ev = unset \/ 0 <= TrajectoryScore.total (worst ev)).

(** [score] is the unset sentinel or what [scoreTrajectory] returned for
    one of the candidates [seen]. *)
Definition unset_or_legal (this : DWBLocalPlanner.t) (seen : list Trajectory2D.t)
           (score : TrajectoryScore.t) : Prop :=
  score = unset
  \/ exists traj best_score,
      In traj seen /\ scoreTrajectory this traj best_score = inl score.

(** After every prefix of the candidates, [best] and [worst] are the unset
    sentinel or the score of a legally scored candidate of that prefix. *)
Definition only_legal_installed (this : DWBLocalPlanner.t)
           (trajs : list Trajectory2D.t) (results : option LocalPlanEvaluation.t) : Prop :=
  forall pre post,
    trajs = pre ++ post ->
    let ev := evaluateAll this pre results in
    unset_or_legal this pre (best ev) /\ unset_or_legal this pre (worst ev).

(** The overwrite rule of the loop, at every turn: [score] is what the
    chain gives the next candidate.  [best] becomes [score] when it was
    the unset sentinel or [score] is strictly lower, and else stays as it
    is, which was a set score not above [score]; [worst] likewise with
    strictly higher; a rejected candidate changes neither. *)
Definition overwritten_only_by_better (this : DWBLocalPlanner.t)
           (trajs : list Trajectory2D.t) (results : option LocalPlanEvaluation.t) : Prop :=
  forall pre traj post,
    trajs = pre ++ traj :: post ->
    let ev := evaluateAll this pre results in
    let ev' := evaluateAll this (pre ++ [traj]) results in
    match scoreTrajectory this traj (TrajectoryScore.total (best ev)) with
    | inl score =>
        ((best ev' = score
          /\ (best ev = unset
              \/ TrajectoryScore.total score < TrajectoryScore.total (best ev)))
         \/ (best ev' = best ev
             /\ best ev <> unset
             /\ TrajectoryScore.total (best ev) <= TrajectoryScore.total score))
        /\ ((worst ev' = score
             /\ (worst ev = unset
                 \/ TrajectoryScore.total (worst ev) < TrajectoryScore.total score))
            \/ (worst ev' = worst ev
                /\ worst ev <> unset
                /\ TrajectoryScore.total score <= TrajectoryScore.total (worst ev)))
    | inr _ => best ev' = best ev /\ worst ev' = worst ev
    end.

(** The critic chain rejects [traj] when no best score is set yet. *)
Definition rejected_without_best (this : DWBLocalPlanner.t) (traj : Trajectory2D.t)
  : Prop :=
  exists e, scoreTrajectory this traj (TrajectoryScore.total unset) = inr e.

(** The cycle throws the no-legal-trajectories exception (which carries
    the tracker) exactly when no candidate was scored legally, and returns
    [best] when one was.  No candidate was scored legally: the tracker
    counted none, which is to say that the chain rejects every candidate
    while no best score is set. *)
Definition fails_iff_no_legal (this : DWBLocalPlanner.t) (pose : Pose2D.t)
           (velocity : Twist2D.t) (results : option LocalPlanEvaluation.t) : Prop :=
  let trajs := candidates this pose velocity in
  let ev := evaluateAll this trajs results in
  let outcome := snd (coreScoringAlgorithm this pose velocity results) in
  (IllegalTrajectoryTracker.legal_count (tracker ev) = 0%nat
   <-> Forall (rejected_without_best this) trajs)
  /\ (outcome = Throw (NoLegalTrajectoriesException (tracker ev))
      <-> IllegalTrajectoryTracker.legal_count (tracker ev) = 0%nat)
  /\ ((0 < IllegalTrajectoryTracker.legal_count (tracker ev))%nat ->
      outcome = Return (best ev)).

Fixpoint takeWhile {A : Type} (f : A -> bool) (l : list A) : list A :=
  match l with
  | [] => []
  | a :: l' => if f a then a :: takeWhile f l' else []
  end.

Fixpoint dropWhile {A : Type} (f : A -> bool) (l : list A) : list A :=
  match l with
  | [] => []
  | a :: l' => if f a then dropWhile f l' else l
  end.

(** The window in the words of the specification: skip the leading poses
    that are beyond the threshold, take the poses within it, and add the
    first pose beyond it that follows them. *)
Definition spec_window (beyond : Pose2D.t -> bool) (plan : list Pose2D.t) : list Pose2D.t :=
  let reached := dropWhile beyond plan in
  takeWhile (fun p => negb (beyond p)) reached
  ++ firstn 1 (dropWhile (fun p => negb (beyond p)) reached).

(** A pose of the stored plan, as the window pass puts it into the frame of
    the costmap. *)
Definition toLocal (this : DWBLocalPlanner.t) (p : Pose2D.t) : Pose2D.t :=
  transformPoseToLocal this
    (Pose2DStamped.mk
       (Header.set_frame_id Header.default
          (Header.frame_id (Path2D.header (global_plan_ this))))
       p).

(** [pose] is beyond the threshold of the costmap, seen from [robot]. *)
Definition beyond_threshold (costmap : Costmap.t) (robot : Pose2D.t) (pose : Pose2D.t)
  : bool :=
  let threshold :=
    inject_Z (Z.of_N (N.max (Costmap.getWidth costmap) (Costmap.getHeight costmap)))
    * Costmap.getResolution costmap / 2 in
  dgt (getSquareDistance robot pose) (threshold * threshold).

Definition zero_poses_error : Exception :=
  PlannerException "Resulting plan has 0 poses in it.".

(** The header of the transformed plan. *)
Definition local_header (this : DWBLocalPlanner.t) (pose : Pose2DStamped.t) : Header.t :=
  Header.mk (Costmap.getFrameId (costmap_ this))
            (Header.stamp (Pose2DStamped.header pose)).

(** A planner whose stored plan starts 10 m away from the origin, comes
    within the 5 m window, leaves it and comes back; pruning is off. *)
Definition windowPlanner : DWBLocalPlanner.t :=
  DWBLocalPlanner.mk identity_tf costmap10 false 1 true false false
    (list_generator []) always_reached []
    (Path2D.mk map_header
               [Pose2D.mk 10 0 0; Pose2D.mk 3 0 0; Pose2D.mk 4 0 0;
                Pose2D.mk 7 0 0; Pose2D.mk 2 0 0])
    [] Pose2DStamped.default Pose2DStamped.default [].

(** The robot at the origin. *)
Definition origin_pose : Pose2DStamped.t :=
  Pose2DStamped.mk (Header.mk "map" 9%N) (Pose2D.mk 0 0 0).

(** A planner with pruning on (prune distance 1 m) whose stored plan starts
    10 m away from the origin and then comes to 3 m. *)
Definition farStartPlanner : DWBLocalPlanner.t :=
  DWBLocalPlanner.mk identity_tf costmap10 true 1 true false false
    (list_generator []) always_reached []
    (Path2D.mk map_header [Pose2D.mk 10 0 0; Pose2D.mk 3 0 0])
    [] Pose2DStamped.default Pose2DStamped.default [].

(** Read literally: with pruning on, both robot poses resolved and every
    windowed pose at least the prune distance away, the call throws the
    empty-result error and the stored plan has lost the windowed poses: it
    is the skipped leading poses followed by the poses after the window. *)
Definition windowed_poses_erased (this : DWBLocalPlanner.t) (pose : Pose2DStamped.t)
  : Prop :=
  forall robot_pose costmap_pose,
    prune_plan_ this = true ->
    Path2D.poses (global_plan_ this) <> [] ->
    TFListener.transformPose (tf_ this)
      (Header.frame_id (Path2D.header (global_plan_ this))) pose = Some robot_pose ->
    TFListener.transformPose (tf_ this) (Costmap.getFrameId (costmap_ this)) pose
    = Some costmap_pose ->
    let beyond := beyond_threshold (costmap_ this) (Pose2DStamped.pose robot_pose) in
    let plan := Path2D.poses (global_plan_ this) in
    let leading := takeWhile beyond plan in
    let windowed := spec_window beyond plan in
    let trailing := skipn (List.length leading + List.length windowed) plan in
    Forall (fun w => dlt (getSquareDistance (Pose2DStamped.pose costmap_pose) w)
                         (prune_distance_ this * prune_distance_ this) = false)
           (map (toLocal this) windowed) ->
    exists this',
      transformGlobalPlan this pose = (this', Throw zero_poses_error)
      /\ Path2D.poses (global_plan_ this') = leading ++ trailing.

(** ** Comparisons *)

Lemma dlt_true (a b : double) : dlt a b = true <-> a < b.
Proof.
  unfold dlt. rewrite negb_true_iff. split; intro H.
  - apply Qnot_le_lt. intro Hle. apply Qle_bool_iff in Hle. congruence.
  - destruct (Qle_bool b a) eqn:E; [|reflexivity].
    apply Qle_bool_iff in E. lra.
Qed.

Lemma dlt_false (a b : double) : dlt a b = false <-> b <= a.
Proof.
  unfold dlt. rewrite negb_false_iff. apply Qle_bool_iff.
Qed.

Lemma dlt_compat (a a' b b' : double) :
  a == a' -> b == b' -> dlt a b = dlt a' b'.
Proof.
  intros Ha Hb. unfold dlt. now rewrite Ha, Hb.
Qed.

(** ** The path segmenter *)

Section SegmenterFacts.
Variables cos sin : double -> double.

Lemma extendSegment_spec (b r : bool) (copy segment : list Pose2D.t) :
  segment <> [] ->
  forall segment' copy',
    extendSegment cos sin b r segment copy = (segment', copy') ->
    segment ++ copy = segment' ++ tl copy'
    /\ (exists p rest, segment' = p :: rest /\ hd_error segment' = hd_error segment)
    /\ (List.length segment <= List.length segment')%nat
    /\ (List.length (tl copy') <= List.length copy)%nat
    /\ (copy' = []
        \/ exists rest, rest <> [] /\ copy' = last segment' Pose2D.default :: rest).
Proof.
  revert segment. induction copy as [|next copy' IH]; intros segment Hne s' c' H; simpl in H.
  - inversion H; subst; clear H. simpl. repeat split; auto.
    destruct s' as [|p rest]; [congruence|]. now exists p, rest.
  - destruct (_ && _)%bool.
    + assert (Hne' : segment ++ [next] <> []) by (destruct segment; discriminate).
      destruct (IH _ Hne' _ _ H) as (Hcat & (p & rest & Hs & Hhd) & Hlen & Hlen' & Hc).
      rewrite <- app_assoc in Hcat. simpl in Hcat.
      repeat split.
      * exact Hcat.
      * exists p, rest. split; [exact Hs|]. rewrite Hhd.
        destruct segment; [congruence|reflexivity].
      * rewrite length_app in Hlen. simpl in Hlen. lia.
      * simpl. lia.
      * exact Hc.
    + inversion H; subst; clear H. simpl. repeat split; auto.
      * destruct s' as [|p rest]; [congruence|]. now exists p, rest.
      * right. exists (next :: copy'). split; [discriminate|reflexivity].
Qed.

Lemma splitLoop_app (h : Header.t) (fuel : nat) :
  forall copy segments,
    splitLoop cos sin fuel h copy segments
    = option_map (app segments) (splitLoop cos sin fuel h copy []).
Proof.
  induction fuel as [|fuel IH]; intros copy segments.
  - destruct copy as [|f [|s c]]; simpl; now rewrite ?app_nil_r.
  - destruct copy as [|f [|s c]]; simpl; try now rewrite app_nil_r.
    destruct (extendSegment _ _ _ _ _ _) as [seg c'].
    rewrite IH. rewrite (IH c' [_]).
    destruct (splitLoop cos sin fuel h c' []); simpl; [|reflexivity].
    now rewrite <- app_assoc.
Qed.

Lemma last_cons (l : list Pose2D.t) :
  forall p d, last (p :: l) d = last l p.
Proof.
  induction l as [|q l IH]; intros p d; [reflexivity|].
  change (last (p :: q :: l) d) with (last (q :: l) d).
  now rewrite (IH q d), (IH q p).
Qed.

Lemma back_last (p : Pose2D.t) (l : list Pose2D.t) (d : Pose2D.t) :
  back (p :: l) = Some (last (p :: l) d).
Proof.
  unfold back. now rewrite last_cons.
Qed.

Lemma splitLoop_splits (h : Header.t) (fuel : nat) :
  forall copy, (List.length copy <= fuel)%nat ->
    exists new, splitLoop cos sin fuel h copy [] = Some new /\ splits h copy new.
Proof.
  induction fuel as [|fuel IH]; intros copy Hfuel.
  - destruct copy; [|simpl in Hfuel; lia].
    exists []. split; [reflexivity|]. unfold splits; simpl.
    repeat split; auto; try lia; try discriminate.
  - destruct copy as [|f [|s c]].
    + exists []. split; [reflexivity|]. unfold splits; simpl.
      repeat split; auto; try lia; try discriminate.
    + exists []. split; [reflexivity|]. unfold splits; simpl.
      repeat split; auto; try lia; try discriminate.
    + simpl.
      destruct (extendSegment _ _ _ _ _ _) as [seg c'] eqn:E.
      apply extendSegment_spec in E; [|discriminate].
      destruct E as (Hcat & (p & rest & Hseg & Hhd) & Hlen & Hlen' & Hc).
      simpl in Hfuel, Hlen.
      assert (Hc'len : (List.length c' <= fuel)%nat)
        by (destruct c'; simpl in *; lia).
      destruct (IH c' Hc'len) as (new & Hnew & Hrej & Hsmall & Hov & Hfirst & Hall).
      rewrite splitLoop_app, Hnew. simpl.
      eexists. split; [reflexivity|].
      unfold splits. repeat split.
      * intros _. simpl.
        destruct Hc as [-> | (rest' & Hrest' & ->)].
        -- rewrite (Hsmall ltac:(simpl; lia)). simpl.
           rewrite app_nil_r. simpl in Hcat. rewrite app_nil_r in Hcat. now symmetry.
        -- assert (H2 : (2 <= List.length (last seg Pose2D.default :: rest'))%nat)
             by (destruct rest'; [congruence|simpl; lia]).
           specialize (Hrej H2).
           destruct new as [|s1 more]; [discriminate|].
           simpl in Hrej. simpl map. simpl List.concat.
           specialize (Hfirst s1 more eq_refl). simpl in Hfirst.
           destruct (Path2D.poses s1) as [|q qs]; [discriminate|].
           simpl in Hrej. inversion Hrej as [[Hq Hqs]].
           simpl tl. rewrite Hqs. simpl in Hcat. now symmetry.
      * simpl. lia.
      * simpl. destruct new as [|s1 more]; [exact I|].
        simpl. split; [|exact Hov].
        specialize (Hfirst s1 more eq_refl).
        destruct Hc as [-> | (rest' & Hrest' & ->)].
        -- specialize (Hsmall ltac:(simpl; lia)). discriminate.
        -- simpl in Hfirst. exists (last seg Pose2D.default).
           split; [|exact Hfirst].
           rewrite Hseg. apply back_last.
      * intros s0 rest0 Heq. inversion Heq; subst s0 rest0. simpl.
        rewrite Hhd. reflexivity.
      * constructor; [|exact Hall]. simpl. split; [reflexivity|lia].
Qed.

End SegmenterFacts.

(** With [split_path] set and at least two poses, [setPlan] returns and
    leaves the segments of [splitLoop] as active plan and queue. *)
Lemma setPlan_split (cos sin : double -> double)
      (this : DWBLocalPlanner.t) (path : Path2D.t) :
  split_path this = true ->
  (2 <= List.length (Path2D.poses path))%nat ->
  exists this' new,
    setPlan cos sin this path = (this', Return tt)
    /\ splitLoop cos sin (List.length (Path2D.poses path)) (Path2D.header path)
                 (Path2D.poses path) [] = Some new
    /\ splits (Path2D.header path) (Path2D.poses path) new
    /\ segmentsOf this' = new.
Proof.
  intros Hsplit Hlen.
  destruct (splitLoop_splits cos sin (Path2D.header path) _ (Path2D.poses path) (le_n _))
    as (new & Hnew & Hsp).
  unfold setPlan. simpl. rewrite Hsplit, Hnew.
  pose proof Hsp as (Hrej & _ & _ & _ & Hall).
  specialize (Hrej Hlen).
  destruct new as [|s1 rest].
  { simpl in Hrej. rewrite <- Hrej in Hlen. simpl in Hlen. lia. }
  simpl. inversion Hall as [|? ? [_ Hs1] _]; subst.
  destruct (Path2D.poses s1) as [|q qs] eqn:Eq; [simpl in Hs1; lia|].
  simpl. eexists. exists (s1 :: rest).
  split; [reflexivity|]. split; [reflexivity|]. split; [exact Hsp|reflexivity].
Qed.

(** The step bound of the outer loop is never the reason [setPlan] stops. *)
Lemma setPlan_enough_fuel (cos sin : double -> double)
      (this : DWBLocalPlanner.t) (path : Path2D.t) :
  snd (setPlan cos sin this path) <> OutOfFuel.
Proof.
  unfold setPlan. simpl.
  destruct (split_path this).
  - destruct (splitLoop_splits cos sin (Path2D.header path) _ (Path2D.poses path) (le_n _))
      as (new & -> & _).
    destruct new as [|s1 rest]; simpl; [discriminate|].
    destruct (back (Path2D.poses s1)); simpl; discriminate.
  - simpl. destruct (back (Path2D.poses path)); simpl; discriminate.
Qed.

(** C2: for every path with at least two poses, [setPlan] with [split_path]
    enabled returns, and the segments it leaves (the active plan followed
    by the queue) give back the poses of the path when they are
    concatenated with the first pose of every segment after the first
    dropped; the last pose of each segment is the first pose of the next. *)
Theorem setPlan_split_rejoin (cos sin : double -> double)
        (this : DWBLocalPlanner.t) (path : Path2D.t) :
  split_path this = true ->
  (2 <= List.length (Path2D.poses path))%nat ->
  exists this',
    setPlan cos sin this path = (this', Return tt)
    /\ rejoin (map Path2D.poses (segmentsOf this')) = Path2D.poses path
    /\ overlapping (map Path2D.poses (segmentsOf this')).
Proof.
  intros Hsplit Hlen.
  destruct (setPlan_split cos sin this path Hsplit Hlen)
    as (this' & new & Hrun & _ & (Hrej & _ & Hov & _) & Hseg).
  exists this'. rewrite Hseg. auto.
Qed.

(** The three kinds of step of the scenario path, for any [cos] and [sin]
    that are exact at 0. *)
Section Scenario.
Variables cos sin : double -> double.
Hypothesis cos_0 : cos 0 == 1.
Hypothesis sin_0 : sin 0 == 0.

Lemma headingDot_at_0 (x y x' y' th' : double) :
  headingDot cos sin (Pose2D.mk x y 0) (Pose2D.mk x' y' th') == x' - x.
Proof.
  unfold headingDot. simpl. rewrite cos_0, sin_0. ring.
Qed.

Lemma forward_step (x y x' y' th' : double) :
  x' - x == 1 ->
  let d := headingDot cos sin (Pose2D.mk x y 0) (Pose2D.mk x' y' th') in
  dlt d 0 = false /\ dlt (d * d) 1e-10 = false.
Proof.
  intros Hx d. pose proof (headingDot_at_0 x y x' y' th') as Hd. fold d in Hd.
  rewrite Hx in Hd.
  split.
  - rewrite (dlt_compat d 1 0 0 Hd (Qeq_refl 0)). reflexivity.
  - rewrite (dlt_compat (d * d) 1 1e-10 1e-10); [reflexivity| |reflexivity].
    rewrite Hd. ring.
Qed.

Lemma sideways_step (x y x' y' th' : double) :
  x' - x == 0 ->
  let d := headingDot cos sin (Pose2D.mk x y 0) (Pose2D.mk x' y' th') in
  dlt d 0 = false /\ dlt (d * d) 1e-10 = true.
Proof.
  intros Hx d. pose proof (headingDot_at_0 x y x' y' th') as Hd. fold d in Hd.
  rewrite Hx in Hd.
  split.
  - rewrite (dlt_compat d 0 0 0 Hd (Qeq_refl 0)). reflexivity.
  - rewrite (dlt_compat (d * d) 0 1e-10 1e-10); [reflexivity| |reflexivity].
    rewrite Hd. ring.
Qed.

Lemma splitLoop_scenario :
  splitLoop cos sin 4 map_header (Path2D.poses scenario_path) []
  = Some [Path2D.mk map_header [Pose2D.mk 0 0 0; Pose2D.mk 1 0 0; Pose2D.mk 2 0 0];
          Path2D.mk map_header [Pose2D.mk 2 0 0; Pose2D.mk 2 1 1.57]].
Proof.
  destruct (forward_step 0 0 1 0 0 ltac:(reflexivity)) as [F1 F2].
  destruct (forward_step 1 0 2 0 0 ltac:(reflexivity)) as [G1 G2].
  destruct (sideways_step 2 0 2 1 1.57 ltac:(reflexivity)) as [S1 S2].
  unfold scenario_path.
  cbn [splitLoop extendSegment Path2D.poses last app Pose2D.default].
  rewrite F1, F2.
  cbn [splitLoop extendSegment Path2D.poses last app Pose2D.default].
  rewrite G1, G2. cbn [Bool.eqb andb].
  cbn [splitLoop extendSegment Path2D.poses last app Pose2D.default].
  rewrite S1, S2. cbn [Bool.eqb andb app].
  rewrite S1, S2. cbn [splitLoop extendSegment app].
  reflexivity.
Qed.
End Scenario.

(** C8: on the path [(0,0,0),(1,0,0),(2,0,0),(2,1,1.57)] with [split_path]
    enabled, [setPlan] leaves exactly two segments, the forward run
    [(0,0,0),(1,0,0),(2,0,0)] as active plan and [(2,0,0),(2,1,1.57)] as the
    only queued one: the steps of the first run have a dot product that is
    neither negative nor small, the step from (2,0,0) to (2,1,1.57) has a
    dot product [d] with [d*d < 1e-10].  [cos] and [sin] are only asked to
    be exact at 0. *)
Theorem setPlan_scenario (cos sin : double -> double) (this : DWBLocalPlanner.t) :
  cos 0 == 1 ->
  sin 0 == 0 ->
  split_path this = true ->
  let run := headingDot cos sin (Pose2D.mk 0 0 0) (Pose2D.mk 1 0 0) in
  let turn := headingDot cos sin (Pose2D.mk 2 0 0) (Pose2D.mk 2 1 1.57) in
  (dlt run 0 = false /\ dlt (run * run) 1e-10 = false)
  /\ (dlt turn 0 = false /\ dlt (turn * turn) 1e-10 = true)
  /\ exists this',
      setPlan cos sin this scenario_path = (this', Return tt)
      /\ global_plan_ this'
         = Path2D.mk map_header [Pose2D.mk 0 0 0; Pose2D.mk 1 0 0; Pose2D.mk 2 0 0]
      /\ global_plan_segments_ this'
         = [Path2D.mk map_header [Pose2D.mk 2 0 0; Pose2D.mk 2 1 1.57]].
Proof.
  intros Hcos Hsin Hsplit run turn.
  split; [apply (forward_step cos sin Hcos Hsin); reflexivity|].
  split; [apply (sideways_step cos sin Hcos Hsin); reflexivity|].
  destruct (setPlan_split cos sin this scenario_path Hsplit ltac:(simpl; lia))
    as (this' & new & Hrun & Hnew & _ & Hseg).
  change (List.length (Path2D.poses scenario_path)) with 4%nat in Hnew.
  change (Path2D.header scenario_path) with map_header in Hnew.
  rewrite (splitLoop_scenario cos sin Hcos Hsin) in Hnew.
  injection Hnew as Hnew'. rewrite <- Hnew' in Hseg.
  exists this'. split; [exact Hrun|].
  unfold segmentsOf in Hseg. injection Hseg as Hgp Hq. auto.
Qed.

Lemma setPlan_scenario_witness :
  exists this',
    setPlan cos_taylor sin_taylor (examplePlanner true true true [] []) scenario_path
    = (this', Return tt)
    /\ global_plan_ this'
       = Path2D.mk map_header [Pose2D.mk 0 0 0; Pose2D.mk 1 0 0; Pose2D.mk 2 0 0]
    /\ global_plan_segments_ this'
       = [Path2D.mk map_header [Pose2D.mk 2 0 0; Pose2D.mk 2 1 1.57]].
Proof.
  apply (setPlan_scenario cos_taylor sin_taylor (examplePlanner true true true [] []));
    reflexivity.
Defined.

Lemma setPlan_split_rejoin_witness :
  exists this',
    setPlan cos_taylor sin_taylor (examplePlanner true true true [] []) scenario_path
    = (this', Return tt)
    /\ rejoin (map Path2D.poses (segmentsOf this')) = Path2D.poses scenario_path
    /\ overlapping (map Path2D.poses (segmentsOf this')).
Proof.
  apply (setPlan_split_rejoin cos_taylor sin_taylor
           (examplePlanner true true true [] []) scenario_path).
  - reflexivity.
  - simpl. lia.
Defined.

(** ** The segment/goal state machine *)

Lemma setPlan_queue_ok (cos sin : double -> double)
      (this this' : DWBLocalPlanner.t) (path : Path2D.t) :
  setPlan cos sin this path = (this', Return tt) -> queue_ok this'.
Proof.
  unfold setPlan, queue_ok. simpl.
  destruct (split_path this) eqn:Hsplit.
  - destruct (splitLoop_splits cos sin (Path2D.header path) _ (Path2D.poses path) (le_n _))
      as (new & Hnew & (_ & _ & _ & _ & Hall)).
    rewrite Hnew. destruct new as [|s1 rest]; simpl; [discriminate|].
    destruct (back (Path2D.poses s1)); [|discriminate].
    intro H. injection H as <-. simpl.
    inversion Hall as [|? ? _ Hrest]; subst.
    eapply Forall_impl; [|exact Hrest]. simpl.
    intros s [_ Hs] Hnil. rewrite Hnil in Hs. simpl in Hs. lia.
  - simpl. destruct (back (Path2D.poses path)); [|discriminate].
    intro H. injection H as <-. simpl. constructor.
Qed.

Lemma isGoalReached_queue_ok (this this' : DWBLocalPlanner.t)
      (pose : Pose2DStamped.t) (velocity : Twist2D.t) (r : Outcome bool) :
  queue_ok this -> isGoalReached this pose velocity = (this', r) -> queue_ok this'.
Proof.
  unfold isGoalReached, queue_ok. intros Hq.
  destruct (String.eqb _ _).
  - intro H. injection H as <- _. exact Hq.
  - simpl. destruct (GoalChecker.isGoalReached _ _ _ _).
    + destruct (global_plan_segments_ this) as [|s rest] eqn:E.
      * intro H. injection H as <- _. simpl. rewrite E. constructor.
      * inversion Hq as [|? ? _ Hrest]; subst. simpl.
        destruct (back (Path2D.poses s)); intro H; injection H as <- _; exact Hrest.
    + intro H. injection H as <- _. exact Hq.
Qed.

(** C9: while no goal has been set (the frame id of [goal_pose_] is
    empty), [isGoalReached] returns false and hands back the planner as it
    was: plan, queue, both goal poses with their stamps and the log of
    calls on the goal checker, the publisher and the plugins. *)
Theorem isGoalReached_without_goal (this : DWBLocalPlanner.t)
        (pose : Pose2DStamped.t) (velocity : Twist2D.t) :
  Header.frame_id (Pose2DStamped.header (goal_pose_ this)) = EmptyString ->
  isGoalReached this pose velocity = (this, Return false).
Proof.
  intro H. unfold isGoalReached. rewrite H. reflexivity.
Qed.

Lemma isGoalReached_without_goal_witness :
  isGoalReached (examplePlanner true true true [] [])
                (Pose2DStamped.mk (Header.mk "odom" 7%N) (Pose2D.mk 1 2 0))
                Twist2D.default
  = (examplePlanner true true true [] [], Return false).
Proof.
  apply (isGoalReached_without_goal (examplePlanner true true true [] [])).
  reflexivity.
Defined.

(** C3: with a goal set and the goal checker reporting reached:
    on an empty queue [isGoalReached] returns true and leaves plan and queue
    alone; on a queue [segment :: rest] it returns false, and the planner it
    hands back is [resetPlugins committed], where [committed] already has
    [segment] as [global_plan_], [rest] as queue and the last pose of
    [segment] (under the header of [segment]) as intermediate goal.  In the
    log the publication of [segment] comes before the plugin resets, which
    come last. *)
Theorem isGoalReached_reached (this : DWBLocalPlanner.t)
        (pose : Pose2DStamped.t) (velocity : Twist2D.t) :
  goal_set this ->
  queue_ok this ->
  goal_checker_says this pose velocity = true ->
  match global_plan_segments_ this with
  | [] =>
      exists this',
        isGoalReached this pose velocity = (this', Return true)
        /\ global_plan_ this' = global_plan_ this
        /\ global_plan_segments_ this' = []
        /\ goal_pose_ this' = stamped_goal this pose
        /\ intermediate_goal_pose_ this' = stamped_intermediate this pose
        /\ effects this' = effects this ++ [goal_query this pose velocity]
  | segment :: rest =>
      exists committed last_pose,
        isGoalReached this pose velocity = (resetPlugins committed, Return false)
        /\ back (Path2D.poses segment) = Some last_pose
        /\ global_plan_ committed = segment
        /\ global_plan_segments_ committed = rest
        /\ goal_pose_ committed = stamped_goal this pose
        /\ intermediate_goal_pose_ committed
           = Pose2DStamped.mk (Path2D.header segment) last_pose
        /\ effects committed
           = effects this ++ [goal_query this pose velocity; Publish_GlobalPlan segment]
        /\ global_plan_ (resetPlugins committed) = segment
        /\ global_plan_segments_ (resetPlugins committed) = rest
        /\ intermediate_goal_pose_ (resetPlugins committed)
           = Pose2DStamped.mk (Path2D.header segment) last_pose
        /\ effects (resetPlugins committed)
           = effects this
               ++ [goal_query this pose velocity; Publish_GlobalPlan segment]
               ++ TrajectoryGenerator_reset :: GoalChecker_reset
                  :: map (fun critic =>
                            TrajectoryCritic_reset (TrajectoryCritic.getName critic))
                         (critics_ this)
  end.
Proof.
  unfold goal_set, queue_ok, goal_checker_says, goal_query, stamped_intermediate,
    stamped_goal.
  intros Hgoal Hq Hreached.
  unfold isGoalReached.
  destruct (String.eqb _ _) eqn:Heq; [apply String.eqb_eq in Heq; contradiction|].
  cbn -[back]. unfold transformPoseToLocal in *. cbn -[back] in *. rewrite Hreached.
  destruct (global_plan_segments_ this) as [|segment rest] eqn:Hqueue.
  - eexists. split; [reflexivity|]. cbn. auto.
  - inversion Hq as [|? ? Hseg _]; subst.
    destruct (Path2D.poses segment) as [|p ps] eqn:Hposes; [congruence|].
    eexists. exists (last ps p). split; [reflexivity|].
    cbn. rewrite <- !app_assoc. cbn. repeat split; reflexivity.
Qed.

Lemma isGoalReached_reached_witness :
  exists committed,
    isGoalReached trackingPlanner
                  (Pose2DStamped.mk (Header.mk "map" 5%N) (Pose2D.mk 2 0 0))
                  Twist2D.default
    = (resetPlugins committed, Return false)
    /\ global_plan_ committed
       = Path2D.mk map_header [Pose2D.mk 2 0 0; Pose2D.mk 2 1 1.57]
    /\ global_plan_segments_ committed = [].
Proof.
  destruct (isGoalReached_reached trackingPlanner
              (Pose2DStamped.mk (Header.mk "map" 5%N) (Pose2D.mk 2 0 0))
              Twist2D.default)
    as (committed & last_pose & Hrun & _ & Hplan & Hqueue & _).
  - unfold goal_set. simpl. discriminate.
  - unfold queue_ok. simpl. repeat constructor. discriminate.
  - reflexivity.
  - exists committed. auto.
Defined.

(** ** The critic chain and the candidate loop *)

Section CriticChain.
Variable best_score : double.

Lemma scoreCritics_traj (sc : bool) (critics : list TrajectoryCritic.t) :
  forall score s,
    scoreCritics sc best_score critics score = inl s ->
    TrajectoryScore.traj s = TrajectoryScore.traj score.
Proof.
  induction critics as [|critic critics IH]; intros score s H; simpl in H.
  - now inversion H.
  - destruct (deq _ 0).
    + now rewrite (IH _ _ H).
    + destruct (TrajectoryCritic.scoreTrajectory critic _); [|discriminate].
      destruct (_ && _ && _)%bool.
      * now inversion H.
      * now rewrite (IH _ _ H).
Qed.

(** With non-negative contributions the running total never decreases. *)
Lemma scoreCritics_monotone (sc : bool) (critics : list TrajectoryCritic.t) :
  Forall (fun critic =>
            0 <= TrajectoryCritic.getScale critic
            /\ forall traj raw_score,
                TrajectoryCritic.scoreTrajectory critic traj = inl raw_score ->
                0 <= raw_score) critics ->
  forall score s,
    scoreCritics sc best_score critics score = inl s ->
    TrajectoryScore.total score <= TrajectoryScore.total s.
Proof.
  induction 1 as [|critic critics [Hscale Hraw] _ IH]; intros score s H; simpl in H.
  - inversion H. lra.
  - destruct (deq _ 0).
    + apply IH in H. exact H.
    + destruct (TrajectoryCritic.scoreTrajectory critic _) as [raw|] eqn:E; [|discriminate].
      apply Hraw in E.
      assert (Hstep : TrajectoryScore.total score
                      <= TrajectoryScore.total score + raw * TrajectoryCritic.getScale critic)
        by nra.
      destruct (_ && _ && _)%bool.
      * inversion H. simpl. exact Hstep.
      * apply IH in H. simpl in H. lra.
Qed.

(** Without short-circuit the total is the weighted sum, accumulated from
    the total the chain started with. *)
Lemma scoreCritics_full_total (critics : list TrajectoryCritic.t) :
  forall score s,
    scoreCritics false best_score critics score = inl s ->
    TrajectoryScore.total s
    = fold_left
        (fun acc critic =>
           match TrajectoryCritic.scoreTrajectory critic (TrajectoryScore.traj score) with
           | inl raw_score => acc + raw_score * TrajectoryCritic.getScale critic
           | inr _ => acc
           end)
        (filter (fun critic => negb (deq (TrajectoryCritic.getScale critic) 0)) critics)
        (TrajectoryScore.total score).
Proof.
  induction critics as [|critic critics IH]; intros score s H; simpl in H.
  - now inversion H.
  - simpl. destruct (deq _ 0); simpl.
    + apply IH in H. exact H.
    + destruct (TrajectoryCritic.scoreTrajectory critic _) as [raw|] eqn:E; [|discriminate].
      apply IH in H. simpl in H. exact H.
Qed.

Lemma scoreCritics_short_circuit (critics : list TrajectoryCritic.t) :
  Forall (fun critic =>
            0 <= TrajectoryCritic.getScale critic
            /\ forall traj raw_score,
                TrajectoryCritic.scoreTrajectory critic traj = inl raw_score ->
                0 <= raw_score) critics ->
  forall score,
    short_circuit_sound best_score
                        (scoreCritics true best_score critics score)
                        (scoreCritics false best_score critics score).
Proof.
  induction 1 as [|critic critics Hc Hrest IH]; intros score; simpl.
  - now left.
  - destruct (deq _ 0); [apply IH|].
    destruct (TrajectoryCritic.scoreTrajectory critic _) as [raw|]; [|now left].
    destruct (dgt best_score 0) eqn:Hbest; simpl; [|apply IH].
    destruct (dgt _ best_score) eqn:Hover; [|apply IH].
    right. eexists. split; [reflexivity|].
    apply dlt_true in Hbest. apply dlt_true in Hover. simpl in Hover. simpl.
    split; [exact Hbest|]. split; [exact Hover|].
    destruct (scoreCritics false _ _ _) as [s'|] eqn:E; [|exact I].
    apply (scoreCritics_monotone false critics Hrest) in E. exact E.
Qed.

End CriticChain.

(** What one turn of the candidate loop does to [best], [worst] and the
    tracker. *)
Lemma best_evaluateCandidate (this : DWBLocalPlanner.t) (ev : Evaluation)
      (traj : Trajectory2D.t) :
  best (evaluateCandidate this ev traj)
  = match scoreTrajectory this traj (TrajectoryScore.total (best ev)) with
    | inl score =>
        if (dlt (TrajectoryScore.total (best ev)) 0
            || dlt (TrajectoryScore.total score) (TrajectoryScore.total (best ev)))%bool
        then score else best ev
    | inr _ => best ev
    end.
Proof.
  unfold evaluateCandidate.
  destruct (scoreTrajectory this traj _); [|reflexivity].
  destruct (_ || _)%bool; destruct (_ || _)%bool; reflexivity.
Qed.

Lemma worst_evaluateCandidate (this : DWBLocalPlanner.t) (ev : Evaluation)
      (traj : Trajectory2D.t) :
  worst (evaluateCandidate this ev traj)
  = match scoreTrajectory this traj (TrajectoryScore.total (best ev)) with
    | inl score =>
        if (dlt (TrajectoryScore.total (worst ev)) 0
            || dgt (TrajectoryScore.total score) (TrajectoryScore.total (worst ev)))%bool
        then score else worst ev
    | inr _ => worst ev
    end.
Proof.
  unfold evaluateCandidate.
  destruct (scoreTrajectory this traj _); [|reflexivity].
  destruct (_ || _)%bool; destruct (_ || _)%bool; reflexivity.
Qed.

Lemma tracker_evaluateCandidate (this : DWBLocalPlanner.t) (ev : Evaluation)
      (traj : Trajectory2D.t) :
  tracker (evaluateCandidate this ev traj)
  = match scoreTrajectory this traj (TrajectoryScore.total (best ev)) with
    | inl _ => IllegalTrajectoryTracker.addLegalTrajectory (tracker ev)
    | inr e => IllegalTrajectoryTracker.addIllegalTrajectory (tracker ev) e
    end.
Proof.
  unfold evaluateCandidate.
  destruct (scoreTrajectory this traj _); [|reflexivity].
  destruct (_ || _)%bool; destruct (_ || _)%bool; reflexivity.
Qed.

(** A legal score is non-negative when the critics are. *)
Lemma scoreTrajectory_nonneg (this : DWBLocalPlanner.t) (traj : Trajectory2D.t)
      (best_score : double) (s : TrajectoryScore.t) :
  nonneg_critics this ->
  scoreTrajectory this traj best_score = inl s ->
  0 <= TrajectoryScore.total s.
Proof.
  intros Hnn H. unfold scoreTrajectory in H.
  apply (scoreCritics_monotone best_score _ _ Hnn) in H. exact H.
Qed.

(** One turn keeps [best] the same with and without short-circuit. *)
Lemma evaluateCandidate_short_circuit (this : DWBLocalPlanner.t)
      (short full : Evaluation) (traj : Trajectory2D.t) :
  nonneg_critics this ->
  best short = best full ->
  best (evaluateCandidate (set_short_circuit this true) short traj)
  = best (evaluateCandidate (set_short_circuit this false) full traj).
Proof.
  intros Hnn Hbest. rewrite !best_evaluateCandidate, Hbest.
  unfold scoreTrajectory. cbn [short_circuit_trajectory_evaluation_ critics_ set_short_circuit].
  destruct (scoreCritics_short_circuit (TrajectoryScore.total (best full))
              (critics_ this) Hnn (TrajectoryScore.mk traj [] 0))
    as [-> | (s & -> & Hset & Hover & Hfull)]; [reflexivity|].
  assert (E1 : dlt (TrajectoryScore.total (best full)) 0 = false)
    by (apply dlt_false; lra).
  assert (E2 : dlt (TrajectoryScore.total s) (TrajectoryScore.total (best full)) = false)
    by (apply dlt_false; lra).
  rewrite E1, E2. simpl.
  destruct (scoreCritics false _ _ _) as [s'|]; [|reflexivity].
  assert (E3 : dlt (TrajectoryScore.total s') (TrajectoryScore.total (best full)) = false)
    by (apply dlt_false; lra).
  now rewrite E3.
Qed.

Lemma evaluate_short_circuit (this : DWBLocalPlanner.t) (trajs : list Trajectory2D.t) :
  nonneg_critics this ->
  forall short full,
    best short = best full ->
    best (fold_left (evaluateCandidate (set_short_circuit this true)) trajs short)
    = best (fold_left (evaluateCandidate (set_short_circuit this false)) trajs full).
Proof.
  intro Hnn. induction trajs as [|traj trajs IH]; intros short full Hbest; simpl.
  - exact Hbest.
  - apply IH. now apply evaluateCandidate_short_circuit.
Qed.

(** C1: when every critic has a non-negative scale and gives non-negative
    scores, the candidate loop ends with the same [best] with
    [short_circuit_trajectory_evaluation_] set as with it cleared, for
    every sequence of candidates, and [coreScoringAlgorithm] selects the
    same candidate (or none) in both settings; with short-circuit cleared
    the total of a scored candidate is the sum of [raw_score * scale] over
    the critics with a non-zero scale, in list order. *)
Theorem short_circuit_same_best (this : DWBLocalPlanner.t) (pose : Pose2D.t)
        (velocity : Twist2D.t) (results : option LocalPlanEvaluation.t) :
  nonneg_critics this ->
  let short := set_short_circuit this true in
  let full := set_short_circuit this false in
  (forall trajs,
      best (evaluateAll short trajs results) = best (evaluateAll full trajs results))
  /\ selected (snd (coreScoringAlgorithm short pose velocity results))
     = selected (snd (coreScoringAlgorithm full pose velocity results))
  /\ (forall traj best_score s,
         scoreTrajectory full traj best_score = inl s ->
         TrajectoryScore.total s = spec_weighted_sum (critics_ this) traj).
Proof.
  intros Hnn short full.
  assert (Hall : forall trajs,
             best (evaluateAll short trajs results) = best (evaluateAll full trajs results)).
  { intro trajs. unfold evaluateAll. now apply evaluate_short_circuit. }
  split; [exact Hall|]. split.
  - unfold coreScoringAlgorithm.
    change (candidates short pose velocity) with (candidates this pose velocity).
    change (candidates full pose velocity) with (candidates this pose velocity).
    rewrite (Hall (candidates this pose velocity)).
    destruct (dlt _ 0); reflexivity.
  - intros traj best_score s H. unfold scoreTrajectory in H.
    apply scoreCritics_full_total in H. exact H.
Qed.

Lemma cautiousPlanner_nonneg : nonneg_critics cautiousPlanner.
Proof.
  unfold nonneg_critics. simpl.
  repeat constructor; try (vm_compute; discriminate);
    simpl; intros traj raw H;
    destruct (dgt _ 1); injection H as <-; vm_compute; discriminate.
Defined.

Lemma short_circuit_same_best_witness :
  selected (snd (coreScoringAlgorithm (set_short_circuit cautiousPlanner true)
                                      Pose2D.default Twist2D.default None))
  = selected (snd (coreScoringAlgorithm (set_short_circuit cautiousPlanner false)
                                        Pose2D.default Twist2D.default None)).
Proof.
  apply (short_circuit_same_best cautiousPlanner Pose2D.default Twist2D.default None).
  exact cautiousPlanner_nonneg.
Defined.

(** A property of the loop state that is kept by every turn holds after
    every sequence of candidates if it holds before. *)
Lemma evaluate_invariant (this : DWBLocalPlanner.t) (P : Evaluation -> Prop) :
  (forall ev traj, P ev -> P (evaluateCandidate this ev traj)) ->
  forall trajs ev, P ev -> P (fold_left (evaluateCandidate this) trajs ev).
Proof.
  intros Hstep trajs.
  induction trajs as [|traj trajs IH]; intros ev Hev; simpl; auto.
Qed.

Lemma evaluateAll_invariant (this : DWBLocalPlanner.t)
      (results : option LocalPlanEvaluation.t) (P : Evaluation -> Prop) :
  P (startEvaluation results) ->
  (forall ev traj, P ev -> P (evaluateCandidate this ev traj)) ->
  forall trajs, P (evaluateAll this trajs results).
Proof.
  intros Hstart Hstep trajs. unfold evaluateAll.
  now apply evaluate_invariant.
Qed.

(** The tracker never counts more illegal trajectories than trajectories,
    and a legal one, once counted, stays counted. *)
Lemma legal_count_stays_positive (this : DWBLocalPlanner.t)
      (trajs : list Trajectory2D.t) (ev : Evaluation) :
  (IllegalTrajectoryTracker.illegal_count (tracker ev)
   < IllegalTrajectoryTracker.total_count (tracker ev))%nat ->
  (0 < IllegalTrajectoryTracker.legal_count
         (tracker (fold_left (evaluateCandidate this) trajs ev)))%nat.
Proof.
  intro H.
  assert (Hlt : (IllegalTrajectoryTracker.illegal_count
                   (tracker (fold_left (evaluateCandidate this) trajs ev))
                 < IllegalTrajectoryTracker.total_count
                     (tracker (fold_left (evaluateCandidate this) trajs ev)))%nat).
  { apply (evaluate_invariant this
             (fun ev => (IllegalTrajectoryTracker.illegal_count (tracker ev)
                         < IllegalTrajectoryTracker.total_count (tracker ev))%nat));
      [|exact H].
    intros ev' traj Hev. rewrite tracker_evaluateCandidate.
    destruct (scoreTrajectory this traj _);
      unfold IllegalTrajectoryTracker.addLegalTrajectory,
             IllegalTrajectoryTracker.addIllegalTrajectory;
      cbn [IllegalTrajectoryTracker.total_count IllegalTrajectoryTracker.illegal_count];
      lia. }
  unfold IllegalTrajectoryTracker.legal_count. lia.
Qed.

(** Whatever the critics return: the tracker counts no legal trajectory
    exactly when the chain rejects every candidate while no best score is
    set, and then [best] is still unset. *)
Lemma legal_count_zero (this : DWBLocalPlanner.t) (trajs : list Trajectory2D.t) :
  forall ev,
    best ev = unset ->
    IllegalTrajectoryTracker.illegal_count (tracker ev)
    = IllegalTrajectoryTracker.total_count (tracker ev) ->
    let ev' := fold_left (evaluateCandidate this) trajs ev in
    (IllegalTrajectoryTracker.legal_count (tracker ev') = 0%nat
     <-> Forall (rejected_without_best this) trajs)
    /\ (IllegalTrajectoryTracker.legal_count (tracker ev') = 0%nat -> best ev' = unset).
Proof.
  induction trajs as [|traj trajs IH]; intros ev Hbest Hcount; simpl.
  - unfold IllegalTrajectoryTracker.legal_count. rewrite Hcount, Nat.sub_diag.
    split; [split; [constructor|reflexivity]|intros _; exact Hbest].
  - destruct (scoreTrajectory this traj (TrajectoryScore.total unset)) as [s|e] eqn:E.
    + assert (Hpos : (0 < IllegalTrajectoryTracker.legal_count
                           (tracker (fold_left (evaluateCandidate this) trajs
                                               (evaluateCandidate this ev traj))))%nat).
      { apply legal_count_stays_positive.
        rewrite tracker_evaluateCandidate, Hbest, E. simpl. lia. }
      split; [split|]; intro H; try lia.
      inversion H as [|? ? [e He] _]; subst. congruence.
    + destruct (IH (evaluateCandidate this ev traj)) as [[H1 H2] H3].
      * rewrite best_evaluateCandidate, Hbest, E. reflexivity.
      * rewrite tracker_evaluateCandidate, Hbest, E. simpl. lia.
      * split; [split|exact H3]; intro H.
        -- constructor; [now exists e|auto].
        -- inversion H; subst. auto.
Qed.

Lemma unset_or_legal_more (this : DWBLocalPlanner.t) (seen more : list Trajectory2D.t)
      (score : TrajectoryScore.t) :
  unset_or_legal this seen score -> unset_or_legal this (seen ++ more) score.
Proof.
  intros [H|(traj & b & Hin & H)]; [now left|].
  right. exists traj, b. split; [apply in_or_app; now left|exact H].
Qed.

Lemma evaluate_only_legal (this : DWBLocalPlanner.t) (trajs : list Trajectory2D.t) :
  forall seen ev,
    unset_or_legal this seen (best ev) /\ unset_or_legal this seen (worst ev) ->
    let ev' := fold_left (evaluateCandidate this) trajs ev in
    unset_or_legal this (seen ++ trajs) (best ev')
    /\ unset_or_legal this (seen ++ trajs) (worst ev').
Proof.
  induction trajs as [|traj trajs IH]; intros seen ev [Hb Hw]; simpl.
  - rewrite app_nil_r. now split.
  - replace (seen ++ traj :: trajs) with ((seen ++ [traj]) ++ trajs)
      by (now rewrite <- app_assoc).
    apply IH.
    rewrite best_evaluateCandidate, worst_evaluateCandidate.
    destruct (scoreTrajectory this traj _) as [score|] eqn:E.
    + assert (Hnew : unset_or_legal this (seen ++ [traj]) score).
      { right. exists traj, (TrajectoryScore.total (best ev)).
        split; [apply in_or_app; right; now left|exact E]. }
      split; destruct (_ || _)%bool; auto using unset_or_legal_more.
    + split; now apply unset_or_legal_more.
Qed.

(** After every sequence of candidates, [best] and [worst] are the unset
    sentinel or have a non-negative total, when the critics are
    non-negative. *)
Lemma evaluateAll_nonneg (this : DWBLocalPlanner.t)
      (results : option LocalPlanEvaluation.t) (trajs : list Trajectory2D.t) :
  nonneg_critics this ->
  let ev := evaluateAll this trajs results in
  (best ev = unset \/ 0 <= TrajectoryScore.total (best ev))
  /\ (worst ev = unset \/ 0 <= TrajectoryScore.total (worst ev)).
Proof.
  intros Hnn.
  apply (evaluateAll_invariant this results
           (fun ev => (best ev = unset \/ 0 <= TrajectoryScore.total (best ev))
                      /\ (worst ev = unset \/ 0 <= TrajectoryScore.total (worst ev)))).
  - split; now left.
  - intros ev traj [Hb Hw].
    rewrite best_evaluateCandidate, worst_evaluateCandidate.
    destruct (scoreTrajectory this traj _) as [score|] eqn:E; [|now split].
    apply (scoreTrajectory_nonneg _ _ _ _ Hnn) in E.
    split.
    + destruct (_ || _)%bool; [now right|exact Hb].
    + destruct (_ || _)%bool; [now right|exact Hw].
Qed.

(** The two tests of one turn, on a slot that is unset or non-negative. *)
Lemma overwrite_test (slot : TrajectoryScore.t) (total : double) :
  slot = unset \/ 0 <= TrajectoryScore.total slot ->
  ((dlt (TrajectoryScore.total slot) 0
    || dlt total (TrajectoryScore.total slot))%bool = true
   <-> slot = unset \/ total < TrajectoryScore.total slot)
  /\ ((dlt (TrajectoryScore.total slot) 0
       || dgt total (TrajectoryScore.total slot))%bool = true
      <-> slot = unset \/ TrajectoryScore.total slot < total)
  /\ (0 <= TrajectoryScore.total slot -> slot <> unset).
Proof.
  intro Hslot.
  assert (Hset : 0 <= TrajectoryScore.total slot -> slot <> unset).
  { intros Hpos ->. vm_compute in Hpos. now apply Hpos. }
  assert (Hsentinel : dlt (TrajectoryScore.total slot) 0 = true <-> slot = unset).
  { rewrite dlt_true. split.
    - intro Hneg. destruct Hslot as [H|H]; [exact H|lra].
    - intros ->. reflexivity. }
  unfold dgt. rewrite !orb_true_iff, Hsentinel, !dlt_true.
  repeat split; auto.
Qed.

(** C4, as the code has it: in every evaluation cycle [best] and [worst]
    are, after every prefix of the candidates, the unset sentinel or the
    score of a legally scored candidate (never the failed score of a
    rejected one); when every critic has a non-negative scale and gives
    non-negative scores, such a score has a non-negative total, and
    [best] and [worst] start unset and are overwritten only while unset
    or by a strictly lower (for [worst]: strictly higher) total; and
    whatever the critics do, a [best] that [coreScoringAlgorithm] returns
    has a non-negative total. *)
Theorem installed_scores_nonneg (this : DWBLocalPlanner.t) (pose : Pose2D.t)
        (velocity : Twist2D.t) (results : option LocalPlanEvaluation.t) :
  (forall trajs, only_legal_installed this trajs results)
  /\ (nonneg_critics this ->
      forall trajs, never_negative_installed this trajs results)
  /\ (nonneg_critics this ->
      best (evaluateAll this [] results) = unset
      /\ worst (evaluateAll this [] results) = unset
      /\ forall trajs, overwritten_only_by_better this trajs results)
  /\ (forall s,
         snd (coreScoringAlgorithm this pose velocity results) = Return s ->
         0 <= TrajectoryScore.total s).
Proof.
  split; [|split; [|split]].
  - intros trajs pre post _.
    apply (evaluate_only_legal this pre [] (startEvaluation results)).
    split; now left.
  - intros Hnn trajs pre post _. now apply evaluateAll_nonneg.
  - intro Hnn. split; [reflexivity|]. split; [reflexivity|].
    intros trajs pre traj post _. cbv zeta.
    destruct (evaluateAll_nonneg this results pre Hnn) as [Hb Hw].
    assert (Hturn : evaluateAll this (pre ++ [traj]) results
                    = evaluateCandidate this (evaluateAll this pre results) traj)
      by (unfold evaluateAll; now rewrite fold_left_app).
    rewrite Hturn, best_evaluateCandidate, worst_evaluateCandidate.
    destruct (scoreTrajectory this traj _) as [score|]; [|now split].
    destruct (overwrite_test (best (evaluateAll this pre results))
                (TrajectoryScore.total score) Hb) as (Hbest & _ & Hbset).
    destruct (overwrite_test (worst (evaluateAll this pre results))
                (TrajectoryScore.total score) Hw) as (_ & Hworst & Hwset).
    split.
    + clear Hworst.
      match goal with |- context [if ?test then _ else _] => destruct test eqn:Htest end.
      * left. split; [reflexivity|now apply Hbest].
      * right. split; [reflexivity|].
        assert (Hnot : ~ (best (evaluateAll this pre results) = unset
                          \/ TrajectoryScore.total score
                             < TrajectoryScore.total (best (evaluateAll this pre results))))
          by (intro H; apply Hbest in H; discriminate).
        destruct Hb as [Hb|Hb]; [contradiction Hnot; now left|].
        split; [now apply Hbset|].
        apply Qnot_lt_le. intro Hlt. apply Hnot. now right.
    + clear Hbest.
      match goal with |- context [if ?test then _ else _] => destruct test eqn:Htest end.
      * left. split; [reflexivity|now apply Hworst].
      * right. split; [reflexivity|].
        assert (Hnot : ~ (worst (evaluateAll this pre results) = unset
                          \/ TrajectoryScore.total (worst (evaluateAll this pre results))
                             < TrajectoryScore.total score))
          by (intro H; apply Hworst in H; discriminate).
        destruct Hw as [Hw|Hw]; [contradiction Hnot; now left|].
        split; [now apply Hwset|].
        apply Qnot_lt_le. intro Hlt. apply Hnot. now right.
  - intros s. unfold coreScoringAlgorithm.
    destruct (dlt _ 0) eqn:E; simpl; [discriminate|].
    intro H. injection H as <-. now apply dlt_false in E.
Qed.

Lemma installed_scores_nonneg_witness :
  never_negative_installed cautiousPlanner
    (candidates cautiousPlanner Pose2D.default Twist2D.default) None
  /\ overwritten_only_by_better cautiousPlanner
       (candidates cautiousPlanner Pose2D.default Twist2D.default) None.
Proof.
  destruct (installed_scores_nonneg cautiousPlanner Pose2D.default Twist2D.default None)
    as (_ & Hnever & Hrule & _).
  split.
  - apply Hnever. exact cautiousPlanner_nonneg.
  - apply Hrule. exact cautiousPlanner_nonneg.
Defined.

(** C4 as stated fails: a candidate with total -2 is installed as [best]. *)
Lemma negative_total_installed :
  ~ never_negative_installed reversingPlanner
      (candidates reversingPlanner Pose2D.default Twist2D.default) None.
Proof.
  intro H.
  destruct (H (candidates reversingPlanner Pose2D.default Twist2D.default) [] eq_refl)
    as [[Hb|Hb] _].
  - vm_compute in Hb. discriminate.
  - vm_compute in Hb. apply Hb. reflexivity.
Qed.

(** Two candidates that drive backwards, with totals -2 and -1. *)
Definition retreatingPlanner : DWBLocalPlanner.t :=
  examplePlanner false false true [velocity_critic "Speed" 1]
                 [Twist2D.mk (-2) 0 0; Twist2D.mk (-1) 0 0].

(** The overwrite rule needs the non-negative critics: the installed total
    -2 is taken for the sentinel and overwritten by the higher total -1. *)
Example overwrite_rule_needs_nonneg :
  ~ overwritten_only_by_better retreatingPlanner
      (candidates retreatingPlanner Pose2D.default Twist2D.default) None.
Proof.
  intro H.
  specialize (H [Trajectory2D.mk (Twist2D.mk (-2) 0 0) [] []]
                (Trajectory2D.mk (Twist2D.mk (-1) 0 0) [] []) [] eq_refl).
  vm_compute in H.
  destruct H as [[[_ [Hunset|Hlower]]|[Hkept _]] _]; discriminate.
Qed.

(** The tracker and [best] go together when the critics are non-negative. *)
Lemma tracker_best_invariant (this : DWBLocalPlanner.t)
      (results : option LocalPlanEvaluation.t) (trajs : list Trajectory2D.t) :
  nonneg_critics this ->
  let ev := evaluateAll this trajs results in
  (IllegalTrajectoryTracker.illegal_count (tracker ev)
   <= IllegalTrajectoryTracker.total_count (tracker ev))%nat
  /\ ((IllegalTrajectoryTracker.legal_count (tracker ev) = 0%nat /\ best ev = unset)
      \/ ((0 < IllegalTrajectoryTracker.legal_count (tracker ev))%nat
          /\ 0 <= TrajectoryScore.total (best ev))).
Proof.
  intros Hnn.
  apply (evaluateAll_invariant this results
           (fun ev =>
              (IllegalTrajectoryTracker.illegal_count (tracker ev)
               <= IllegalTrajectoryTracker.total_count (tracker ev))%nat
              /\ ((IllegalTrajectoryTracker.legal_count (tracker ev) = 0%nat
                   /\ best ev = unset)
                  \/ ((0 < IllegalTrajectoryTracker.legal_count (tracker ev))%nat
                      /\ 0 <= TrajectoryScore.total (best ev))))).
  - split; [simpl; lia|]. left. split; reflexivity.
  - intros ev traj [Hle Hcases].
    rewrite best_evaluateCandidate, tracker_evaluateCandidate.
    unfold IllegalTrajectoryTracker.legal_count in *.
    destruct (scoreTrajectory this traj _) as [score|e] eqn:E;
      unfold IllegalTrajectoryTracker.addLegalTrajectory,
             IllegalTrajectoryTracker.addIllegalTrajectory;
      cbn [IllegalTrajectoryTracker.total_count IllegalTrajectoryTracker.illegal_count].
    + apply (scoreTrajectory_nonneg _ _ _ _ Hnn) in E.
      split; [lia|]. right. split; [lia|].
      destruct Hcases as [[_ Hunset]|[_ Hpos]].
      * rewrite Hunset. simpl. exact E.
      * destruct (_ || _)%bool; [exact E|exact Hpos].
    + split; [lia|]. destruct Hcases as [[H0 Hunset]|[Hlegal Hpos]].
      * left. split; [lia|exact Hunset].
      * right. split; [lia|exact Hpos].
Qed.

(** C5, as the code has it: when every critic has a non-negative scale and
    gives non-negative scores, [coreScoringAlgorithm] throws the
    no-legal-trajectories exception, with the tracker of the cycle in it,
    exactly when no candidate was scored legally (the tracker counted no
    legal trajectory; equivalently, the chain rejects every candidate while
    no best score is set), and returns [best] when one was. *)
Theorem no_legal_trajectories_iff (this : DWBLocalPlanner.t) (pose : Pose2D.t)
        (velocity : Twist2D.t) (results : option LocalPlanEvaluation.t) :
  nonneg_critics this ->
  fails_iff_no_legal this pose velocity results.
Proof.
  intros Hnn. unfold fails_iff_no_legal. split.
  { apply (legal_count_zero this (candidates this pose velocity)
                            (startEvaluation results)); reflexivity. }
  unfold coreScoringAlgorithm.
  destruct (tracker_best_invariant this results (candidates this pose velocity) Hnn)
    as [_ [[H0 Hunset]|[Hlegal Hpos]]].
  - rewrite Hunset. simpl. split; [tauto|]. intro. lia.
  - apply dlt_false in Hpos. rewrite Hpos. simpl. split; [|reflexivity].
    split; [discriminate|]. intro. lia.
Qed.

Lemma no_legal_trajectories_iff_witness :
  fails_iff_no_legal cautiousPlanner Pose2D.default Twist2D.default None.
Proof.
  apply (no_legal_trajectories_iff cautiousPlanner Pose2D.default Twist2D.default None).
  exact cautiousPlanner_nonneg.
Defined.

(** C5 as stated fails: the only candidate is legal, with total -2, and the
    cycle throws. *)
Lemma legal_candidate_yet_failure :
  ~ fails_iff_no_legal reversingPlanner Pose2D.default Twist2D.default None.
Proof.
  intros (_ & _ & H).
  assert (Hlegal : (0 < IllegalTrajectoryTracker.legal_count
                         (tracker (evaluateAll reversingPlanner
                                     (candidates reversingPlanner Pose2D.default
                                                 Twist2D.default) None)))%nat)
    by (vm_compute; lia).
  specialize (H Hlegal). vm_compute in H. discriminate.
Qed.

(** ** The plan transformer *)

Lemma takeWhile_dropWhile {A : Type} (f : A -> bool) (l : list A) :
  takeWhile f l ++ dropWhile f l = l.
Proof.
  induction l as [|a l IH]; simpl; [reflexivity|].
  destruct (f a); simpl; [now rewrite IH|reflexivity].
Qed.

Lemma dropWhile_length {A : Type} (f : A -> bool) (l : list A) :
  (List.length (dropWhile f l) <= List.length l)%nat.
Proof.
  rewrite <- (takeWhile_dropWhile f l) at 2. rewrite length_app. lia.
Qed.

Lemma window_length (beyond : Pose2D.t -> bool) (plan : list Pose2D.t) :
  (List.length (spec_window beyond plan) <= List.length plan)%nat.
Proof.
  unfold spec_window.
  pose proof (dropWhile_length beyond plan) as H1.
  set (reached := dropWhile beyond plan) in *.
  pose proof (takeWhile_dropWhile (fun p => negb (beyond p)) reached) as H2.
  apply (f_equal (@List.length _)) in H2. rewrite length_app in H2.
  rewrite length_app, length_firstn.
  lia.
Qed.

(** The plan is the skipped poses, then the window, then the rest. *)
Lemma window_partition (beyond : Pose2D.t -> bool) (plan : list Pose2D.t) :
  plan = takeWhile beyond plan ++ spec_window beyond plan
         ++ skipn (List.length (takeWhile beyond plan)
                   + List.length (spec_window beyond plan)) plan.
Proof.
  rewrite app_assoc.
  rewrite <- length_app.
  assert (H : takeWhile beyond plan ++ spec_window beyond plan
              = firstn (List.length (takeWhile beyond plan ++ spec_window beyond plan)) plan).
  { unfold spec_window.
    pose proof (takeWhile_dropWhile beyond plan) as H1.
    set (reached := dropWhile beyond plan) in *.
    pose proof (takeWhile_dropWhile (fun p => negb (beyond p)) reached) as H2.
    set (inside := takeWhile (fun p => negb (beyond p)) reached) in *.
    set (after := dropWhile (fun p => negb (beyond p)) reached) in *.
    rewrite <- H1 at 3. rewrite <- H2.
    rewrite <- (firstn_skipn 1 after) at 3.
    rewrite !app_assoc.
    rewrite firstn_app, firstn_all. rewrite Nat.sub_diag. simpl. now rewrite app_nil_r. }
  rewrite H at 1. now rewrite firstn_skipn.
Qed.

Section Window.
Variable this : DWBLocalPlanner.t.
Variable robot : Pose2D.t.
Variable sq_dist_threshold : double.

Let beyond (p : Pose2D.t) : bool := dgt (getSquareDistance robot p) sq_dist_threshold.

Lemma windowLoop_started (plan : list Pose2D.t) :
  forall transformed,
    transformed <> [] ->
    windowLoop this robot sq_dist_threshold plan transformed
    = transformed
      ++ map (toLocal this)
             (takeWhile (fun p => negb (beyond p)) plan
              ++ firstn 1 (dropWhile (fun p => negb (beyond p)) plan)).
Proof.
  induction plan as [|p plan IH]; intros transformed Hne; simpl.
  - now rewrite app_nil_r.
  - fold (beyond p). destruct (beyond p); simpl.
    + destruct transformed; [congruence|reflexivity].
    + rewrite IH by (destruct transformed; discriminate).
      now rewrite <- app_assoc.
Qed.

Lemma windowLoop_window (plan : list Pose2D.t) :
  windowLoop this robot sq_dist_threshold plan []
  = map (toLocal this) (spec_window beyond plan).
Proof.
  induction plan as [|p plan IH]; simpl; [reflexivity|].
  fold (beyond p). unfold spec_window. simpl. destruct (beyond p) eqn:E; simpl.
  - exact IH.
  - rewrite E. simpl. rewrite windowLoop_started by discriminate. reflexivity.
Qed.

End Window.

Section Prune.
Variable costmap_pose : Pose2D.t.
Variable sq_prune_dist : double.

(** The lockstep prune drops the same number of leading poses from both
    plans, and stays within the stored plan when the transformed plan is
    not the longer one. *)
Lemma pruneLoop_skipn (transformed : list Pose2D.t) :
  forall global,
    (List.length transformed <= List.length global)%nat ->
    exists erased,
      (erased <= List.length transformed)%nat
      /\ pruneLoop costmap_pose sq_prune_dist transformed global
         = Some (skipn erased transformed, skipn erased global).
Proof.
  induction transformed as [|w transformed IH]; intros global Hlen; simpl.
  - exists 0%nat. split; [lia|reflexivity].
  - destruct (dlt _ sq_prune_dist).
    + exists 0%nat. split; [lia|reflexivity].
    + destruct global as [|g global]; [simpl in Hlen; lia|].
      destruct (IH global) as (erased & Hle & Heq); [simpl in Hlen; lia|].
      exists (S erased). split; [lia|exact Heq].
Qed.

(** When no transformed pose is within the prune distance, all of them go,
    and as many leading poses of the stored plan. *)
Lemma pruneLoop_all_far (transformed : list Pose2D.t) :
  forall global,
    (List.length transformed <= List.length global)%nat ->
    Forall (fun w => dlt (getSquareDistance costmap_pose w) sq_prune_dist = false)
           transformed ->
    pruneLoop costmap_pose sq_prune_dist transformed global
    = Some ([], skipn (List.length transformed) global).
Proof.
  induction transformed as [|w transformed IH]; intros global Hlen Hfar; simpl.
  - reflexivity.
  - inversion Hfar as [|? ? Hw Hrest]; subst. rewrite Hw.
    destruct global as [|g global]; [simpl in Hlen; lia|].
    apply IH; [simpl in Hlen; lia|exact Hrest].
Qed.

End Prune.

(** The window pass of [transformGlobalPlan] computes the window. *)
Lemma windowLoop_beyond_threshold (this : DWBLocalPlanner.t) (robot : Pose2D.t) :
  windowLoop this robot
             (dist_threshold (costmap_ this) * dist_threshold (costmap_ this))
             (Path2D.poses (global_plan_ this)) []
  = map (toLocal this)
        (spec_window (beyond_threshold (costmap_ this) robot)
                (Path2D.poses (global_plan_ this))).
Proof.
  apply windowLoop_window.
Qed.

(** [transformGlobalPlan] once the plan is non-empty and the robot pose is
    resolved in the frame of the plan: the assertion before the prune
    holds, and the rest is the prune and the final check on the window. *)
Lemma transformGlobalPlan_windowed (this : DWBLocalPlanner.t)
      (pose robot_pose : Pose2DStamped.t) :
  Path2D.poses (global_plan_ this) <> [] ->
  TFListener.transformPose (tf_ this)
    (Header.frame_id (Path2D.header (global_plan_ this))) pose = Some robot_pose ->
  let windowed :=
    map (toLocal this)
        (spec_window (beyond_threshold (costmap_ this) (Pose2DStamped.pose robot_pose))
                (Path2D.poses (global_plan_ this))) in
  transformGlobalPlan this pose
  = if prune_plan_ this
    then
      match TFListener.transformPose (tf_ this) (Costmap.getFrameId (costmap_ this)) pose
      with
      | None =>
          (this, Throw (PlannerTFException
                          "Unable to transform robot pose into costmap's frame"))
      | Some costmap_pose =>
          match pruneLoop (Pose2DStamped.pose costmap_pose)
                          (prune_distance_ this * prune_distance_ this)
                          windowed (Path2D.poses (global_plan_ this)) with
          | None => (this, Undefined)
          | Some (transformed, global) =>
              let pruned := set_global_plan_ this
                              (Path2D.mk (Path2D.header (global_plan_ this)) global) in
              finishTransform (emit pruned [Publish_GlobalPlan (global_plan_ pruned)])
                              (Path2D.mk (local_header this pose) transformed)
          end
      end
    else finishTransform this (Path2D.mk (local_header this pose) windowed).
Proof.
  intros Hne Htf windowed. unfold transformGlobalPlan.
  assert (Hlen0 : (List.length (Path2D.poses (global_plan_ this)) =? 0)%nat = false)
    by (destruct (Path2D.poses (global_plan_ this)); [congruence|reflexivity]).
  rewrite Hlen0, Htf. cbn [Header.frame_id].
  rewrite windowLoop_beyond_threshold. fold windowed.
  destruct (prune_plan_ this); [|reflexivity].
  destruct (TFListener.transformPose (tf_ this) (Costmap.getFrameId (costmap_ this)) pose)
    as [costmap_pose|]; [|reflexivity].
  assert (Hlen : (List.length windowed <= List.length (Path2D.poses (global_plan_ this)))%nat).
  { unfold windowed. rewrite length_map. apply window_length. }
  apply Nat.ltb_ge in Hlen. rewrite Hlen. reflexivity.
Qed.

(** C6: for a non-empty stored plan and a robot pose resolved in the frame
    of the plan, with threshold [max(width, height) * resolution / 2] and
    squared distances to that robot pose, the window pass yields, in the
    frame of the costmap: no leading pose beyond the threshold, then the
    poses within it, then the first pose beyond it that follows them.
    Without pruning this is the plan [transformGlobalPlan] returns (it
    throws when the window is empty). *)
Theorem transformGlobalPlan_window (this : DWBLocalPlanner.t)
        (pose robot_pose : Pose2DStamped.t) :
  Path2D.poses (global_plan_ this) <> [] ->
  TFListener.transformPose (tf_ this)
    (Header.frame_id (Path2D.header (global_plan_ this))) pose = Some robot_pose ->
  let threshold :=
    inject_Z (Z.of_N (N.max (Costmap.getWidth (costmap_ this))
                            (Costmap.getHeight (costmap_ this))))
    * Costmap.getResolution (costmap_ this) / 2 in
  let beyond p :=
    dgt (getSquareDistance (Pose2DStamped.pose robot_pose) p) (threshold * threshold) in
  let windowed := map (toLocal this) (spec_window beyond (Path2D.poses (global_plan_ this))) in
  windowLoop this (Pose2DStamped.pose robot_pose)
             (dist_threshold (costmap_ this) * dist_threshold (costmap_ this))
             (Path2D.poses (global_plan_ this)) []
  = windowed
  /\ (prune_plan_ this = false ->
      transformGlobalPlan this pose
      = (this, match windowed with
               | [] => Throw zero_poses_error
               | _ :: _ => Return (Path2D.mk (local_header this pose) windowed)
               end)).
Proof.
  intros Hne Htf threshold beyond windowed. split.
  - apply windowLoop_beyond_threshold.
  - intro Hprune.
    rewrite (transformGlobalPlan_windowed this pose robot_pose Hne Htf), Hprune.
    fold threshold. change (beyond_threshold (costmap_ this) (Pose2DStamped.pose robot_pose))
      with beyond. fold windowed.
    unfold finishTransform. cbn [Path2D.poses].
    destruct windowed; reflexivity.
Qed.

(** C7: in every call of [transformGlobalPlan] the window pass yields at
    most as many poses as the stored plan has, so the assertion before the
    prune holds and the lockstep prune erases within the stored plan: the
    call neither fails the assertion nor erases past the end, and the
    stored plan it leaves is the old one without some [erased] leading
    poses, [erased] being at most the number of poses it had. *)
Theorem prune_in_bounds (this : DWBLocalPlanner.t) (pose : Pose2DStamped.t) :
  (forall robot sq_dist_threshold,
      (List.length (windowLoop this robot sq_dist_threshold
                               (Path2D.poses (global_plan_ this)) [])
       <= List.length (Path2D.poses (global_plan_ this)))%nat)
  /\ snd (transformGlobalPlan this pose) <> AssertionFailed
  /\ snd (transformGlobalPlan this pose) <> Undefined
  /\ exists erased,
      (erased <= List.length (Path2D.poses (global_plan_ this)))%nat
      /\ Path2D.poses (global_plan_ (fst (transformGlobalPlan this pose)))
         = skipn erased (Path2D.poses (global_plan_ this)).
Proof.
  split.
  { intros robot thr. rewrite windowLoop_window, length_map. apply window_length. }
  assert (Hkeep : forall o : Outcome Path2D.t,
             o <> AssertionFailed -> o <> Undefined ->
             transformGlobalPlan this pose = (this, o) ->
             snd (transformGlobalPlan this pose) <> AssertionFailed
             /\ snd (transformGlobalPlan this pose) <> Undefined
             /\ exists erased,
                 (erased <= List.length (Path2D.poses (global_plan_ this)))%nat
                 /\ Path2D.poses (global_plan_ (fst (transformGlobalPlan this pose)))
                    = skipn erased (Path2D.poses (global_plan_ this))).
  { intros o H1 H2 ->. simpl. repeat split; auto. exists 0%nat. split; [lia|reflexivity]. }
  assert (Hcase : Path2D.poses (global_plan_ this) = []
                  \/ Path2D.poses (global_plan_ this) <> [])
    by (destruct (Path2D.poses (global_plan_ this)); [now left|right; discriminate]).
  destruct Hcase as [Hposes|Hne].
  { apply (Hkeep (Throw (PlannerException "Received plan with zero length")));
      try discriminate. unfold transformGlobalPlan. now rewrite Hposes. }
  destruct (TFListener.transformPose (tf_ this)
              (Header.frame_id (Path2D.header (global_plan_ this))) pose)
    as [robot_pose|] eqn:Htf.
  2:{ apply (Hkeep (Throw (PlannerTFException
                             "Unable to transform robot pose into global plan's frame")));
        try discriminate. unfold transformGlobalPlan. rewrite Htf.
      destruct (Path2D.poses (global_plan_ this)); [congruence|reflexivity]. }
  pose proof (transformGlobalPlan_windowed this pose robot_pose Hne Htf) as Hrun.
  cbv zeta in Hrun.
  set (windowed := map (toLocal this) _) in Hrun.
  assert (Hfinish : forall that plan,
             snd (finishTransform that plan) <> AssertionFailed
             /\ snd (finishTransform that plan) <> Undefined
             /\ fst (finishTransform that plan) = that).
  { intros that plan. unfold finishTransform.
    destruct (_ =? 0)%nat; simpl; repeat split; discriminate. }
  destruct (prune_plan_ this).
  - destruct (TFListener.transformPose (tf_ this) (Costmap.getFrameId (costmap_ this)) pose)
      as [costmap_pose|].
    + destruct (pruneLoop_skipn (Pose2DStamped.pose costmap_pose)
                  (prune_distance_ this * prune_distance_ this) windowed
                  (Path2D.poses (global_plan_ this))) as (erased & Hle & Heq).
      { unfold windowed. rewrite length_map. apply window_length. }
      rewrite Heq in Hrun. rewrite Hrun.
      match goal with |- context [finishTransform ?a ?b] =>
        destruct (Hfinish a b) as (F1 & F2 & F3) end.
      split; [exact F1|]. split; [exact F2|].
      exists erased. split.
      * assert (List.length windowed <= List.length (Path2D.poses (global_plan_ this)))%nat
          by (unfold windowed; rewrite length_map; apply window_length).
        lia.
      * rewrite F3. reflexivity.
    + eapply Hkeep; [| |exact Hrun]; discriminate.
  - rewrite Hrun.
    destruct (Hfinish this (Path2D.mk (local_header this pose) windowed)) as (F1 & F2 & F3).
    split; [exact F1|]. split; [exact F2|].
    exists 0%nat. split; [lia|]. rewrite F3. reflexivity.
Qed.

Lemma transformGlobalPlan_window_witness :
  transformGlobalPlan windowPlanner origin_pose
  = (windowPlanner,
     Return (Path2D.mk (Header.mk "odom" 9%N)
                       [Pose2D.mk 3 0 0; Pose2D.mk 4 0 0; Pose2D.mk 7 0 0])).
Proof.
  apply (transformGlobalPlan_window windowPlanner origin_pose origin_pose).
  - simpl. discriminate.
  - reflexivity.
  - reflexivity.
Defined.

(** C10 as stated fails: the window skips (10,0,0) and holds (3,0,0), the
    prune erases the front pose of the stored plan, which is (10,0,0), and
    (3,0,0) stays in the stored plan. *)
Lemma windowed_pose_survives :
  ~ windowed_poses_erased farStartPlanner origin_pose.
Proof.
  intro H.
  destruct (H origin_pose origin_pose) as (this' & Hrun & Hposes).
  - reflexivity.
  - simpl. discriminate.
  - reflexivity.
  - reflexivity.
  - repeat constructor.
  - vm_compute in Hrun. injection Hrun as <-.
    vm_compute in Hposes. discriminate.
Qed.

(** C10, as the code has it: with pruning on and both robot poses
    resolved, a call that throws the empty-result error leaves the stored
    plan without as many leading poses as the window held, and this is what
    happens when every windowed pose is at least the prune distance away
    from the robot; the erased poses are the windowed ones when the window
    skipped no leading pose. *)
Theorem prune_survives_failure (this : DWBLocalPlanner.t)
        (pose robot_pose costmap_pose : Pose2DStamped.t) :
  prune_plan_ this = true ->
  Path2D.poses (global_plan_ this) <> [] ->
  TFListener.transformPose (tf_ this)
    (Header.frame_id (Path2D.header (global_plan_ this))) pose = Some robot_pose ->
  TFListener.transformPose (tf_ this) (Costmap.getFrameId (costmap_ this)) pose
  = Some costmap_pose ->
  let beyond := beyond_threshold (costmap_ this) (Pose2DStamped.pose robot_pose) in
  let plan := Path2D.poses (global_plan_ this) in
  let leading := takeWhile beyond plan in
  let windowed := spec_window beyond plan in
  let trailing := skipn (List.length leading + List.length windowed) plan in
  (forall this',
      transformGlobalPlan this pose = (this', Throw zero_poses_error) ->
      Path2D.poses (global_plan_ this') = skipn (List.length windowed) plan)
  /\ (Forall (fun w => dlt (getSquareDistance (Pose2DStamped.pose costmap_pose) w)
                           (prune_distance_ this * prune_distance_ this) = false)
             (map (toLocal this) windowed) ->
      exists this',
        transformGlobalPlan this pose = (this', Throw zero_poses_error)
        /\ Path2D.poses (global_plan_ this') = skipn (List.length windowed) plan
        /\ (leading = [] -> Path2D.poses (global_plan_ this') = trailing)).
Proof.
  intros Hprune Hne Htf Htf' beyond plan leading windowed trailing.
  pose proof (transformGlobalPlan_windowed this pose robot_pose Hne Htf) as Hrun.
  cbv zeta in Hrun. rewrite Hprune, Htf' in Hrun.
  fold beyond plan windowed in Hrun.
  assert (Hlen : (List.length (map (toLocal this) windowed) <= List.length plan)%nat)
    by (rewrite length_map; apply window_length).
  split.
  - intros this' Hthrow. rewrite Hrun in Hthrow.
    destruct (pruneLoop_skipn (Pose2DStamped.pose costmap_pose)
                (prune_distance_ this * prune_distance_ this) _ _ Hlen)
      as (erased & Hle & Heq).
    rewrite Heq in Hthrow. unfold finishTransform in Hthrow. cbn [Path2D.poses] in Hthrow.
    destruct (_ =? 0)%nat eqn:Hempty; [|discriminate].
    injection Hthrow as <-. cbn.
    apply Nat.eqb_eq in Hempty. rewrite length_skipn in Hempty.
    rewrite length_map in Hle, Hempty.
    replace erased with (List.length windowed) by lia. reflexivity.
  - intro Hfar.
    rewrite (pruneLoop_all_far _ _ _ _ Hlen Hfar) in Hrun.
    eexists. split; [exact Hrun|]. cbn. rewrite length_map.
    split; [reflexivity|].
    intro Hlead. unfold trailing. rewrite Hlead. reflexivity.
Qed.

Lemma prune_survives_failure_witness :
  exists this',
    transformGlobalPlan farStartPlanner origin_pose = (this', Throw zero_poses_error)
    /\ Path2D.poses (global_plan_ this') = [Pose2D.mk 3 0 0].
Proof.
  destruct (prune_survives_failure farStartPlanner origin_pose origin_pose origin_pose)
    as [_ H].
  - reflexivity.
  - simpl. discriminate.
  - reflexivity.
  - reflexivity.
  - destruct H as (this' & Hrun & Hposes & _).
    + repeat constructor.
    + exists this'. split; [exact Hrun|exact Hposes].
Defined.

(** ** Reachable states *)

(** [transformGlobalPlan] leaves the queue alone. *)
Lemma transformGlobalPlan_queue (this : DWBLocalPlanner.t) (pose : Pose2DStamped.t) :
  global_plan_segments_ (fst (transformGlobalPlan this pose))
  = global_plan_segments_ this.
Proof.
  unfold transformGlobalPlan, finishTransform.
  destruct (_ =? 0)%nat; [reflexivity|].
  destruct (TFListener.transformPose _ _ pose); [|reflexivity].
  destruct (prune_plan_ this).
  - cbn [Header.frame_id].
    destruct (TFListener.transformPose _ _ pose); [|reflexivity].
    destruct (_ <? _)%nat; [reflexivity|].
    destruct (pruneLoop _ _ _ _) as [[transformed global]|]; [|reflexivity].
    cbn [Path2D.poses]. destruct (_ =? 0)%nat; reflexivity.
  - cbn [Path2D.poses]. destruct (_ =? 0)%nat; reflexivity.
Qed.

(** In every reachable state each queued segment has a last pose. *)
Lemma reachable_queue_ok (cos sin : double -> double) (this : DWBLocalPlanner.t) :
  reachable cos sin this -> queue_ok this.
Proof.
  induction 1 as [this Hq|this g _ IH|this path this' _ _ Hrun
                  |this pose v this' r _ IH Hrun|this pose this' r _ IH Hrun].
  - unfold queue_ok. rewrite Hq. constructor.
  - exact IH.
  - exact (setPlan_queue_ok cos sin this this' path Hrun).
  - exact (isGoalReached_queue_ok this this' pose v r IH Hrun).
  - unfold queue_ok.
    replace this' with (fst (transformGlobalPlan this pose)) by now rewrite Hrun.
    rewrite transformGlobalPlan_queue. exact IH.
Qed.

(** ** Scenarios *)

(** A single critic that rejects every candidate: the cycle throws, and the
    tracker attributes both candidates to that critic. *)
Example all_candidates_rejected :
  snd (coreScoringAlgorithm
         (examplePlanner false false true [rejecting_critic "Obstacle" 1]
                         [Twist2D.mk 1 0 0; Twist2D.mk 2 0 0])
         Pose2D.default Twist2D.default None)
  = Throw (NoLegalTrajectoriesException
             (IllegalTrajectoryTracker.mk 2 2 [(("Obstacle"%string, "rejected"%string), 2%nat)])).
Proof. reflexivity. Qed.

(** No critic with a non-zero scale: every candidate has total 0 and the
    first one is selected. *)
Example all_critics_disabled :
  selected (snd (coreScoringAlgorithm
                   (examplePlanner false false true [velocity_critic "Speed" 0]
                                   [Twist2D.mk 1 0 0; Twist2D.mk 2 0 0])
                   Pose2D.default Twist2D.default None))
  = Some (TrajectoryScore.mk (Trajectory2D.mk (Twist2D.mk 1 0 0) [] [])
                             [CriticScore.mk "Speed" 0 0] 0).
Proof. reflexivity. Qed.

(** With short-circuit the second candidate of the cautious planner stops
    after its first critic, at total 8; the full chain gives it 10. *)
Example short_circuit_stops_early :
  map (fun s => Qred (TrajectoryScore.total s))
      (match fst (coreScoringAlgorithm cautiousPlanner Pose2D.default Twist2D.default
                                       (Some LocalPlanEvaluation.default)) with
       | Some r => LocalPlanEvaluation.twists r
       | None => []
       end)
  = [5 # 2; 8; 5 # 2]
  /\ map (fun s => Qred (TrajectoryScore.total s))
         (match fst (coreScoringAlgorithm (set_short_circuit cautiousPlanner false)
                                          Pose2D.default Twist2D.default
                                          (Some LocalPlanEvaluation.default)) with
          | Some r => LocalPlanEvaluation.twists r
          | None => []
          end)
     = [5 # 2; 10; 5 # 2].
Proof. split; vm_compute; reflexivity. Qed.


(** * Further coverage *)

(** ** Critic class names ([resolveCriticClassName]) *)

(** [s.find(pat)]; [None] is [std::string::npos]. *)
Definition find (s pat : string) : option nat := String.index 0 pat s.

(** The [for] over [default_critic_namespaces_]: the first full name that
    the class loader knows, if any. *)
Fixpoint firstAvailable (isClassAvailable : string -> bool)
         (namespaces : list string) (base_name : string) : option string :=
  match namespaces with
  | [] => None
  | ns :: namespaces' =>
      let full_name := (ns ++ "::" ++ base_name)%string in
      if isClassAvailable full_name
      then Some full_name
      else firstAvailable isClassAvailable namespaces' base_name
  end.

(** The first [if]: a name without "Critic" gets it as suffix. *)
Definition withCriticSuffix (base_name : string) : string :=
  match find base_name "Critic" with
  | None => (base_name ++ "Critic")%string
  | Some _ => base_name
  end.

(** [isClassAvailable] is the query on [critic_loader_], [namespaces] the
    member [default_critic_namespaces_]. *)
Definition resolveCriticClassName (isClassAvailable : string -> bool)
           (namespaces : list string) (base_name : string) : string :=
  let base_name := withCriticSuffix base_name in
  match find base_name "::" with
  | None =>
      match firstAvailable isClassAvailable namespaces base_name with
      | Some full_name => full_name
      | None => base_name
      end
  | Some _ => base_name
  end.

Lemma substring_skip (a s : string) (m : nat) :
  substring (String.length a) m (a ++ s) = substring 0 m s.
Proof.
  induction a as [|c a IH]; simpl; [reflexivity|exact IH].
Qed.

Lemma substring_shift (a s : string) (n m : nat) :
  substring (String.length a + n) m (a ++ s) = substring n m s.
Proof.
  induction a as [|c a IH]; simpl; [reflexivity|exact IH].
Qed.

Lemma substring_prefix (p s : string) :
  substring 0 (String.length p) (p ++ s) = p.
Proof.
  induction p as [|c p IH]; simpl.
  - destruct s; reflexivity.
  - now rewrite IH.
Qed.

(** A string that ends a longer one is found in it. *)
Lemma find_suffix (a pat : string) :
  pat <> EmptyString -> find (a ++ pat) pat <> None.
Proof.
  intros Hpat Hnone. unfold find in Hnone.
  apply (index_correct3 0 (String.length a) pat (a ++ pat) Hnone Hpat (Nat.le_0_l _)).
  rewrite <- (Nat.add_0_r (String.length a)), substring_shift.
  clear. induction pat as [|c p IH]; simpl; [reflexivity|now rewrite IH].
Qed.

(** What is found in a string is found after any prefix is put before it. *)
Lemma find_after_prefix (a s pat : string) :
  pat <> EmptyString -> find s pat <> None -> find (a ++ s) pat <> None.
Proof.
  intros Hpat Hs Hnone. unfold find in *.
  destruct (index 0 pat s) as [m|] eqn:E; [|congruence].
  apply index_correct1 in E.
  apply (index_correct3 0 (String.length a + m) pat (a ++ s) Hnone Hpat (Nat.le_0_l _)).
  now rewrite substring_shift.
Qed.

(** A string is found in what starts with it. *)
Lemma find_prefix (pat s : string) :
  pat <> EmptyString -> find (pat ++ s) pat <> None.
Proof.
  intros Hpat Hnone. unfold find in Hnone.
  apply (index_correct3 0 0 pat (pat ++ s) Hnone Hpat (Nat.le_0_l _)).
  apply substring_prefix.
Qed.

Lemma withCriticSuffix_has_Critic (base_name : string) :
  find (withCriticSuffix base_name) "Critic" <> None.
Proof.
  unfold withCriticSuffix.
  destruct (find base_name "Critic") eqn:E.
  - rewrite E. discriminate.
  - apply find_suffix. discriminate.
Qed.

(** What the search over the namespaces returns. *)
Lemma firstAvailable_spec (isClassAvailable : string -> bool)
      (namespaces : list string) (base_name : string) :
  match firstAvailable isClassAvailable namespaces base_name with
  | Some full_name =>
      exists before ns after,
        namespaces = before ++ ns :: after
        /\ Forall (fun n => isClassAvailable (n ++ "::" ++ base_name)%string = false) before
        /\ full_name = (ns ++ "::" ++ base_name)%string
        /\ isClassAvailable full_name = true
  | None =>
      Forall (fun n => isClassAvailable (n ++ "::" ++ base_name)%string = false) namespaces
  end.
Proof.
  induction namespaces as [|ns namespaces IH]; cbn [firstAvailable]; [constructor|].
  destruct (isClassAvailable (ns ++ "::" ++ base_name)%string) eqn:E.
  - exists [], ns, namespaces. repeat split; auto.
  - destruct (firstAvailable isClassAvailable namespaces base_name).
    + destruct IH as (before & ns' & after & -> & Hbefore & -> & Hav).
      exists (ns :: before), ns', after. repeat split; auto.
    + constructor; assumption.
Qed.

(** X1: the class name that [resolveCriticClassName] returns always
    contains "Critic". *)
Theorem resolveCriticClassName_has_Critic (isClassAvailable : string -> bool)
        (namespaces : list string) (base_name : string) :
  find (resolveCriticClassName isClassAvailable namespaces base_name) "Critic" <> None.
Proof.
  unfold resolveCriticClassName.
  pose proof (withCriticSuffix_has_Critic base_name) as Hc.
  destruct (find (withCriticSuffix base_name) "::"); [exact Hc|].
  pose proof (firstAvailable_spec isClassAvailable namespaces (withCriticSuffix base_name))
    as Hf.
  destruct (firstAvailable _ _ _); [|exact Hc].
  destruct Hf as (before & ns & after & _ & _ & -> & _).
  apply find_after_prefix; [discriminate|].
  apply (find_after_prefix "::"); [discriminate|exact Hc].
Qed.

Lemma withCriticSuffix_fixed (name : string) :
  find name "Critic" <> None -> withCriticSuffix name = name.
Proof.
  unfold withCriticSuffix. destruct (find name "Critic"); congruence.
Qed.

(** X2: [resolveCriticClassName] is the identity on its own results:
    resolving a resolved name gives the same name. *)
Theorem resolveCriticClassName_idempotent (isClassAvailable : string -> bool)
        (namespaces : list string) (base_name : string) :
  resolveCriticClassName isClassAvailable namespaces
    (resolveCriticClassName isClassAvailable namespaces base_name)
  = resolveCriticClassName isClassAvailable namespaces base_name.
Proof.
  pose proof (withCriticSuffix_has_Critic base_name) as Hc.
  unfold resolveCriticClassName at 2 3.
  destruct (find (withCriticSuffix base_name) "::") as [m|] eqn:Hq.
  - unfold resolveCriticClassName.
    rewrite (withCriticSuffix_fixed _ Hc), Hq. reflexivity.
  - pose proof (firstAvailable_spec isClassAvailable namespaces
                                    (withCriticSuffix base_name)) as Hf.
    destruct (firstAvailable _ _ _) as [full_name|] eqn:Hfirst.
    + destruct Hf as (before & ns & after & _ & _ & -> & _).
      assert (Hc' : find (ns ++ "::" ++ withCriticSuffix base_name) "Critic" <> None).
      { apply find_after_prefix; [discriminate|].
        apply (find_after_prefix "::"); [discriminate|exact Hc]. }
      assert (Hq' : find (ns ++ "::" ++ withCriticSuffix base_name) "::" <> None).
      { apply find_after_prefix; [discriminate|]. apply find_prefix. discriminate. }
      unfold resolveCriticClassName.
      rewrite (withCriticSuffix_fixed _ Hc').
      destruct (find (ns ++ "::" ++ withCriticSuffix base_name) "::") eqn:Hfound;
        [reflexivity|contradiction].
    + unfold resolveCriticClassName.
      rewrite (withCriticSuffix_fixed _ Hc), Hq, Hfirst. reflexivity.
Qed.


(** The loader of a node that has the critics of [dwb_critics]. *)
Definition dwb_critics_loader (class : string) : bool :=
  String.eqb class "dwb_critics::GoalDistCritic"
  || String.eqb class "dwb_critics::ObstacleFootprintCritic".

Example resolve_short_name :
  resolveCriticClassName dwb_critics_loader ["my_critics"; "dwb_critics"]%string "GoalDist"
  = "dwb_critics::GoalDistCritic"%string.
Proof. reflexivity. Qed.

Example resolve_unknown_name :
  resolveCriticClassName dwb_critics_loader ["my_critics"; "dwb_critics"]%string "Spin"
  = "SpinCritic"%string.
Proof. reflexivity. Qed.

Example resolve_qualified_name :
  resolveCriticClassName dwb_critics_loader ["dwb_critics"]%string "other::GoalDist"
  = "other::GoalDistCritic"%string.
Proof. reflexivity. Qed.

(** ** Segments and their motion classes ([setPlan]) *)

(** The pair [(backwards, onlyRotation)] of the step from [from] to [to]. *)
Definition motionClass (cos sin : double -> double) (from to : Pose2D.t)
  : bool * bool :=
  let d := headingDot cos sin from to in
  (dlt d 0, dlt (d * d) 1e-10).

(** The steps of a path: each pose with the next one. *)
Fixpoint steps (poses : list Pose2D.t) : list (Pose2D.t * Pose2D.t) :=
  match poses with
  | a :: ((b :: _) as rest) => (a, b) :: steps rest
  | _ => []
  end.

(** Every step of [poses] has the motion class [class]. *)
Definition uniform (cos sin : double -> double) (class : bool * bool)
           (poses : list Pose2D.t) : Prop :=
  Forall (fun step => motionClass cos sin (fst step) (snd step) = class) (steps poses).

(** The motion class of the first step of a segment. *)
Definition firstClass (cos sin : double -> double) (segment : Path2D.t)
  : option (bool * bool) :=
  option_map (fun step => motionClass cos sin (fst step) (snd step))
             (hd_error (steps (Path2D.poses segment))).

(** Neighbouring segments start with steps of different motion classes. *)
Fixpoint alternating (cos sin : double -> double) (segments : list Path2D.t) : Prop :=
  match segments with
  | s :: ((s' :: _) as rest) =>
      firstClass cos sin s <> firstClass cos sin s' /\ alternating cos sin rest
  | _ => True
  end.

(** A segment of at least two poses, under [header], all steps in the
    class of its first step. *)
Definition homogeneous (cos sin : double -> double) (header : Header.t)
           (segment : Path2D.t) : Prop :=
  Path2D.header segment = header
  /\ (2 <= List.length (Path2D.poses segment))%nat
  /\ exists class,
      firstClass cos sin segment = Some class
      /\ uniform cos sin class (Path2D.poses segment).

Lemma steps_snoc (l : list Pose2D.t) (x d : Pose2D.t) :
  l <> [] -> steps (l ++ [x]) = steps l ++ [(last l d, x)].
Proof.
  induction l as [|a l IH]; intro Hne; [congruence|].
  destruct l as [|b l]; [reflexivity|].
  change (steps ((a :: b :: l) ++ [x])) with ((a, b) :: steps ((b :: l) ++ [x])).
  rewrite IH by discriminate. reflexivity.
Qed.

Lemma steps_hd_app (a b : Pose2D.t) (l more : list Pose2D.t) :
  hd_error (steps ((a :: b :: l) ++ more)) = Some (a, b).
Proof. reflexivity. Qed.

Section SegmentClasses.
Variables cos sin : double -> double.

Lemma same_class_test (b rot backwards onlyRotation : bool) :
  (Bool.eqb b backwards && Bool.eqb rot onlyRotation)%bool = true
  <-> (b, rot) = (backwards, onlyRotation).
Proof.
  rewrite andb_true_iff, !Bool.eqb_true_iff. split.
  - intros [-> ->]. reflexivity.
  - intro H. now inversion H.
Qed.

(** The inner loop only adds steps of the class it was given, and stops
    before a step of another class. *)
Lemma extendSegment_class (backwards onlyRotation : bool) (copy : list Pose2D.t) :
  forall segment segment' copy',
    segment <> [] ->
    uniform cos sin (backwards, onlyRotation) segment ->
    extendSegment cos sin backwards onlyRotation segment copy = (segment', copy') ->
    uniform cos sin (backwards, onlyRotation) segment'
    /\ (exists added, segment' = segment ++ added)
    /\ (copy' = []
        \/ exists next rest,
            copy' = last segment' Pose2D.default :: next :: rest
            /\ motionClass cos sin (last segment' Pose2D.default) next
               <> (backwards, onlyRotation)).
Proof.
  induction copy as [|next copy IH]; intros segment segment' copy' Hne Huni H;
    cbn [extendSegment] in H.
  - injection H as <- <-. split; [exact Huni|]. split; [|now left].
    exists []. now rewrite app_nil_r.
  - destruct (_ && _)%bool eqn:Htest.
    + apply same_class_test in Htest.
      apply IH in H.
      * destruct H as (Huni' & (added & ->) & Hcut).
        split; [exact Huni'|]. split; [|exact Hcut].
        exists (next :: added). now rewrite <- app_assoc.
      * destruct segment; discriminate.
      * unfold uniform. rewrite (steps_snoc segment next Pose2D.default Hne).
        apply Forall_app. split; [exact Huni|].
        constructor; [exact Htest|constructor].
    + injection H as <- <-. split; [exact Huni|]. split.
      * exists []. now rewrite app_nil_r.
      * right. exists next, copy. split; [reflexivity|].
        intro Hsame. apply same_class_test in Hsame.
        unfold motionClass in Hsame. congruence.
Qed.

(** What the outer loop produces, by motion class. *)
Lemma splitLoop_classes (h : Header.t) (fuel : nat) :
  forall copy new,
    splitLoop cos sin fuel h copy [] = Some new ->
    Forall (homogeneous cos sin h) new
    /\ alternating cos sin new
    /\ (forall s rest, new = s :: rest ->
                       hd_error (steps (Path2D.poses s)) = hd_error (steps copy)).
Proof.
  induction fuel as [|fuel IH]; intros copy new H.
  - destruct copy as [|f [|s c]]; simpl in H; try discriminate;
      injection H as <-; repeat split; try constructor; discriminate.
  - destruct copy as [|f [|s c]]; simpl in H;
      try (injection H as <-; repeat split; try constructor; discriminate).
    destruct (extendSegment _ _ _ _ _ _) as [seg c'] eqn:E.
    rewrite splitLoop_app in H.
    destruct (splitLoop cos sin fuel h c' []) as [new'|] eqn:Hnew'; [|discriminate].
    simpl in H. injection H as <-.
    apply extendSegment_class in E; [|discriminate|].
    2:{ unfold uniform. simpl. constructor; [reflexivity|constructor]. }
    destruct E as (Huni & (added & ->) & Hcut).
    destruct (IH c' new' Hnew') as (Hall & Halt & Hfirst).
    assert (Hhom : homogeneous cos sin h (Path2D.mk h ([f; s] ++ added))).
    { split; [reflexivity|]. split; [simpl; lia|].
      exists (motionClass cos sin f s). split; [reflexivity|exact Huni]. }
    split; [constructor; assumption|]. split.
    + cbn [alternating].
      destruct new' as [|s1 more]; [exact I|]. split; [|exact Halt].
      destruct Hcut as [->|(next & rest & -> & Hdiff)].
      * destruct fuel; simpl in Hnew'; discriminate.
      * specialize (Hfirst s1 more eq_refl).
        unfold firstClass. rewrite Hfirst.
        remember (last ([f; s] ++ added) Pose2D.default) as cut.
        simpl. intro Heq. injection Heq as Heq1 Heq2.
        apply Hdiff. unfold motionClass. congruence.
    + intros s0 rest0 Heq. injection Heq as <- _. reflexivity.
Qed.

End SegmentClasses.

(** X4: with [split_path] enabled and at least two poses, every segment
    that [setPlan] leaves (active plan and queue) carries the header of the
    path, has at least two poses, and all its steps have the motion class
    (backwards, onlyRotation) of its first step. *)
Theorem setPlan_segments_homogeneous (cos sin : double -> double)
        (this : DWBLocalPlanner.t) (path : Path2D.t) :
  split_path this = true ->
  (2 <= List.length (Path2D.poses path))%nat ->
  exists this',
    setPlan cos sin this path = (this', Return tt)
    /\ Forall (homogeneous cos sin (Path2D.header path)) (segmentsOf this').
Proof.
  intros Hsplit Hlen.
  destruct (setPlan_split cos sin this path Hsplit Hlen)
    as (this' & new & Hrun & Hnew & _ & Hseg).
  exists this'. split; [exact Hrun|]. rewrite Hseg.
  apply (splitLoop_classes cos sin _ _ _ _ Hnew).
Qed.

(** X5: the segments are maximal: the first step of each segment after the
    first (from the cut pose on) has a motion class different from that of
    the segment before it. *)
Theorem setPlan_segments_alternate (cos sin : double -> double)
        (this : DWBLocalPlanner.t) (path : Path2D.t) :
  split_path this = true ->
  (2 <= List.length (Path2D.poses path))%nat ->
  exists this',
    setPlan cos sin this path = (this', Return tt)
    /\ alternating cos sin (segmentsOf this').
Proof.
  intros Hsplit Hlen.
  destruct (setPlan_split cos sin this path Hsplit Hlen)
    as (this' & new & Hrun & Hnew & _ & Hseg).
  exists this'. split; [exact Hrun|]. rewrite Hseg.
  apply (splitLoop_classes cos sin _ _ _ _ Hnew).
Qed.

Lemma setPlan_segments_homogeneous_witness :
  exists this',
    setPlan cos_taylor sin_taylor (examplePlanner true true true [] []) scenario_path
    = (this', Return tt)
    /\ Forall (homogeneous cos_taylor sin_taylor map_header) (segmentsOf this').
Proof.
  apply (setPlan_segments_homogeneous cos_taylor sin_taylor
           (examplePlanner true true true [] []) scenario_path).
  - reflexivity.
  - simpl. lia.
Defined.

Lemma setPlan_segments_alternate_witness :
  exists this',
    setPlan cos_taylor sin_taylor (examplePlanner true true true [] []) scenario_path
    = (this', Return tt)
    /\ alternating cos_taylor sin_taylor (segmentsOf this').
Proof.
  apply (setPlan_segments_alternate cos_taylor sin_taylor
           (examplePlanner true true true [] []) scenario_path).
  - reflexivity.
  - simpl. lia.
Defined.

(** ** [setPlan]: when it returns and what it leaves *)

(** X6: [setPlan] returns exactly when the path is long enough: two poses
    with [split_path] enabled, one pose without; on a shorter path it runs
    into undefined behaviour (the first element of an empty vector of
    segments, the last pose of an empty plan). *)
Theorem setPlan_returns_iff (cos sin : double -> double)
        (this : DWBLocalPlanner.t) (path : Path2D.t) :
  snd (setPlan cos sin this path)
  = if (if split_path this
        then (2 <=? List.length (Path2D.poses path))%nat
        else (1 <=? List.length (Path2D.poses path))%nat)
    then Return tt
    else Undefined.
Proof.
  destruct (split_path this) eqn:Hsplit.
  - destruct (2 <=? List.length (Path2D.poses path))%nat eqn:Hlen.
    + apply Nat.leb_le in Hlen.
      destruct (setPlan_split cos sin this path Hsplit Hlen) as (this' & new & -> & _).
      reflexivity.
    + apply Nat.leb_gt in Hlen. unfold setPlan. simpl. rewrite Hsplit.
      destruct (Path2D.poses path) as [|p [|q l]]; simpl in *; try reflexivity; lia.
  - unfold setPlan. simpl. rewrite Hsplit. simpl.
    destruct (Path2D.poses path) as [|p l]; reflexivity.
Qed.

(** X7: what a [setPlan] that returns leaves behind.  The segments (active
    plan, then queue) are those of the path alone, whatever plan and queue
    there were before: the path itself without [split_path], the result of
    the splitting loop with it.  The final goal pose is not touched, the
    intermediate goal is the last pose of the active plan under the header
    of the path, and the calls on collaborators are, in this order, the
    publication of the active plan and the resets of generator, goal
    checker and critics. *)
Theorem setPlan_postcondition (cos sin : double -> double)
        (this this' : DWBLocalPlanner.t) (path : Path2D.t) :
  setPlan cos sin this path = (this', Return tt) ->
  Some (segmentsOf this')
  = (if split_path this
     then splitLoop cos sin (List.length (Path2D.poses path)) (Path2D.header path)
                    (Path2D.poses path) []
     else Some [path])
  /\ goal_pose_ this' = goal_pose_ this
  /\ (exists last_pose,
         back (Path2D.poses (global_plan_ this')) = Some last_pose
         /\ intermediate_goal_pose_ this'
            = Pose2DStamped.mk (Path2D.header path) last_pose)
  /\ effects this'
     = effects this
         ++ Publish_GlobalPlan (global_plan_ this')
         :: TrajectoryGenerator_reset :: GoalChecker_reset
         :: map (fun critic => TrajectoryCritic_reset (TrajectoryCritic.getName critic))
                (critics_ this).
Proof.
  unfold setPlan. cbn [global_plan_segments_ set_global_plan_segments_ split_path].
  intro H.
  assert (Hheader : forall new,
             (if split_path this
              then splitLoop cos sin (List.length (Path2D.poses path))
                             (Path2D.header path) (Path2D.poses path) []
              else Some ([] ++ [path])) = Some new ->
             Forall (fun s => Path2D.header s = Path2D.header path) new).
  { intros new Hnew. destruct (split_path this).
    - destruct (splitLoop_splits cos sin (Path2D.header path) _ (Path2D.poses path)
                                 (le_n _)) as (new' & Hnew' & (_ & _ & _ & _ & Hall)).
      rewrite Hnew' in Hnew. injection Hnew as <-.
      eapply Forall_impl; [|exact Hall]. simpl. tauto.
    - injection Hnew as <-. repeat constructor. }
  destruct (if split_path this then _ else _) as [new|] eqn:Hnew; [|discriminate].
  specialize (Hheader new eq_refl).
  destruct new as [|segment rest]; [discriminate|].
  cbn -[back] in H.
  destruct (back (Path2D.poses segment)) as [last_pose|] eqn:Hback; [|discriminate].
  injection H as <-. cbn -[back].
  inversion Hheader as [|? ? Hh _]; subst.
  split.
  - destruct (split_path this); [reflexivity|now rewrite <- Hnew].
  - split; [reflexivity|]. split.
    + exists last_pose. split; [exact Hback|]. now rewrite Hh.
    + rewrite <- app_assoc. reflexivity.
Qed.

Lemma setPlan_postcondition_witness :
  goal_pose_ (fst (setPlan cos_taylor sin_taylor trackingPlanner scenario_path))
  = goal_pose_ trackingPlanner.
Proof.
  apply (setPlan_postcondition cos_taylor sin_taylor trackingPlanner
           (fst (setPlan cos_taylor sin_taylor trackingPlanner scenario_path))
           scenario_path).
  vm_compute. reflexivity.
Defined.

(** ** [transformGlobalPlan]: pruning, success and failure *)

(** [w] is not within the prune distance of [costmap_pose]: the prune
    erases it when it is at the front. *)
Definition prunable (this : DWBLocalPlanner.t) (costmap_pose : Pose2D.t) (w : Pose2D.t)
  : bool :=
  negb (dlt (getSquareDistance costmap_pose w)
            (prune_distance_ this * prune_distance_ this)).

(** The window of the stored plan around [robot_pose], in the frame of the
    costmap. *)
Definition windowed (this : DWBLocalPlanner.t) (robot_pose : Pose2DStamped.t)
  : list Pose2D.t :=
  map (toLocal this)
      (spec_window (beyond_threshold (costmap_ this) (Pose2DStamped.pose robot_pose))
                   (Path2D.poses (global_plan_ this))).

(** The intermediate goal is the last pose of the active plan, in the
    frame of the plan. *)
Definition goal_tracks_plan (this : DWBLocalPlanner.t) : Prop :=
  exists last_pose,
    back (Path2D.poses (global_plan_ this)) = Some last_pose
    /\ Pose2DStamped.pose (intermediate_goal_pose_ this) = last_pose
    /\ Header.frame_id (Pose2DStamped.header (intermediate_goal_pose_ this))
       = Header.frame_id (Path2D.header (global_plan_ this)).

Lemma dropWhile_nil {A : Type} (f : A -> bool) (l : list A) :
  dropWhile f l = [] <-> Forall (fun a => f a = true) l.
Proof.
  induction l as [|a l IH]; simpl; [split; constructor|].
  destruct (f a) eqn:E.
  - rewrite IH. split; intro H; [now constructor|now inversion H].
  - split; [discriminate|]. intro H. inversion H. congruence.
Qed.

Lemma dropWhile_head {A : Type} (f : A -> bool) (l : list A) (a : A) (rest : list A) :
  dropWhile f l = a :: rest -> f a = false.
Proof.
  induction l as [|b l IH]; simpl; [discriminate|].
  destruct (f b) eqn:E; [exact IH|]. intro H. congruence.
Qed.

Lemma takeWhile_all {A : Type} (f : A -> bool) (l : list A) :
  Forall (fun a => f a = true) (takeWhile f l).
Proof.
  induction l as [|a l IH]; simpl; [constructor|].
  destruct (f a) eqn:E; constructor; assumption.
Qed.

Lemma takeWhile_length {A : Type} (f : A -> bool) (l : list A) :
  (List.length (takeWhile f l) + List.length (dropWhile f l) = List.length l)%nat.
Proof.
  rewrite <- length_app, takeWhile_dropWhile. reflexivity.
Qed.

Lemma spec_window_nil (beyond : Pose2D.t -> bool) (plan : list Pose2D.t) :
  spec_window beyond plan = [] <-> Forall (fun p => beyond p = true) plan.
Proof.
  unfold spec_window. rewrite <- dropWhile_nil.
  destruct (dropWhile beyond plan) as [|p reached] eqn:E; [tauto|].
  apply dropWhile_head in E. simpl. rewrite E. simpl. split; discriminate.
Qed.

Lemma back_skipn (l : list Pose2D.t) :
  forall n, (n < List.length l)%nat -> back (skipn n l) = back l.
Proof.
  induction l as [|a l IH]; intros n Hn; [simpl in Hn; lia|].
  destruct n as [|n]; [reflexivity|].
  simpl in Hn. rewrite skipn_cons, IH by lia.
  destruct l as [|b l]; [simpl in Hn; lia|].
  unfold back. now rewrite last_cons.
Qed.

(** The lockstep prune, in one piece: the leading transformed poses that
    are not within the prune distance go, and as many leading poses of the
    stored plan. *)
Lemma pruneLoop_dropWhile (this : DWBLocalPlanner.t) (costmap_pose : Pose2D.t)
      (transformed : list Pose2D.t) :
  forall global,
    (List.length transformed <= List.length global)%nat ->
    pruneLoop costmap_pose (prune_distance_ this * prune_distance_ this)
              transformed global
    = Some (dropWhile (prunable this costmap_pose) transformed,
            skipn (List.length (takeWhile (prunable this costmap_pose) transformed))
                  global).
Proof.
  induction transformed as [|w transformed IH]; intros global Hlen; [reflexivity|].
  cbn [pruneLoop dropWhile takeWhile]. unfold prunable at 1 3.
  destruct (dlt _ _); cbn [negb]; [reflexivity|].
  destruct global as [|g global]; [simpl in Hlen; lia|].
  rewrite IH by (simpl in Hlen; lia). reflexivity.
Qed.

(** [transformGlobalPlan] with pruning, once both robot poses are
    resolved. *)
Lemma transformGlobalPlan_pruning (this : DWBLocalPlanner.t)
      (pose robot_pose costmap_pose : Pose2DStamped.t) :
  prune_plan_ this = true ->
  Path2D.poses (global_plan_ this) <> [] ->
  TFListener.transformPose (tf_ this)
    (Header.frame_id (Path2D.header (global_plan_ this))) pose = Some robot_pose ->
  TFListener.transformPose (tf_ this) (Costmap.getFrameId (costmap_ this)) pose
  = Some costmap_pose ->
  let far := prunable this (Pose2DStamped.pose costmap_pose) in
  let erased := List.length (takeWhile far (windowed this robot_pose)) in
  let pruned := set_global_plan_ this
                  (Path2D.mk (Path2D.header (global_plan_ this))
                             (skipn erased (Path2D.poses (global_plan_ this)))) in
  transformGlobalPlan this pose
  = finishTransform (emit pruned [Publish_GlobalPlan (global_plan_ pruned)])
                    (Path2D.mk (local_header this pose)
                               (dropWhile far (windowed this robot_pose))).
Proof.
  intros Hprune Hne Htf Htf' far erased pruned.
  rewrite (transformGlobalPlan_windowed this pose robot_pose Hne Htf), Hprune, Htf'.
  fold (windowed this robot_pose).
  rewrite pruneLoop_dropWhile.
  - reflexivity.
  - unfold windowed. rewrite length_map. apply window_length.
Qed.

(** X8: a [transformGlobalPlan] with pruning that returns.  The returned
    plan has the frame of the costmap and the stamp of the pose; its poses
    are the window without its leading poses that are not within the prune
    distance of the robot, so its first pose is within the prune distance;
    and the stored plan has lost as many leading poses as the window. *)
Theorem transformGlobalPlan_pruned (this this' : DWBLocalPlanner.t)
        (pose robot_pose costmap_pose : Pose2DStamped.t) (plan : Path2D.t) :
  prune_plan_ this = true ->
  TFListener.transformPose (tf_ this)
    (Header.frame_id (Path2D.header (global_plan_ this))) pose = Some robot_pose ->
  TFListener.transformPose (tf_ this) (Costmap.getFrameId (costmap_ this)) pose
  = Some costmap_pose ->
  transformGlobalPlan this pose = (this', Return plan) ->
  let far := prunable this (Pose2DStamped.pose costmap_pose) in
  let erased := List.length (takeWhile far (windowed this robot_pose)) in
  Path2D.header plan = local_header this pose
  /\ Path2D.poses plan = dropWhile far (windowed this robot_pose)
  /\ (exists first rest,
         Path2D.poses plan = first :: rest
         /\ dlt (getSquareDistance (Pose2DStamped.pose costmap_pose) first)
                (prune_distance_ this * prune_distance_ this) = true)
  /\ Path2D.poses (global_plan_ this')
     = skipn erased (Path2D.poses (global_plan_ this))
  /\ Path2D.header (global_plan_ this') = Path2D.header (global_plan_ this).
Proof.
  intros Hprune Htf Htf' Hrun far erased.
  assert (Hne : Path2D.poses (global_plan_ this) <> []).
  { intro Hnil. unfold transformGlobalPlan in Hrun. rewrite Hnil in Hrun.
    simpl in Hrun. discriminate. }
  rewrite (transformGlobalPlan_pruning this pose robot_pose costmap_pose
             Hprune Hne Htf Htf') in Hrun.
  unfold finishTransform in Hrun. cbn [Path2D.poses] in Hrun.
  fold far in Hrun.
  destruct (dropWhile far (windowed this robot_pose)) as [|first rest] eqn:Hdrop;
    [discriminate|].
  cbn [List.length Nat.eqb] in Hrun. injection Hrun as <- <-.
  cbn [Path2D.header Path2D.poses global_plan_ emit set_global_plan_].
  repeat split.
  exists first, rest. split; [reflexivity|].
  apply dropWhile_head in Hdrop. unfold far, prunable in Hdrop.
  now apply negb_false_iff in Hdrop.
Qed.

(** X9: [transformGlobalPlan] without pruning never changes the planner,
    whatever it returns or throws; and, once the robot pose is resolved in
    the frame of a non-empty stored plan, it returns exactly when some
    stored pose is within the threshold of the costmap; when every stored
    pose is beyond it, it throws the empty-result error. *)
Theorem transformGlobalPlan_returns_iff (this : DWBLocalPlanner.t)
        (pose : Pose2DStamped.t) :
  prune_plan_ this = false ->
  fst (transformGlobalPlan this pose) = this
  /\ forall robot_pose,
      Path2D.poses (global_plan_ this) <> [] ->
      TFListener.transformPose (tf_ this)
        (Header.frame_id (Path2D.header (global_plan_ this))) pose = Some robot_pose ->
      let beyond := beyond_threshold (costmap_ this) (Pose2DStamped.pose robot_pose) in
      (Forall (fun p => beyond p = true) (Path2D.poses (global_plan_ this)) ->
       snd (transformGlobalPlan this pose) = Throw zero_poses_error)
      /\ (Exists (fun p => beyond p = false) (Path2D.poses (global_plan_ this)) ->
          exists first rest,
            snd (transformGlobalPlan this pose)
            = Return (Path2D.mk (local_header this pose) (first :: rest))).
Proof.
  intros Hprune. split.
  { unfold transformGlobalPlan, finishTransform. rewrite Hprune.
    destruct (_ =? 0)%nat; [reflexivity|].
    destruct (TFListener.transformPose _ _ pose); [|reflexivity].
    cbn [Path2D.poses]. destruct (_ =? 0)%nat; reflexivity. }
  intros robot_pose Hne Htf beyond.
  rewrite (transformGlobalPlan_windowed this pose robot_pose Hne Htf), Hprune.
  fold beyond. unfold finishTransform. cbn [Path2D.poses].
  pose proof (spec_window_nil beyond (Path2D.poses (global_plan_ this))) as Hnil.
  destruct (spec_window beyond (Path2D.poses (global_plan_ this))) as [|p w] eqn:Hw.
  - simpl. split; [reflexivity|].
    intro Hex. apply Exists_exists in Hex. destruct Hex as (p & Hin & Hp).
    assert (Hall : Forall (fun p => beyond p = true) (Path2D.poses (global_plan_ this)))
      by now apply Hnil.
    rewrite Forall_forall in Hall. specialize (Hall p Hin). congruence.
  - simpl. split.
    + intro Hall. apply Hnil in Hall. discriminate.
    + intros _. eexists. eexists. reflexivity.
Qed.

(** X10: with pruning and both robot poses resolved, [transformGlobalPlan]
    returns exactly when some pose of the window is within the prune
    distance of the robot; otherwise it throws the empty-result error. *)
Theorem transformGlobalPlan_pruned_returns_iff (this : DWBLocalPlanner.t)
        (pose robot_pose costmap_pose : Pose2DStamped.t) :
  prune_plan_ this = true ->
  Path2D.poses (global_plan_ this) <> [] ->
  TFListener.transformPose (tf_ this)
    (Header.frame_id (Path2D.header (global_plan_ this))) pose = Some robot_pose ->
  TFListener.transformPose (tf_ this) (Costmap.getFrameId (costmap_ this)) pose
  = Some costmap_pose ->
  let far := prunable this (Pose2DStamped.pose costmap_pose) in
  (Forall (fun w => far w = true) (windowed this robot_pose) ->
   snd (transformGlobalPlan this pose) = Throw zero_poses_error)
  /\ (Exists (fun w => far w = false) (windowed this robot_pose) ->
      exists plan, snd (transformGlobalPlan this pose) = Return plan).
Proof.
  intros Hprune Hne Htf Htf' far.
  rewrite (transformGlobalPlan_pruning this pose robot_pose costmap_pose
             Hprune Hne Htf Htf').
  fold far. unfold finishTransform. cbn [Path2D.poses].
  pose proof (dropWhile_nil far (windowed this robot_pose)) as Hnil.
  destruct (dropWhile far (windowed this robot_pose)) as [|w rest] eqn:Hdrop.
  - simpl. split; [reflexivity|].
    intro Hex. apply Exists_exists in Hex. destruct Hex as (w & Hin & Hw).
    assert (Hall : Forall (fun w => far w = true) (windowed this robot_pose))
      by now apply Hnil.
    rewrite Forall_forall in Hall. specialize (Hall w Hin). congruence.
  - simpl. split.
    + intro Hall. apply Hnil in Hall. discriminate.
    + intros _. eexists. reflexivity.
Qed.

(** X11: every failure of [transformGlobalPlan] but the last one is
    atomic: when it throws another exception than the empty-result error
    (empty stored plan, robot pose not resolved in the frame of the plan or
    of the costmap), the planner is as it was. *)
Theorem transformGlobalPlan_failure_atomic (this this' : DWBLocalPlanner.t)
        (pose : Pose2DStamped.t) (e : Exception) :
  transformGlobalPlan this pose = (this', Throw e) ->
  e <> zero_poses_error ->
  this' = this.
Proof.
  unfold transformGlobalPlan, finishTransform.
  destruct (_ =? 0)%nat; [intros H _; now injection H|].
  destruct (TFListener.transformPose _ _ pose); [|intros H _; now injection H].
  destruct (prune_plan_ this).
  - cbn [Header.frame_id].
    destruct (TFListener.transformPose _ _ pose); [|intros H _; now injection H].
    destruct (_ <? _)%nat; [discriminate|].
    destruct (pruneLoop _ _ _ _) as [[transformed global]|]; [|discriminate].
    cbn [Path2D.poses]. destruct (_ =? 0)%nat; [|discriminate].
    intros H Hne. injection H as _ <-. now contradiction Hne.
  - cbn [Path2D.poses]. destruct (_ =? 0)%nat; intros H _; now injection H.
Qed.

(** A planner with pruning (prune distance 1 m) on a plan that passes the
    origin. *)
Definition passingPlanner : DWBLocalPlanner.t :=
  DWBLocalPlanner.mk identity_tf costmap10 true 1 true false false
    (list_generator [Twist2D.mk 0.5 0 0; Twist2D.mk 2 0 0])
    always_reached [speed_limit_critic "SpeedLimit" 2]
    (Path2D.mk map_header
               [Pose2D.mk (-3) 0 0; Pose2D.mk (-2) 0 0; Pose2D.mk 0.5 0 0;
                Pose2D.mk 2 0 0; Pose2D.mk 7 0 0; Pose2D.mk 8 0 0])
    []
    (Pose2DStamped.mk map_header (Pose2D.mk 8 0 0))
    (Pose2DStamped.mk map_header (Pose2D.mk 8 0 0))
    [].

Lemma transformGlobalPlan_pruned_witness :
  Path2D.poses (global_plan_ (fst (transformGlobalPlan passingPlanner origin_pose)))
  = [Pose2D.mk 0.5 0 0; Pose2D.mk 2 0 0; Pose2D.mk 7 0 0; Pose2D.mk 8 0 0].
Proof.
  destruct (transformGlobalPlan_pruned passingPlanner
              (fst (transformGlobalPlan passingPlanner origin_pose))
              origin_pose origin_pose origin_pose
              (Path2D.mk (Header.mk "odom" 9%N)
                         [Pose2D.mk 0.5 0 0; Pose2D.mk 2 0 0; Pose2D.mk 7 0 0]))
    as (_ & _ & _ & Hstored & _).
  - reflexivity.
  - reflexivity.
  - reflexivity.
  - vm_compute. reflexivity.
  - exact Hstored.
Defined.

Lemma transformGlobalPlan_returns_iff_witness :
  fst (transformGlobalPlan windowPlanner origin_pose) = windowPlanner
  /\ exists first rest,
      snd (transformGlobalPlan windowPlanner origin_pose)
      = Return (Path2D.mk (local_header windowPlanner origin_pose) (first :: rest)).
Proof.
  destruct (transformGlobalPlan_returns_iff windowPlanner origin_pose)
    as (Hsame & H).
  - reflexivity.
  - split; [exact Hsame|].
    destruct (H origin_pose) as (_ & Hreturns).
    + simpl. discriminate.
    + reflexivity.
    + apply Hreturns. simpl. right. left. reflexivity.
Defined.

Lemma transformGlobalPlan_pruned_returns_iff_witness :
  exists plan, snd (transformGlobalPlan passingPlanner origin_pose) = Return plan.
Proof.
  destruct (transformGlobalPlan_pruned_returns_iff passingPlanner
              origin_pose origin_pose origin_pose)
    as (_ & H).
  - reflexivity.
  - simpl. discriminate.
  - reflexivity.
  - reflexivity.
  - apply H. right. right. left. reflexivity.
Defined.

Lemma transformGlobalPlan_failure_atomic_witness :
  fst (transformGlobalPlan (examplePlanner true false true [] []) origin_pose)
  = examplePlanner true false true [] [].
Proof.
  apply (transformGlobalPlan_failure_atomic
           (examplePlanner true false true [] [])
           (fst (transformGlobalPlan (examplePlanner true false true [] []) origin_pose))
           origin_pose (PlannerException "Received plan with zero length")).
  - reflexivity.
  - discriminate.
Defined.

(** ** The intermediate goal follows the active plan *)

Lemma transformGlobalPlan_keeps_last (this this' : DWBLocalPlanner.t)
      (pose : Pose2DStamped.t) (plan : Path2D.t) :
  transformGlobalPlan this pose = (this', Return plan) ->
  back (Path2D.poses (global_plan_ this')) = back (Path2D.poses (global_plan_ this))
  /\ Path2D.header (global_plan_ this') = Path2D.header (global_plan_ this)
  /\ intermediate_goal_pose_ this' = intermediate_goal_pose_ this
  /\ goal_pose_ this' = goal_pose_ this
  /\ global_plan_segments_ this' = global_plan_segments_ this.
Proof.
  intro Hrun.
  assert (Hne : Path2D.poses (global_plan_ this) <> []).
  { intro Hnil. unfold transformGlobalPlan in Hrun. rewrite Hnil in Hrun.
    simpl in Hrun. discriminate. }
  destruct (TFListener.transformPose (tf_ this)
              (Header.frame_id (Path2D.header (global_plan_ this))) pose)
    as [robot_pose|] eqn:Htf.
  2:{ unfold transformGlobalPlan in Hrun. rewrite Htf in Hrun.
      destruct (_ =? 0)%nat in Hrun; discriminate. }
  destruct (prune_plan_ this) eqn:Hprune.
  - destruct (TFListener.transformPose (tf_ this) (Costmap.getFrameId (costmap_ this)) pose)
      as [costmap_pose|] eqn:Htf'.
    2:{ rewrite (transformGlobalPlan_windowed this pose robot_pose Hne Htf),
          Hprune, Htf' in Hrun. discriminate. }
    rewrite (transformGlobalPlan_pruning this pose robot_pose costmap_pose
               Hprune Hne Htf Htf') in Hrun.
    unfold finishTransform in Hrun. destruct (_ =? 0)%nat eqn:Hempty in Hrun;
      [discriminate|].
    injection Hrun as <- <-. cbn [Path2D.poses] in *.
    apply Nat.eqb_neq in Hempty.
    split.
    + cbn [Path2D.poses global_plan_ emit set_global_plan_].
      apply back_skipn.
      pose proof (takeWhile_length
                    (prunable this (Pose2DStamped.pose costmap_pose))
                    (windowed this robot_pose)) as Hsum.
      assert (List.length (windowed this robot_pose)
              <= List.length (Path2D.poses (global_plan_ this)))%nat
        by (unfold windowed; rewrite length_map; apply window_length).
      lia.
    + repeat split.
  - rewrite (transformGlobalPlan_windowed this pose robot_pose Hne Htf), Hprune in Hrun.
    unfold finishTransform in Hrun. destruct (_ =? 0)%nat in Hrun; [discriminate|].
    injection Hrun as <- _. repeat split.
Qed.

(** X12: a [transformGlobalPlan] that returns, with or without pruning,
    keeps the last pose and the header of the stored plan, both goal poses
    and the queue: pruning never erases the end of the active plan. *)
Theorem transformGlobalPlan_keeps_goal (this this' : DWBLocalPlanner.t)
        (pose : Pose2DStamped.t) (plan : Path2D.t) :
  transformGlobalPlan this pose = (this', Return plan) ->
  back (Path2D.poses (global_plan_ this')) = back (Path2D.poses (global_plan_ this))
  /\ Path2D.header (global_plan_ this') = Path2D.header (global_plan_ this)
  /\ intermediate_goal_pose_ this' = intermediate_goal_pose_ this
  /\ goal_pose_ this' = goal_pose_ this
  /\ global_plan_segments_ this' = global_plan_segments_ this.
Proof.
  apply transformGlobalPlan_keeps_last.
Qed.

Lemma transformGlobalPlan_keeps_goal_witness :
  back (Path2D.poses (global_plan_ (fst (transformGlobalPlan passingPlanner origin_pose))))
  = back (Path2D.poses (global_plan_ passingPlanner)).
Proof.
  apply (transformGlobalPlan_keeps_goal passingPlanner
           (fst (transformGlobalPlan passingPlanner origin_pose)) origin_pose
           (Path2D.mk (Header.mk "odom" 9%N)
                      [Pose2D.mk 0.5 0 0; Pose2D.mk 2 0 0; Pose2D.mk 7 0 0])).
  vm_compute. reflexivity.
Defined.

Lemma setPlan_goal_tracks_plan (cos sin : double -> double)
      (this this' : DWBLocalPlanner.t) (path : Path2D.t) :
  setPlan cos sin this path = (this', Return tt) -> goal_tracks_plan this'.
Proof.
  unfold setPlan. cbn [global_plan_segments_ set_global_plan_segments_ split_path].
  destruct (if split_path this then _ else _) as [new|]; [|discriminate].
  destruct new as [|segment rest]; [discriminate|].
  cbn -[back].
  destruct (back (Path2D.poses segment)) as [last_pose|] eqn:Hback; [|discriminate].
  intro H. injection H as <-.
  exists last_pose. cbn -[back]. auto.
Qed.

Lemma isGoalReached_goal_tracks_plan (this this' : DWBLocalPlanner.t)
      (pose : Pose2DStamped.t) (velocity : Twist2D.t) (reached : bool) :
  goal_tracks_plan this ->
  isGoalReached this pose velocity = (this', Return reached) ->
  goal_tracks_plan this'.
Proof.
  intros (last_pose & Hback & Hpose & Hframe). unfold isGoalReached.
  destruct (String.eqb _ _).
  { intro H. injection H as <- _. now exists last_pose. }
  cbn -[back].
  destruct (GoalChecker.isGoalReached _ _ _ _).
  - destruct (global_plan_segments_ this) as [|segment rest].
    + intro H. injection H as <- _. exists last_pose. cbn -[back]. auto.
    + destruct (back (Path2D.poses segment)) as [l|] eqn:Hb; [|discriminate].
      intro H. injection H as <- _. exists l. cbn -[back]. auto.
  - intro H. injection H as <- _. exists last_pose. cbn -[back]. auto.
Qed.

(** X13: the intermediate goal is the last pose of the active plan, in the
    frame of the plan.  A [setPlan] that returns makes it so, and an
    [isGoalReached] or a [transformGlobalPlan] that returns keeps it so. *)
Theorem goal_tracks_plan_kept (cos sin : double -> double)
        (this this' : DWBLocalPlanner.t) :
  (forall path, setPlan cos sin this path = (this', Return tt) -> goal_tracks_plan this')
  /\ (forall pose velocity reached,
         goal_tracks_plan this ->
         isGoalReached this pose velocity = (this', Return reached) ->
         goal_tracks_plan this')
  /\ (forall pose plan,
         goal_tracks_plan this ->
         transformGlobalPlan this pose = (this', Return plan) ->
         goal_tracks_plan this').
Proof.
  split; [|split].
  - intros path. apply setPlan_goal_tracks_plan.
  - intros pose velocity reached. apply isGoalReached_goal_tracks_plan.
  - intros pose plan (last_pose & Hback & Hpose & Hframe) Hrun.
    destruct (transformGlobalPlan_keeps_last this this' pose plan Hrun)
      as (Hb & Hh & Hi & _).
    exists last_pose. rewrite Hb, Hh, Hi. auto.
Qed.

Lemma trackingPlanner_tracks : goal_tracks_plan trackingPlanner.
Proof. exists (Pose2D.mk 2 0 0). repeat split. Defined.

Lemma passingPlanner_tracks : goal_tracks_plan passingPlanner.
Proof. exists (Pose2D.mk 8 0 0). repeat split. Defined.

Lemma goal_tracks_plan_kept_witness :
  goal_tracks_plan (fst (setPlan cos_taylor sin_taylor trackingPlanner scenario_path))
  /\ goal_tracks_plan (fst (isGoalReached trackingPlanner origin_pose Twist2D.default))
  /\ goal_tracks_plan (fst (transformGlobalPlan passingPlanner origin_pose)).
Proof.
  split; [|split].
  - apply (proj1 (goal_tracks_plan_kept cos_taylor sin_taylor trackingPlanner
                    (fst (setPlan cos_taylor sin_taylor trackingPlanner scenario_path)))
                 scenario_path).
    vm_compute. reflexivity.
  - apply (proj1 (proj2 (goal_tracks_plan_kept cos_taylor sin_taylor trackingPlanner
                           (fst (isGoalReached trackingPlanner origin_pose
                                               Twist2D.default))))
                 origin_pose Twist2D.default false).
    + exact trackingPlanner_tracks.
    + vm_compute. reflexivity.
  - apply (proj2 (proj2 (goal_tracks_plan_kept cos_taylor sin_taylor passingPlanner
                           (fst (transformGlobalPlan passingPlanner origin_pose))))
                 origin_pose
                 (Path2D.mk (Header.mk "odom" 9%N)
                            [Pose2D.mk 0.5 0 0; Pose2D.mk 2 0 0; Pose2D.mk 7 0 0])).
    + exact passingPlanner_tracks.
    + vm_compute. reflexivity.
Defined.

(** ** The goal state machine over several calls *)

(** X14: with a goal set and the goal checker reporting not reached,
    [isGoalReached] returns false, leaves plan and queue alone, puts the
    stamp of the pose into both goal poses, and its only call on a
    collaborator is the question to the goal checker. *)
Theorem isGoalReached_not_reached (this : DWBLocalPlanner.t)
        (pose : Pose2DStamped.t) (velocity : Twist2D.t) :
  goal_set this ->
  goal_checker_says this pose velocity = false ->
  exists this',
    isGoalReached this pose velocity = (this', Return false)
    /\ global_plan_ this' = global_plan_ this
    /\ global_plan_segments_ this' = global_plan_segments_ this
    /\ goal_pose_ this' = stamped_goal this pose
    /\ intermediate_goal_pose_ this' = stamped_intermediate this pose
    /\ effects this' = effects this ++ [goal_query this pose velocity].
Proof.
  unfold goal_set, goal_checker_says, goal_query, stamped_goal, stamped_intermediate.
  intros Hgoal Hsays. unfold isGoalReached.
  destruct (String.eqb _ _) eqn:Heq; [apply String.eqb_eq in Heq; contradiction|].
  cbn -[back]. unfold transformPoseToLocal in *. cbn -[back] in *. rewrite Hsays.
  eexists. split; [reflexivity|]. cbn. auto.
Qed.

(** A checker that never reports the goal reached. *)
Definition never_reached : GoalChecker.t := GoalChecker.mk (fun _ _ _ => false).

(** The tracking planner with that checker. *)
Definition stuckPlanner : DWBLocalPlanner.t :=
  DWBLocalPlanner.mk identity_tf costmap10 true 1 true false true
    (list_generator []) never_reached [velocity_critic "PathDist" 1]
    (global_plan_ trackingPlanner) (global_plan_segments_ trackingPlanner)
    (goal_pose_ trackingPlanner) (intermediate_goal_pose_ trackingPlanner) [].

Lemma isGoalReached_not_reached_witness :
  exists this',
    isGoalReached stuckPlanner origin_pose Twist2D.default = (this', Return false)
    /\ global_plan_ this' = global_plan_ stuckPlanner
    /\ global_plan_segments_ this' = global_plan_segments_ stuckPlanner.
Proof.
  destruct (isGoalReached_not_reached stuckPlanner origin_pose Twist2D.default)
    as (this' & Hrun & Hplan & Hqueue & _).
  - unfold goal_set. simpl. discriminate.
  - reflexivity.
  - exists this'. auto.
Defined.

(** The control loop asking [isGoalReached] once per input, in order. *)
Fixpoint pollGoal (this : DWBLocalPlanner.t)
         (inputs : list (Pose2DStamped.t * Twist2D.t))
  : DWBLocalPlanner.t * list (Outcome bool) :=
  match inputs with
  | [] => (this, [])
  | (pose, velocity) :: inputs' =>
      let '(this', reached) := isGoalReached this pose velocity in
      let '(this'', answers) := pollGoal this' inputs' in
      (this'', reached :: answers)
  end.

(** The goal checker reports reached whatever it is asked. *)
Definition always_reports_reached (this : DWBLocalPlanner.t) : Prop :=
  forall query goal velocity,
    GoalChecker.isGoalReached (goal_checker_ this) query goal velocity = true.

(** One call under such a checker: the front segment, if any, becomes the
    active plan, and the answer is true only on an empty queue. *)
Lemma isGoalReached_advance (this : DWBLocalPlanner.t)
      (pose : Pose2DStamped.t) (velocity : Twist2D.t) :
  goal_set this ->
  queue_ok this ->
  always_reports_reached this ->
  exists this',
    isGoalReached this pose velocity
    = (this', Return (match global_plan_segments_ this with
                      | [] => true
                      | _ :: _ => false
                      end))
    /\ global_plan_ this' = hd (global_plan_ this) (global_plan_segments_ this)
    /\ global_plan_segments_ this' = tl (global_plan_segments_ this)
    /\ goal_set this'
    /\ always_reports_reached this'.
Proof.
  unfold goal_set, queue_ok, always_reports_reached.
  intros Hgoal Hq Hreached. unfold isGoalReached.
  destruct (String.eqb _ _) eqn:Heq; [apply String.eqb_eq in Heq; contradiction|].
  cbn -[back]. rewrite Hreached.
  destruct (global_plan_segments_ this) as [|segment rest] eqn:Hqueue.
  - eexists. split; [reflexivity|]. cbn. rewrite Hqueue. auto.
  - inversion Hq as [|? ? Hseg _]; subst.
    destruct (Path2D.poses segment) as [|p ps] eqn:Hposes; [congruence|].
    eexists. split; [reflexivity|]. cbn. auto.
Qed.

Lemma last_default {A : Type} (l : list A) :
  forall a d, last (a :: l) d = last l a.
Proof.
  induction l as [|b l IH]; intros a d; [reflexivity|].
  change (last (a :: b :: l) d) with (last (b :: l) d).
  now rewrite (IH b d), (IH b a).
Qed.

(** X15: under a goal checker that always reports reached, with a goal set,
    polling [isGoalReached] walks the queue in order: each of the first
    calls activates the next queued segment and answers false, as many
    times as there are queued segments; every later call answers true and
    leaves the last segment active. *)
Theorem pollGoal_walks_queue (inputs : list (Pose2DStamped.t * Twist2D.t)) :
  forall this,
    goal_set this ->
    queue_ok this ->
    always_reports_reached this ->
    let queued := List.length (global_plan_segments_ this) in
    let asked := List.length inputs in
    snd (pollGoal this inputs)
    = repeat (Return false) (Nat.min queued asked)
      ++ repeat (Return true) (asked - queued)
    /\ global_plan_ (fst (pollGoal this inputs))
       = last (firstn asked (global_plan_segments_ this)) (global_plan_ this)
    /\ global_plan_segments_ (fst (pollGoal this inputs))
       = skipn asked (global_plan_segments_ this).
Proof.
  induction inputs as [|[pose velocity] inputs IH]; intros this Hgoal Hq Hreached.
  - simpl. rewrite Nat.min_0_r. simpl. auto.
  - destruct (isGoalReached_advance this pose velocity Hgoal Hq Hreached)
      as (this' & Hrun & Hplan & Hqueue & Hgoal' & Hreached').
    assert (Hq' : queue_ok this').
    { unfold queue_ok in *. rewrite Hqueue.
      destruct (global_plan_segments_ this); [constructor|now inversion Hq]. }
    destruct (IH this' Hgoal' Hq' Hreached') as (Hanswers & Hlast & Hrest).
    cbn [pollGoal]. rewrite Hrun.
    destruct (pollGoal this' inputs) as [this'' answers] eqn:Hpoll.
    cbn [fst snd] in *. rewrite Hanswers, Hlast, Hrest, Hplan, Hqueue.
    destruct (global_plan_segments_ this) as [|segment rest]; cbn [tl hd List.length].
    + simpl. rewrite Nat.sub_0_r, firstn_nil, skipn_nil. auto.
    + simpl. split; [reflexivity|]. split; [|reflexivity].
      destruct (firstn (List.length inputs) rest) as [|s l]; [reflexivity|].
      now rewrite !last_default.
Qed.

Lemma pollGoal_walks_queue_witness :
  snd (pollGoal trackingPlanner
                [(origin_pose, Twist2D.default); (origin_pose, Twist2D.default);
                 (origin_pose, Twist2D.default)])
  = [Return false; Return true; Return true].
Proof.
  apply (pollGoal_walks_queue
           [(origin_pose, Twist2D.default); (origin_pose, Twist2D.default);
            (origin_pose, Twist2D.default)] trackingPlanner).
  - unfold goal_set. simpl. discriminate.
  - unfold queue_ok. simpl. repeat constructor. discriminate.
  - intros query goal velocity. reflexivity.
Defined.

(** X16: the usual start, [setGoalPose] with a goal in a named frame and
    then a [setPlan] that returns, puts the planner into a state in which a
    goal is set, every queued segment has a last pose, the intermediate
    goal is the last pose of the active plan, and the final goal is the one
    given. *)
Theorem setGoalPose_then_setPlan (cos sin : double -> double)
        (this this' : DWBLocalPlanner.t) (goal_pose : Pose2DStamped.t) (path : Path2D.t) :
  Header.frame_id (Pose2DStamped.header goal_pose) <> EmptyString ->
  setPlan cos sin (setGoalPose this goal_pose) path = (this', Return tt) ->
  goal_set this'
  /\ queue_ok this'
  /\ goal_tracks_plan this'
  /\ goal_pose_ this' = goal_pose.
Proof.
  intros Hframe Hrun.
  assert (Hgoal : goal_pose_ this' = goal_pose).
  { revert Hrun. unfold setPlan.
    cbn [global_plan_segments_ set_global_plan_segments_ split_path].
    destruct (if split_path (setGoalPose this goal_pose) then _ else _) as [new|];
      [|discriminate].
    destruct new as [|segment rest]; [discriminate|].
    cbn -[back]. destruct (back (Path2D.poses segment)); [|discriminate].
    intro H. injection H as <-. reflexivity. }
  split; [unfold goal_set; now rewrite Hgoal|].
  split; [exact (setPlan_queue_ok cos sin _ _ _ Hrun)|].
  split; [exact (setPlan_goal_tracks_plan cos sin _ _ _ Hrun)|exact Hgoal].
Qed.

Lemma setGoalPose_then_setPlan_witness :
  goal_set (fst (setPlan cos_taylor sin_taylor
                         (setGoalPose (examplePlanner true true true [] [])
                                      (Pose2DStamped.mk map_header (Pose2D.mk 2 1 1.57)))
                         scenario_path)).
Proof.
  apply (setGoalPose_then_setPlan cos_taylor sin_taylor
           (examplePlanner true true true [] [])
           (fst (setPlan cos_taylor sin_taylor
                         (setGoalPose (examplePlanner true true true [] [])
                                      (Pose2DStamped.mk map_header (Pose2D.mk 2 1 1.57)))
                         scenario_path))
           (Pose2DStamped.mk map_header (Pose2D.mk 2 1 1.57)) scenario_path).
  - simpl. discriminate.
  - vm_compute. reflexivity.
Defined.

(** ** The evaluation report and the choice of the best candidate *)

(** The entry of the report for a rejected candidate. *)
Definition failedScore (traj : Trajectory2D.t) (e : IllegalTrajectoryException.t)
  : TrajectoryScore.t :=
  TrajectoryScore.mk traj
    [CriticScore.mk (IllegalTrajectoryException.getCriticName e) (-1) 0] (-1).

(** [entry] is what the loop records for the candidate [traj]: the score
    of the critic chain, or the failed score when a critic rejects it. *)
Definition records (this : DWBLocalPlanner.t) (traj : Trajectory2D.t)
           (entry : TrajectoryScore.t) : Prop :=
  TrajectoryScore.traj entry = traj
  /\ exists best_score,
      match scoreTrajectory this traj best_score with
      | inl score => entry = score
      | inr e => entry = failedScore traj e
      end.

(** [best] is the first minimum of the legal entries of [twists], and
    [index] its position as a [uint16]. *)
Definition first_minimum (twists : list TrajectoryScore.t) (best : TrajectoryScore.t)
           (index : N) : Prop :=
  exists before after,
    twists = before ++ best :: after
    /\ 0 <= TrajectoryScore.total best
    /\ Forall (fun s => TrajectoryScore.total s < 0
                        \/ TrajectoryScore.total best < TrajectoryScore.total s) before
    /\ Forall (fun s => TrajectoryScore.total s < 0
                        \/ TrajectoryScore.total best <= TrajectoryScore.total s) after
    /\ index = (N.of_nat (List.length before) mod 65536)%N.

(** The same critics but for what the disabled ones (scale 0) would answer. *)
Definition same_enabled (critics critics' : list TrajectoryCritic.t) : Prop :=
  Forall2 (fun c c' =>
             TrajectoryCritic.getName c = TrajectoryCritic.getName c'
             /\ TrajectoryCritic.getScale c = TrajectoryCritic.getScale c'
             /\ (deq (TrajectoryCritic.getScale c) 0 = false ->
                 forall traj, TrajectoryCritic.scoreTrajectory c traj
                              = TrajectoryCritic.scoreTrajectory c' traj))
          critics critics'.

Lemma results_evaluateCandidate (this : DWBLocalPlanner.t) (ev : Evaluation)
      (traj : Trajectory2D.t) :
  results (evaluateCandidate this ev traj)
  = match scoreTrajectory this traj (TrajectoryScore.total (best ev)) with
    | inl score =>
        let pushed := option_map (fun r => LocalPlanEvaluation.push_back r score)
                                 (results ev) in
        let marked :=
          if (dlt (TrajectoryScore.total (best ev)) 0
              || dlt (TrajectoryScore.total score) (TrajectoryScore.total (best ev)))%bool
          then option_map LocalPlanEvaluation.mark_best pushed else pushed in
        if (dlt (TrajectoryScore.total (worst ev)) 0
            || dgt (TrajectoryScore.total score) (TrajectoryScore.total (worst ev)))%bool
        then option_map LocalPlanEvaluation.mark_worst marked else marked
    | inr e =>
        option_map (fun r => LocalPlanEvaluation.push_back r (failedScore traj e))
                   (results ev)
    end.
Proof.
  unfold evaluateCandidate.
  destruct (scoreTrajectory this traj _); [|reflexivity].
  destruct (_ || _)%bool; destruct (_ || _)%bool; reflexivity.
Qed.

Lemma scoreTrajectory_traj (this : DWBLocalPlanner.t) (traj : Trajectory2D.t)
      (best_score : double) (score : TrajectoryScore.t) :
  scoreTrajectory this traj best_score = inl score ->
  TrajectoryScore.traj score = traj.
Proof.
  unfold scoreTrajectory. intro H.
  now rewrite (scoreCritics_traj _ _ _ _ _ H).
Qed.

(** What one turn adds to a requested report. *)
Lemma evaluateCandidate_records (this : DWBLocalPlanner.t) (ev : Evaluation)
      (traj : Trajectory2D.t) (r : LocalPlanEvaluation.t) :
  results ev = Some r ->
  exists r' entry,
    results (evaluateCandidate this ev traj) = Some r'
    /\ LocalPlanEvaluation.twists r' = LocalPlanEvaluation.twists r ++ [entry]
    /\ LocalPlanEvaluation.header r' = LocalPlanEvaluation.header r
    /\ records this traj entry.
Proof.
  intro Hr. rewrite results_evaluateCandidate, Hr.
  destruct (scoreTrajectory this traj _) as [score|e] eqn:E.
  - assert (Hrec : records this traj score).
    { split; [exact (scoreTrajectory_traj _ _ _ _ E)|].
      exists (TrajectoryScore.total (best ev)). now rewrite E. }
    cbv zeta. destruct (_ || _)%bool; destruct (_ || _)%bool; simpl;
      eexists; exists score;
      (split; [reflexivity|]; split; [reflexivity|]; split; [reflexivity|exact Hrec]).
  - simpl. eexists. exists (failedScore traj e).
    split; [reflexivity|]. split; [reflexivity|]. split; [reflexivity|].
    split; [reflexivity|].
    exists (TrajectoryScore.total (best ev)). now rewrite E.
Qed.

(** X17: the evaluation report.  When no report is requested none is
    made.  When one is requested, the loop appends to it exactly one entry
    per candidate, in the order of the candidates, each with the trajectory
    of its candidate: the score of the critic chain for a legal candidate,
    and for a rejected one the failed score (total -1, one critic score
    with raw score -1 under the name of the rejecting critic); the header
    of the report is left alone. *)
Theorem evaluation_report_complete (this : DWBLocalPlanner.t)
        (trajs : list Trajectory2D.t) :
  results (evaluateAll this trajs None) = None
  /\ forall r,
      exists r' entries,
        results (evaluateAll this trajs (Some r)) = Some r'
        /\ LocalPlanEvaluation.twists r' = LocalPlanEvaluation.twists r ++ entries
        /\ LocalPlanEvaluation.header r' = LocalPlanEvaluation.header r
        /\ Forall2 (records this) trajs entries.
Proof.
  split.
  - apply (evaluateAll_invariant this None (fun ev => results ev = None));
      [reflexivity|].
    intros ev traj Hnone. rewrite results_evaluateCandidate, Hnone.
    destruct (scoreTrajectory this traj _); [|reflexivity].
    cbv zeta. destruct (_ || _)%bool; destruct (_ || _)%bool; reflexivity.
  - intro r. unfold evaluateAll.
    assert (Hgen : forall ev r0,
               results ev = Some r0 ->
               exists r' entries,
                 results (fold_left (evaluateCandidate this) trajs ev) = Some r'
                 /\ LocalPlanEvaluation.twists r' = LocalPlanEvaluation.twists r0 ++ entries
                 /\ LocalPlanEvaluation.header r' = LocalPlanEvaluation.header r0
                 /\ Forall2 (records this) trajs entries).
    { induction trajs as [|traj trajs IH]; intros ev r0 Hr0; simpl.
      - exists r0, []. rewrite app_nil_r. repeat split; auto.
      - destruct (evaluateCandidate_records this ev traj r0 Hr0)
          as (r1 & entry & Hr1 & Htw & Hh & Hrec).
        destruct (IH _ _ Hr1) as (r' & entries & Hr' & Htw' & Hh' & Hall).
        exists r', (entry :: entries). split; [exact Hr'|].
        split; [rewrite Htw', Htw, <- app_assoc; reflexivity|].
        split; [congruence|]. now constructor. }
    apply Hgen. reflexivity.
Qed.

(** The report after a legal candidate, whatever was marked. *)
Lemma marked_report (r : LocalPlanEvaluation.t) (score : TrajectoryScore.t)
      (new_best new_worst : bool) :
  let pushed := Some (LocalPlanEvaluation.push_back r score) in
  let marked := if new_best
                then option_map LocalPlanEvaluation.mark_best pushed else pushed in
  exists r',
    (if new_worst then option_map LocalPlanEvaluation.mark_worst marked else marked)
    = Some r'
    /\ LocalPlanEvaluation.twists r' = LocalPlanEvaluation.twists r ++ [score]
    /\ LocalPlanEvaluation.best_index r'
       = if new_best
         then (N.of_nat (List.length (LocalPlanEvaluation.twists r)) mod 65536)%N
         else LocalPlanEvaluation.best_index r.
Proof.
  assert (Hlast : LocalPlanEvaluation.last_index (LocalPlanEvaluation.push_back r score)
                  = (N.of_nat (List.length (LocalPlanEvaluation.twists r)) mod 65536)%N).
  { unfold LocalPlanEvaluation.last_index, LocalPlanEvaluation.push_back.
    cbn [LocalPlanEvaluation.twists]. rewrite length_app. cbn [List.length].
    now rewrite Nat.add_sub. }
  destruct new_best, new_worst; cbn [option_map]; eexists;
    (split; [reflexivity|]); cbn; auto.
Qed.

(** [best] and [worst] do not depend on whether a report is requested. *)
Lemma evaluate_report_irrelevant (this : DWBLocalPlanner.t)
      (trajs : list Trajectory2D.t) :
  forall ev ev',
    best ev = best ev' -> worst ev = worst ev' ->
    best (fold_left (evaluateCandidate this) trajs ev)
    = best (fold_left (evaluateCandidate this) trajs ev')
    /\ worst (fold_left (evaluateCandidate this) trajs ev)
       = worst (fold_left (evaluateCandidate this) trajs ev').
Proof.
  induction trajs as [|traj trajs IH]; intros ev ev' Hb Hw; simpl; [now split|].
  apply IH.
  - rewrite !best_evaluateCandidate, Hb. reflexivity.
  - rewrite !worst_evaluateCandidate, Hb, Hw. reflexivity.
Qed.

(** The state of the choice: nothing legal yet, or [best] is the first
    minimum of what the report holds. *)
Definition choice_ok (ev : Evaluation) : Prop :=
  exists r,
    results ev = Some r
    /\ ((best ev = unset
         /\ Forall (fun s => TrajectoryScore.total s < 0) (LocalPlanEvaluation.twists r))
        \/ first_minimum (LocalPlanEvaluation.twists r) (best ev)
                         (LocalPlanEvaluation.best_index r)).

Lemma evaluateCandidate_choice_ok (this : DWBLocalPlanner.t) (ev : Evaluation)
      (traj : Trajectory2D.t) :
  nonneg_critics this ->
  choice_ok ev -> choice_ok (evaluateCandidate this ev traj).
Proof.
  intros Hnn (r & Hr & Hstate). unfold choice_ok.
  rewrite best_evaluateCandidate, results_evaluateCandidate, Hr.
  destruct (scoreTrajectory this traj _) as [score|e] eqn:E.
  - apply (scoreTrajectory_nonneg _ _ _ _ Hnn) in E.
    pose proof (marked_report r score
                  (dlt (TrajectoryScore.total (best ev)) 0
                   || dlt (TrajectoryScore.total score)
                          (TrajectoryScore.total (best ev)))%bool
                  (dlt (TrajectoryScore.total (worst ev)) 0
                   || dgt (TrajectoryScore.total score)
                          (TrajectoryScore.total (worst ev)))%bool) as Hmarked.
    cbv zeta in Hmarked |- *. cbn [option_map] in Hmarked |- *.
    destruct Hmarked as (r' & -> & Htw & Hidx).
    exists r'. split; [reflexivity|]. right. rewrite Htw, Hidx.
    destruct Hstate as [[Hunset Hfailed]|(before & after & Hsplit & Hpos & Hb & Ha & Hi)].
    + rewrite Hunset. cbn [orb dlt]. simpl.
      exists (LocalPlanEvaluation.twists r), []. repeat split; auto.
      eapply Forall_impl; [|exact Hfailed]. intros s Hs. now left.
    + assert (E0 : dlt (TrajectoryScore.total (best ev)) 0 = false)
        by (apply dlt_false; exact Hpos).
      rewrite E0. cbn [orb].
      destruct (dlt (TrajectoryScore.total score) (TrajectoryScore.total (best ev)))
        eqn:Hlt.
      * apply dlt_true in Hlt.
        exists (before ++ best ev :: after), []. rewrite <- Hsplit.
        repeat split; auto.
        rewrite Hsplit. apply Forall_app. split; [|constructor].
        -- eapply Forall_impl; [|exact Hb]. intros s [Hs|Hs]; [now left|right; lra].
        -- right. exact Hlt.
        -- eapply Forall_impl; [|exact Ha]. intros s [Hs|Hs]; [now left|right; lra].
      * apply dlt_false in Hlt.
        exists before, (after ++ [score]). rewrite Hsplit, <- app_assoc.
        repeat split; auto.
        apply Forall_app. split; [exact Ha|]. constructor; [now right|constructor].
  - cbn [option_map]. eexists. split; [reflexivity|].
    cbn [LocalPlanEvaluation.push_back LocalPlanEvaluation.twists
         LocalPlanEvaluation.best_index].
    assert (Hfail : TrajectoryScore.total (failedScore traj e) < 0) by reflexivity.
    destruct Hstate as [[Hunset Hfailed]|(before & after & Hsplit & Hpos & Hb & Ha & Hi)].
    + left. split; [exact Hunset|].
      apply Forall_app. split; [exact Hfailed|]. constructor; [exact Hfail|constructor].
    + right. exists before, (after ++ [failedScore traj e]).
      rewrite Hsplit, <- app_assoc. repeat split; auto.
      apply Forall_app. split; [exact Ha|]. constructor; [now left|constructor].
Qed.

(** X18: when every critic has a non-negative scale and gives non-negative
    scores, and a fresh report is requested, the loop ends either with
    [best] unset and only failed entries in the report, or with [best] the
    first entry of the report with the least total among the legal ones
    (ties go to the earlier candidate), [best_index] being its position
    modulo 65536.  [best] is the same when no report is requested. *)
Theorem best_is_first_minimum (this : DWBLocalPlanner.t)
        (trajs : list Trajectory2D.t) (r0 : LocalPlanEvaluation.t) :
  nonneg_critics this ->
  LocalPlanEvaluation.twists r0 = [] ->
  let ev := evaluateAll this trajs (Some r0) in
  choice_ok ev
  /\ forall results, best (evaluateAll this trajs results) = best ev.
Proof.
  intros Hnn Hfresh ev. split.
  - apply (evaluateAll_invariant this (Some r0) choice_ok).
    + exists r0. split; [reflexivity|]. left. split; [reflexivity|].
      rewrite Hfresh. constructor.
    + intros ev' traj. now apply evaluateCandidate_choice_ok.
  - intro results. unfold ev, evaluateAll.
    apply evaluate_report_irrelevant; reflexivity.
Qed.

Lemma best_is_first_minimum_witness :
  choice_ok (evaluateAll cautiousPlanner
                         (candidates cautiousPlanner Pose2D.default Twist2D.default)
                         (Some LocalPlanEvaluation.default)).
Proof.
  apply (best_is_first_minimum cautiousPlanner
           (candidates cautiousPlanner Pose2D.default Twist2D.default)
           LocalPlanEvaluation.default).
  - exact cautiousPlanner_nonneg.
  - reflexivity.
Defined.

(** X19: a critic with scale 0 is never asked for a score: the critic
    chain gives the same result, rejections included, for two critic lists
    that agree on names and scales and on the answers of the critics with a
    non-zero scale, whatever the disabled critics would have answered. *)
Theorem disabled_critics_not_asked (short_circuit : bool) (best_score : double)
        (critics critics' : list TrajectoryCritic.t) :
  same_enabled critics critics' ->
  forall score,
    scoreCritics short_circuit best_score critics score
    = scoreCritics short_circuit best_score critics' score.
Proof.
  induction 1 as [|c c' critics critics' (Hname & Hscale & Hanswer) _ IH];
    intro score; cbn [scoreCritics]; [reflexivity|].
  rewrite <- Hname, <- Hscale.
  destruct (deq (TrajectoryCritic.getScale c) 0) eqn:Hzero; [apply IH|].
  rewrite <- (Hanswer eq_refl).
  destruct (TrajectoryCritic.scoreTrajectory c _); [|reflexivity].
  destruct (_ && _ && _)%bool; [reflexivity|apply IH].
Qed.

Lemma disabled_critics_not_asked_witness :
  scoreCritics true 1 [rejecting_critic "Obstacle" 0; speed_limit_critic "SpeedLimit" 2]
               (TrajectoryScore.mk Trajectory2D.default [] 0)
  = scoreCritics true 1 [velocity_critic "Obstacle" 0; speed_limit_critic "SpeedLimit" 2]
                 (TrajectoryScore.mk Trajectory2D.default [] 0).
Proof.
  apply (disabled_critics_not_asked true 1
           [rejecting_critic "Obstacle" 0; speed_limit_critic "SpeedLimit" 2]
           [velocity_critic "Obstacle" 0; speed_limit_critic "SpeedLimit" 2]).
  repeat constructor; simpl; try reflexivity; discriminate.
Defined.

(** With every critic disabled the chain returns total 0 and one critic
    score per critic, with the default raw score. *)
Lemma scoreCritics_all_disabled (short_circuit : bool) (best_score : double)
      (critics : list TrajectoryCritic.t) :
  Forall (fun critic => deq (TrajectoryCritic.getScale critic) 0 = true) critics ->
  forall score,
    scoreCritics short_circuit best_score critics score
    = inl (TrajectoryScore.mk
             (TrajectoryScore.traj score)
             (TrajectoryScore.scores score
              ++ map (fun critic =>
                        CriticScore.mk (TrajectoryCritic.getName critic) 0
                                       (TrajectoryCritic.getScale critic))
                     critics)
             (TrajectoryScore.total score)).
Proof.
  induction 1 as [|critic critics Hzero _ IH]; intro score; cbn [scoreCritics map].
  - rewrite app_nil_r. now destruct score.
  - rewrite Hzero, IH. unfold push_score. cbn. now rewrite <- app_assoc.
Qed.

(** X20: when every critic has scale 0 and the generator offers at least
    one candidate, every candidate scores total 0 and
    [coreScoringAlgorithm] returns the score of the first candidate. *)
Theorem all_disabled_first_wins (this : DWBLocalPlanner.t) (pose : Pose2D.t)
        (velocity : Twist2D.t) (results : option LocalPlanEvaluation.t)
        (first : Trajectory2D.t) (others : list Trajectory2D.t) :
  Forall (fun critic => deq (TrajectoryCritic.getScale critic) 0 = true) (critics_ this) ->
  candidates this pose velocity = first :: others ->
  let zero traj :=
    TrajectoryScore.mk traj
      (map (fun critic => CriticScore.mk (TrajectoryCritic.getName critic) 0
                                         (TrajectoryCritic.getScale critic))
           (critics_ this))
      0 in
  (forall traj best_score, scoreTrajectory this traj best_score = inl (zero traj))
  /\ snd (coreScoringAlgorithm this pose velocity results) = Return (zero first).
Proof.
  intros Hzero Hcand zero.
  assert (Hscore : forall traj best_score,
             scoreTrajectory this traj best_score = inl (zero traj)).
  { intros traj b. unfold scoreTrajectory.
    rewrite (scoreCritics_all_disabled _ _ _ Hzero). reflexivity. }
  split; [exact Hscore|].
  unfold coreScoringAlgorithm. rewrite Hcand. unfold evaluateAll. cbn [fold_left].
  assert (Hfirst : best (evaluateCandidate this (startEvaluation results) first)
                   = zero first).
  { rewrite best_evaluateCandidate, Hscore. reflexivity. }
  assert (Hkeep : best (fold_left (evaluateCandidate this) others
                                  (evaluateCandidate this (startEvaluation results) first))
                  = zero first).
  { apply (evaluate_invariant this (fun ev => best ev = zero first)); [|exact Hfirst].
    intros ev traj Hev. rewrite best_evaluateCandidate, Hscore, Hev. reflexivity. }
  rewrite Hkeep. reflexivity.
Qed.

Lemma all_disabled_first_wins_witness :
  snd (coreScoringAlgorithm
         (examplePlanner false false true [velocity_critic "Speed" 0]
                         [Twist2D.mk 1 0 0; Twist2D.mk 2 0 0])
         Pose2D.default Twist2D.default None)
  = Return (TrajectoryScore.mk (Trajectory2D.mk (Twist2D.mk 1 0 0) [] [])
                               [CriticScore.mk "Speed" 0 0] 0).
Proof.
  apply (all_disabled_first_wins
           (examplePlanner false false true [velocity_critic "Speed" 0]
                           [Twist2D.mk 1 0 0; Twist2D.mk 2 0 0])
           Pose2D.default Twist2D.default None
           (Trajectory2D.mk (Twist2D.mk 1 0 0) [] [])
           [Trajectory2D.mk (Twist2D.mk 2 0 0) [] []]).
  - repeat constructor.
  - reflexivity.
Defined.

(** X21: a score that [coreScoringAlgorithm] returns is the score the
    critic chain gave to one of the candidates of the cycle, and carries
    the trajectory of that candidate: the selected trajectory is never one
    the generator did not offer or one that a critic rejected. *)
Theorem returned_best_is_candidate (this : DWBLocalPlanner.t) (pose : Pose2D.t)
        (velocity : Twist2D.t) (results : option LocalPlanEvaluation.t)
        (s : TrajectoryScore.t) :
  snd (coreScoringAlgorithm this pose velocity results) = Return s ->
  exists traj best_score,
    In traj (candidates this pose velocity)
    /\ scoreTrajectory this traj best_score = inl s
    /\ TrajectoryScore.traj s = traj.
Proof.
  unfold coreScoringAlgorithm.
  destruct (dlt _ 0) eqn:Hneg; [discriminate|].
  cbn [snd]. intro H. injection H as <-.
  destruct (evaluate_only_legal this (candidates this pose velocity) []
                                (startEvaluation results)) as [Hbest _].
  { split; now left. }
  cbn [app] in Hbest. fold (evaluateAll this (candidates this pose velocity) results)
    in Hbest.
  destruct Hbest as [Hunset|(traj & b & Hin & Hscore)].
  - rewrite Hunset in Hneg. discriminate.
  - exists traj, b. split; [exact Hin|]. split; [exact Hscore|].
    exact (scoreTrajectory_traj _ _ _ _ Hscore).
Qed.

Lemma returned_best_is_candidate_witness :
  exists traj best_score,
    In traj (candidates cautiousPlanner Pose2D.default Twist2D.default)
    /\ scoreTrajectory cautiousPlanner traj best_score
       = inl (TrajectoryScore.mk
                (Trajectory2D.mk (Twist2D.mk 0.5 0 0) [] [])
                [CriticScore.mk "SpeedLimit" 1 2; CriticScore.mk "Twirling" 1 0.5;
                 CriticScore.mk "Disabled" 0 0]
                (0 + 1 * 2 + 1 * 0.5))
    /\ TrajectoryScore.traj
         (TrajectoryScore.mk
            (Trajectory2D.mk (Twist2D.mk 0.5 0 0) [] [])
            [CriticScore.mk "SpeedLimit" 1 2; CriticScore.mk "Twirling" 1 0.5;
             CriticScore.mk "Disabled" 0 0]
            (0 + 1 * 2 + 1 * 0.5))
       = traj.
Proof.
  apply (returned_best_is_candidate cautiousPlanner Pose2D.default Twist2D.default None).
  reflexivity.
Defined.

(** ** One planning cycle ([prepare], [computeVelocityCommands]) *)

Module Twist2DStamped.
Record t := mk { header : Header.t; velocity : Twist2D.t }.
End Twist2DStamped.

(** The calls of one cycle on the costmap, the publisher and the critics,
    in program order.  The publication of the pruned global plan inside
    [transformGlobalPlan] stays in the log of the planner. *)
Inductive CycleEvent :=
| Costmap_update
| Publish_TransformedPlan (plan : Path2D.t)
| Publish_InputParams (costmap : Costmap.t) (start_pose : Pose2D.t)
                      (velocity : Twist2D.t) (goal_pose : Pose2D.t)
| TrajectoryCritic_prepare (name : string) (start_pose : Pose2D.t)
                           (velocity : Twist2D.t) (goal_pose : Pose2D.t)
                           (plan : Path2D.t)
| TrajectoryCritic_debrief (name : string) (cmd_vel : Twist2D.t)
| Publish_LocalPlan (header : Header.t) (traj : Trajectory2D.t)
| Publish_CostGrid
| Publish_Evaluation (results : option LocalPlanEvaluation.t).

Definition set_costmap_ (p : DWBLocalPlanner.t) (v : Costmap.t) : DWBLocalPlanner.t :=
  DWBLocalPlanner.mk (tf_ p) v (prune_plan_ p) (prune_distance_ p)
    (short_circuit_trajectory_evaluation_ p) (debug_trajectory_details_ p)
    (split_path p) (traj_generator_ p) (goal_checker_ p) (critics_ p)
    (global_plan_ p) (global_plan_segments_ p) (goal_pose_ p)
    (intermediate_goal_pose_ p) (effects p).

Definition set_report_header (r : LocalPlanEvaluation.t) (h : Header.t)
  : LocalPlanEvaluation.t :=
  LocalPlanEvaluation.mk h (LocalPlanEvaluation.twists r)
                         (LocalPlanEvaluation.best_index r)
                         (LocalPlanEvaluation.worst_index r).

(** Modelled from the spec: the exception classes are declared in
    [nav_core2/exceptions.h], which is not among the sources.  The spec
    lets planning, transform and no-legal-trajectories errors leave
    [computeVelocityCommands] after the evaluation was published, so each
    of them is caught by the handler for [nav_core2::PlannerException]. *)
Definition isPlannerException (e : Exception) : bool := true.

Section Cycle.
(** The member [update_costmap_before_planning_]. *)
Variable update_costmap_before_planning_ : bool.
(** What [costmap_->update()] does to the costmap. *)
Variable costmap_update : Costmap.t -> Costmap.t.
(** The answer of [pub_.shouldRecordEvaluation()]. *)
Variable shouldRecordEvaluation : bool.
(** The two readings of [ros::Time::now()], for the report and for the
    command. *)
Variables now_report now_cmd : Time.

(** The calls of [critic->prepare] on all critics; a critic that fails to
    prepare only causes a warning. *)
Definition prepareCritics (this : DWBLocalPlanner.t) (start_pose : Pose2D.t)
           (velocity : Twist2D.t) (goal_pose : Pose2D.t) (plan : Path2D.t)
  : list CycleEvent :=
  map (fun critic => TrajectoryCritic_prepare (TrajectoryCritic.getName critic)
                                              start_pose velocity goal_pose plan)
      (critics_ this).

Definition debriefCritics (this : DWBLocalPlanner.t) (cmd_vel : Twist2D.t)
  : list CycleEvent :=
  map (fun critic => TrajectoryCritic_debrief (TrajectoryCritic.getName critic) cmd_vel)
      (critics_ this).

Definition prepare (this : DWBLocalPlanner.t) (pose : Pose2DStamped.t)
           (velocity : Twist2D.t)
  : DWBLocalPlanner.t * list CycleEvent * Outcome unit :=
  let '(this, events) :=
    if update_costmap_before_planning_
    then (set_costmap_ this (costmap_update (costmap_ this)), [Costmap_update])
    else (this, []) in
  match transformGlobalPlan this pose with
  | (this, Return transformed_plan) =>
      let events := events ++ [Publish_TransformedPlan transformed_plan] in
      (* Update time stamp of goal pose *)
      let stamp := Header.stamp (Pose2DStamped.header pose) in
      let this := set_goal_pose_ this
                    (Pose2DStamped.set_stamp (goal_pose_ this) stamp) in
      let this := set_intermediate_goal_pose_ this
                    (Pose2DStamped.set_stamp (intermediate_goal_pose_ this) stamp) in
      let local_start_pose := transformPoseToLocal this pose in
      let local_goal_pose := transformPoseToLocal this (intermediate_goal_pose_ this) in
      let events := events ++ [Publish_InputParams (costmap_ this) local_start_pose
                                                   velocity local_goal_pose] in
      let events := events ++ prepareCritics this local_start_pose velocity
                                             local_goal_pose transformed_plan in
      (this, events, Return tt)
  | (this, Throw e) => (this, events, Throw e)
  | (this, AssertionFailed) => (this, events, AssertionFailed)
  | (this, Undefined) => (this, events, Undefined)
  | (this, OutOfFuel) => (this, events, OutOfFuel)
  end.

(** The overload that fills a given report. *)
Definition computeVelocityCommandsInto (this : DWBLocalPlanner.t)
           (pose : Pose2DStamped.t) (velocity : Twist2D.t)
           (results : option LocalPlanEvaluation.t)
  : DWBLocalPlanner.t * list CycleEvent * option LocalPlanEvaluation.t
    * Outcome Twist2DStamped.t :=
  let results :=
    option_map (fun r => set_report_header r
                           (Header.mk (Header.frame_id (Pose2DStamped.header pose))
                                      now_report))
               results in
  match prepare this pose velocity with
  | (this, events, Return _) =>
      match coreScoringAlgorithm this (Pose2DStamped.pose pose) velocity results with
      | (results, Return best) =>
          (* Return Value *)
          let cmd_vel :=
            Twist2DStamped.mk (Header.set_stamp Header.default now_cmd)
                              (Trajectory2D.velocity (TrajectoryScore.traj best)) in
          (* debrief stateful critics *)
          let events := events ++ debriefCritics this (Twist2DStamped.velocity cmd_vel) in
          let events := events ++ [Publish_LocalPlan (Pose2DStamped.header pose)
                                                     (TrajectoryScore.traj best);
                                   Publish_CostGrid] in
          (this, events, results, Return cmd_vel)
      | (results, Throw (NoLegalTrajectoriesException tracker)) =>
          let empty_cmd := Twist2D.default in
          let empty_traj := Trajectory2D.default in
          (* debrief stateful scoring functions *)
          let events := events ++ debriefCritics this empty_cmd in
          let events := events ++ [Publish_LocalPlan (Pose2DStamped.header pose)
                                                     empty_traj;
                                   Publish_CostGrid] in
          (this, events, results, Throw (NoLegalTrajectoriesException tracker))
      | (results, Throw e) => (this, events, results, Throw e)
      | (results, AssertionFailed) => (this, events, results, AssertionFailed)
      | (results, Undefined) => (this, events, results, Undefined)
      | (results, OutOfFuel) => (this, events, results, OutOfFuel)
      end
  | (this, events, Throw e) => (this, events, results, Throw e)
  | (this, events, AssertionFailed) => (this, events, results, AssertionFailed)
  | (this, events, Undefined) => (this, events, results, Undefined)
  | (this, events, OutOfFuel) => (this, events, results, OutOfFuel)
  end.

Definition computeVelocityCommands (this : DWBLocalPlanner.t)
           (pose : Pose2DStamped.t) (velocity : Twist2D.t)
  : DWBLocalPlanner.t * list CycleEvent * Outcome Twist2DStamped.t :=
  let results :=
    if shouldRecordEvaluation then Some LocalPlanEvaluation.default else None in
  match computeVelocityCommandsInto this pose velocity results with
  | (this, events, results, Return cmd_vel) =>
      (this, events ++ [Publish_Evaluation results], Return cmd_vel)
  | (this, events, results, Throw e) =>
      if isPlannerException e
      then (this, events ++ [Publish_Evaluation results], Throw e)
      else (this, events, Throw e)
  | (this, events, _, AssertionFailed) => (this, events, AssertionFailed)
  | (this, events, _, Undefined) => (this, events, Undefined)
  | (this, events, _, OutOfFuel) => (this, events, OutOfFuel)
  end.

End Cycle.

(** The planner after the stamp of [pose] was put into both goal poses. *)
Definition stampGoals (this : DWBLocalPlanner.t) (pose : Pose2DStamped.t)
  : DWBLocalPlanner.t :=
  set_intermediate_goal_pose_
    (set_goal_pose_ this (stamped_goal this pose))
    (stamped_intermediate this pose).

(** [transformGlobalPlan] returns or throws one of its own two kinds of
    exception, and never touches the goal poses, the critics, the generator
    or the flags. *)
Lemma transformGlobalPlan_outcome (this : DWBLocalPlanner.t) (pose : Pose2DStamped.t) :
  let this' := fst (transformGlobalPlan this pose) in
  ((exists plan, snd (transformGlobalPlan this pose) = Return plan)
   \/ (exists msg, snd (transformGlobalPlan this pose) = Throw (PlannerException msg))
   \/ (exists msg, snd (transformGlobalPlan this pose) = Throw (PlannerTFException msg)))
  /\ goal_pose_ this' = goal_pose_ this
  /\ intermediate_goal_pose_ this' = intermediate_goal_pose_ this
  /\ critics_ this' = critics_ this
  /\ traj_generator_ this' = traj_generator_ this
  /\ short_circuit_trajectory_evaluation_ this' = short_circuit_trajectory_evaluation_ this
  /\ costmap_ this' = costmap_ this
  /\ tf_ this' = tf_ this.
Proof.
  assert (Hfinish : forall that plan,
             ((exists p, snd (finishTransform that plan) = Return p)
              \/ (exists msg, snd (finishTransform that plan) = Throw (PlannerException msg))
              \/ (exists msg, snd (finishTransform that plan)
                              = Throw (PlannerTFException msg)))
             /\ fst (finishTransform that plan) = that).
  { intros that plan. unfold finishTransform. destruct (_ =? 0)%nat; simpl.
    - split; [right; left; eexists; reflexivity|reflexivity].
    - split; [left; eexists; reflexivity|reflexivity]. }
  assert (Hcase : Path2D.poses (global_plan_ this) = []
                  \/ Path2D.poses (global_plan_ this) <> [])
    by (destruct (Path2D.poses (global_plan_ this)); [now left|right; discriminate]).
  destruct Hcase as [Hnil|Hne].
  { unfold transformGlobalPlan. rewrite Hnil. simpl.
    split; [right; left; eexists; reflexivity|repeat split]. }
  destruct (TFListener.transformPose (tf_ this)
              (Header.frame_id (Path2D.header (global_plan_ this))) pose)
    as [robot_pose|] eqn:Htf.
  2:{ unfold transformGlobalPlan. rewrite Htf.
      destruct (_ =? 0)%nat; simpl;
        (split; [right; eauto|repeat split]). }
  rewrite (transformGlobalPlan_windowed this pose robot_pose Hne Htf).
  destruct (prune_plan_ this).
  - destruct (TFListener.transformPose (tf_ this) (Costmap.getFrameId (costmap_ this)) pose)
      as [costmap_pose|].
    2:{ simpl. split; [right; right; eexists; reflexivity|repeat split]. }
    rewrite pruneLoop_dropWhile
      by (rewrite length_map; apply window_length).
    cbv beta iota zeta.
    match goal with |- context [finishTransform ?a ?b] =>
      destruct (Hfinish a b) as (H1 & H2) end.
    rewrite H2. split; [exact H1|repeat split].
  - match goal with |- context [finishTransform ?a ?b] =>
      destruct (Hfinish a b) as (H1 & H2) end.
    cbv zeta. rewrite H2. split; [exact H1|repeat split].
Qed.

(** What a [transformGlobalPlan] that throws has done to the planner: with
    pruning on and the empty-result error, the pruned plan was stored and
    published before the throw; in every other case, nothing. *)
Lemma transformGlobalPlan_thrown (this this' : DWBLocalPlanner.t)
      (pose : Pose2DStamped.t) (e : Exception) :
  transformGlobalPlan this pose = (this', Throw e) ->
  (prune_plan_ this = true
   /\ e = zero_poses_error
   /\ effects this' = effects this ++ [Publish_GlobalPlan (global_plan_ this')])
  \/ (this' = this /\ (prune_plan_ this = false \/ e <> zero_poses_error)).
Proof.
  unfold transformGlobalPlan, finishTransform.
  destruct (_ =? 0)%nat.
  { intro H. injection H as <- <-. right. split; [reflexivity|right; discriminate]. }
  destruct (TFListener.transformPose _ _ pose).
  2:{ intro H. injection H as <- <-. right. split; [reflexivity|right; discriminate]. }
  destruct (prune_plan_ this).
  - cbn [Header.frame_id].
    destruct (TFListener.transformPose _ _ pose).
    2:{ intro H. injection H as <- <-. right. split; [reflexivity|right; discriminate]. }
    destruct (_ <? _)%nat; [discriminate|].
    destruct (pruneLoop _ _ _ _) as [[transformed global]|]; [|discriminate].
    cbn [Path2D.poses]. destruct (_ =? 0)%nat; [|discriminate].
    intro H. injection H as <- <-. left. repeat split.
  - cbn [Path2D.poses]. destruct (_ =? 0)%nat; [|discriminate].
    intro H. injection H as <- <-. right. split; [reflexivity|now left].
Qed.

Section CycleFacts.
Variable update_costmap_before_planning_ : bool.
Variable costmap_update : Costmap.t -> Costmap.t.
Variable shouldRecordEvaluation : bool.
Variables now_report now_cmd : Time.

(** The planner at the call of [transformGlobalPlan] in [prepare]. *)
Definition started (this : DWBLocalPlanner.t) : DWBLocalPlanner.t :=
  if update_costmap_before_planning_
  then set_costmap_ this (costmap_update (costmap_ this))
  else this.

Definition started_events : list CycleEvent :=
  if update_costmap_before_planning_ then [Costmap_update] else [].

(** The report handed to the scoring loop. *)
Definition fresh_report (pose : Pose2DStamped.t) : option LocalPlanEvaluation.t :=
  option_map (fun r => set_report_header r
                         (Header.mk (Header.frame_id (Pose2DStamped.header pose))
                                    now_report))
             (if shouldRecordEvaluation then Some LocalPlanEvaluation.default else None).

Lemma prepare_run (this : DWBLocalPlanner.t) (pose : Pose2DStamped.t)
      (velocity : Twist2D.t) :
  prepare update_costmap_before_planning_ costmap_update this pose velocity
  = match transformGlobalPlan (started this) pose with
    | (this1, Return plan) =>
        let this2 := stampGoals this1 pose in
        let start_pose := transformPoseToLocal this2 pose in
        let goal_pose := transformPoseToLocal this2 (intermediate_goal_pose_ this2) in
        (this2,
         ((started_events ++ [Publish_TransformedPlan plan])
            ++ [Publish_InputParams (costmap_ this2) start_pose velocity goal_pose])
           ++ prepareCritics this2 start_pose velocity goal_pose plan,
         Return tt)
    | (this1, Throw e) => (this1, started_events, Throw e)
    | (this1, AssertionFailed) => (this1, started_events, AssertionFailed)
    | (this1, Undefined) => (this1, started_events, Undefined)
    | (this1, OutOfFuel) => (this1, started_events, OutOfFuel)
    end.
Proof.
  unfold prepare, started, started_events.
  destruct update_costmap_before_planning_;
    destruct (transformGlobalPlan _ pose) as [this1 [plan|e| | |]]; reflexivity.
Qed.

End CycleFacts.

(** The loop keeps an absent report absent and the header of a report. *)
Lemma evaluateAll_report_header (this : DWBLocalPlanner.t)
      (trajs : list Trajectory2D.t) (results : option LocalPlanEvaluation.t) :
  option_map LocalPlanEvaluation.header (DWBLocalPlanner.results
                                           (evaluateAll this trajs results))
  = option_map LocalPlanEvaluation.header results.
Proof.
  apply (evaluateAll_invariant this results
           (fun ev => option_map LocalPlanEvaluation.header (DWBLocalPlanner.results ev)
                      = option_map LocalPlanEvaluation.header results));
    [reflexivity|].
  intros ev traj Hev. rewrite <- Hev, results_evaluateCandidate.
  destruct (DWBLocalPlanner.results ev) as [r|];
    destruct (scoreTrajectory this traj _); cbv zeta;
    try destruct (_ || _)%bool; try destruct (_ || _)%bool; reflexivity.
Qed.


(** What the scoring loop hands back. *)
Lemma coreScoringAlgorithm_outcome (this : DWBLocalPlanner.t) (pose : Pose2D.t)
      (velocity : Twist2D.t) (results : option LocalPlanEvaluation.t) :
  let ev := evaluateAll this (candidates this pose velocity) results in
  coreScoringAlgorithm this pose velocity results
  = (DWBLocalPlanner.results ev, Return (best ev))
  \/ coreScoringAlgorithm this pose velocity results
     = (DWBLocalPlanner.results ev, Throw (NoLegalTrajectoriesException (tracker ev))).
Proof.
  unfold coreScoringAlgorithm. destruct (dlt _ 0); [now right|now left].
Qed.

Section CycleRuns.
Variable update_costmap_before_planning_ : bool.
Variable costmap_update : Costmap.t -> Costmap.t.
Variable shouldRecordEvaluation : bool.
Variables now_report now_cmd : Time.

Let compute :=
  computeVelocityCommands update_costmap_before_planning_ costmap_update
                          shouldRecordEvaluation now_report now_cmd.
Let start := started update_costmap_before_planning_ costmap_update.
Let start_events := started_events update_costmap_before_planning_.
Let report := fresh_report shouldRecordEvaluation now_report.

(** The events of a [prepare] that returns. *)
Definition prepared_events (this2 : DWBLocalPlanner.t) (pose : Pose2DStamped.t)
           (velocity : Twist2D.t) (plan : Path2D.t) : list CycleEvent :=
  let start_pose := transformPoseToLocal this2 pose in
  let goal_pose := transformPoseToLocal this2 (intermediate_goal_pose_ this2) in
  ((start_events ++ [Publish_TransformedPlan plan])
     ++ [Publish_InputParams (costmap_ this2) start_pose velocity goal_pose])
    ++ prepareCritics this2 start_pose velocity goal_pose plan.

(** The command made from a best score. *)
Definition command (best : TrajectoryScore.t) : Twist2DStamped.t :=
  Twist2DStamped.mk (Header.set_stamp Header.default now_cmd)
                    (Trajectory2D.velocity (TrajectoryScore.traj best)).

(** The end of the events of a cycle that got to the scoring. *)
Definition closing_events (this2 : DWBLocalPlanner.t) (pose : Pose2DStamped.t)
           (cmd_vel : Twist2D.t) (traj : Trajectory2D.t)
           (results : option LocalPlanEvaluation.t) : list CycleEvent :=
  debriefCritics this2 cmd_vel
  ++ [Publish_LocalPlan (Pose2DStamped.header pose) traj; Publish_CostGrid;
      Publish_Evaluation results].

Lemma computeVelocityCommands_run (this : DWBLocalPlanner.t)
      (pose : Pose2DStamped.t) (velocity : Twist2D.t) :
  compute this pose velocity
  = match transformGlobalPlan (start this) pose with
    | (this1, Return plan) =>
        let this2 := stampGoals this1 pose in
        let ev := evaluateAll this2 (candidates this2 (Pose2DStamped.pose pose) velocity)
                              (report pose) in
        if dlt (TrajectoryScore.total (best ev)) 0
        then (this2,
              prepared_events this2 pose velocity plan
              ++ closing_events this2 pose Twist2D.default Trajectory2D.default
                                (results ev),
              Throw (NoLegalTrajectoriesException (tracker ev)))
        else (this2,
              prepared_events this2 pose velocity plan
              ++ closing_events this2 pose
                   (Trajectory2D.velocity (TrajectoryScore.traj (best ev)))
                   (TrajectoryScore.traj (best ev)) (results ev),
              Return (command (best ev)))
    | (this1, Throw e) =>
        (this1, start_events ++ [Publish_Evaluation (report pose)], Throw e)
    | (this1, AssertionFailed) => (this1, start_events, AssertionFailed)
    | (this1, Undefined) => (this1, start_events, Undefined)
    | (this1, OutOfFuel) => (this1, start_events, OutOfFuel)
    end.
Proof.
  unfold compute, computeVelocityCommands, computeVelocityCommandsInto.
  rewrite prepare_run. fold (start this) start_events (report pose).
  destruct (transformGlobalPlan (start this) pose) as [this1 [plan|e| | |]];
    try reflexivity.
  cbv zeta. unfold coreScoringAlgorithm.
  fold (prepared_events (stampGoals this1 pose) pose velocity plan).
  destruct (dlt _ 0); unfold closing_events, command; cbn [isPlannerException];
    rewrite <- !app_assoc; reflexivity.
Qed.

End CycleRuns.

Lemma stampGoals_stamps (this : DWBLocalPlanner.t) (pose : Pose2DStamped.t) :
  Header.stamp (Pose2DStamped.header (goal_pose_ (stampGoals this pose)))
  = Header.stamp (Pose2DStamped.header pose)
  /\ Header.stamp (Pose2DStamped.header (intermediate_goal_pose_ (stampGoals this pose)))
     = Header.stamp (Pose2DStamped.header pose)
  /\ critics_ (stampGoals this pose) = critics_ this
  /\ traj_generator_ (stampGoals this pose) = traj_generator_ this
  /\ global_plan_ (stampGoals this pose) = global_plan_ this.
Proof. repeat split. Qed.

Section CycleTheorems.
Variable update_costmap_before_planning_ : bool.
Variable costmap_update : Costmap.t -> Costmap.t.
Variable shouldRecordEvaluation : bool.
Variables now_report now_cmd : Time.

Let compute :=
  computeVelocityCommands update_costmap_before_planning_ costmap_update
                          shouldRecordEvaluation now_report now_cmd.
Let start := started update_costmap_before_planning_ costmap_update.
Let start_events := started_events update_costmap_before_planning_.
Let report := fresh_report shouldRecordEvaluation now_report.

Lemma start_keeps (this : DWBLocalPlanner.t) :
  goal_pose_ (start this) = goal_pose_ this
  /\ intermediate_goal_pose_ (start this) = intermediate_goal_pose_ this
  /\ critics_ (start this) = critics_ this
  /\ traj_generator_ (start this) = traj_generator_ this.
Proof.
  unfold start, started. destruct update_costmap_before_planning_; repeat split.
Qed.

Lemma start_keeps_effects (this : DWBLocalPlanner.t) :
  prune_plan_ (start this) = prune_plan_ this
  /\ effects (start this) = effects this.
Proof.
  unfold start, started. destruct update_costmap_before_planning_; repeat split.
Qed.

(** X22: when [transformGlobalPlan] throws inside [prepare] (empty plan,
    transform failure, empty result), [computeVelocityCommands] throws the
    same exception.  No critic is prepared, asked or debriefed, and the
    cycle itself publishes only the evaluation, which holds no candidate;
    the goal poses keep their stamps.  [transformGlobalPlan] has published
    the pruned global plan before the throw when pruning is on and the
    failure is the empty result; in every other case it has published
    nothing and the planner is as the costmap update left it. *)
Theorem computeVelocityCommands_transform_failure (this this1 : DWBLocalPlanner.t)
        (pose : Pose2DStamped.t) (velocity : Twist2D.t) (e : Exception) :
  transformGlobalPlan (start this) pose = (this1, Throw e) ->
  compute this pose velocity
  = (this1, start_events ++ [Publish_Evaluation (report pose)], Throw e)
  /\ option_map LocalPlanEvaluation.twists (report pose)
     = (if shouldRecordEvaluation then Some [] else None)
  /\ goal_pose_ this1 = goal_pose_ this
  /\ intermediate_goal_pose_ this1 = intermediate_goal_pose_ this
  /\ (prune_plan_ this = true ->
      e = zero_poses_error ->
      effects this1 = effects this ++ [Publish_GlobalPlan (global_plan_ this1)])
  /\ (prune_plan_ this = false \/ e <> zero_poses_error ->
      this1 = start this /\ effects this1 = effects this).
Proof.
  intro Hthrow. unfold compute. rewrite computeVelocityCommands_run.
  fold start. rewrite Hthrow.
  split; [reflexivity|].
  split; [unfold report, fresh_report; destruct shouldRecordEvaluation; reflexivity|].
  destruct (transformGlobalPlan_outcome (start this) pose) as (_ & Hg & Hi & _).
  rewrite Hthrow in Hg, Hi. cbn [fst] in Hg, Hi.
  destruct (start_keeps this) as (Hg' & Hi' & _).
  destruct (start_keeps_effects this) as (Hprune & Heffects).
  split; [congruence|]. split; [congruence|].
  destruct (transformGlobalPlan_thrown (start this) this1 pose e Hthrow)
    as [(Hon & He & Hpub)|(Hsame & Hother)]; rewrite Hprune in *.
  - split.
    + intros _ _. now rewrite Hpub, Heffects.
    + intros [Hoff|Hne]; [congruence|contradiction].
  - split.
    + intros Hon He. destruct Hother as [Hoff|Hne]; [congruence|contradiction].
    + intros _. split; [exact Hsame|]. now rewrite Hsame.
Qed.



(** X25: every [computeVelocityCommands] returns a command or throws, and
    its last call on a collaborator is the publication of the evaluation:
    none when no evaluation is recorded, otherwise a report under the frame
    of the pose and the stamp of the clock. *)
Theorem computeVelocityCommands_publishes_evaluation (this : DWBLocalPlanner.t)
        (pose : Pose2DStamped.t) (velocity : Twist2D.t) :
  ((exists cmd_vel, snd (compute this pose velocity) = Return cmd_vel)
   \/ (exists e, snd (compute this pose velocity) = Throw e))
  /\ exists before results,
      snd (fst (compute this pose velocity)) = before ++ [Publish_Evaluation results]
      /\ option_map LocalPlanEvaluation.header results
         = if shouldRecordEvaluation
           then Some (Header.mk (Header.frame_id (Pose2DStamped.header pose)) now_report)
           else None.
Proof.
  assert (Hreport : option_map LocalPlanEvaluation.header (report pose)
                    = if shouldRecordEvaluation
                      then Some (Header.mk (Header.frame_id (Pose2DStamped.header pose))
                                           now_report)
                      else None).
  { unfold report, fresh_report. destruct shouldRecordEvaluation; reflexivity. }
  unfold compute. rewrite computeVelocityCommands_run. fold start start_events report.
  pose proof (transformGlobalPlan_outcome (start this) pose) as (Hout & _).
  destruct (transformGlobalPlan (start this) pose) as [this1 [plan|e| | |]] eqn:Hrun;
    cbn [snd] in Hout;
    try (destruct Hout as [(p & Hp)|[(msg & Hm)|(msg & Hm)]]; discriminate).
  - cbv zeta.
    pose proof (evaluateAll_report_header (stampGoals this1 pose)
                  (candidates (stampGoals this1 pose) (Pose2DStamped.pose pose) velocity)
                  (report pose)) as Hkept.
    rewrite Hreport in Hkept.
    destruct (dlt _ 0); cbn [fst snd]; unfold closing_events.
    + split; [right; eexists; reflexivity|].
      eexists. eexists. split; [|exact Hkept].
      rewrite !app_assoc.
      change [Publish_LocalPlan (Pose2DStamped.header pose) Trajectory2D.default;
              Publish_CostGrid;
              Publish_Evaluation _]
        with ([Publish_LocalPlan (Pose2DStamped.header pose) Trajectory2D.default;
               Publish_CostGrid]
                ++ [Publish_Evaluation
                      (results (evaluateAll (stampGoals this1 pose)
                                  (candidates (stampGoals this1 pose)
                                              (Pose2DStamped.pose pose) velocity)
                                  (report pose)))]).
      rewrite !app_assoc. reflexivity.
    + split; [left; eexists; reflexivity|].
      eexists. eexists. split; [|exact Hkept].
      rewrite !app_assoc.
      match goal with
      | |- _ ++ [?a; ?b; ?c] = _ => change [a; b; c] with ([a; b] ++ [c])
      end.
      rewrite !app_assoc. reflexivity.
  - cbn [fst snd]. split; [right; eexists; reflexivity|].
    eexists. eexists. split; [reflexivity|exact Hreport].
Qed.

End CycleTheorems.


(** A cycle that refreshes nothing in the costmap, records the evaluation
    and reads the clock at 100 and 101. *)
Definition exampleCycle (this : DWBLocalPlanner.t)
  : DWBLocalPlanner.t * list CycleEvent * Outcome Twist2DStamped.t :=
  computeVelocityCommands true (fun costmap => costmap) true 100%N 101%N
                          this origin_pose Twist2D.default.

Lemma computeVelocityCommands_transform_failure_witness :
  exampleCycle (examplePlanner true false true [] [])
  = (examplePlanner true false true [] [],
     [Costmap_update;
      Publish_Evaluation
        (Some (LocalPlanEvaluation.mk (Header.mk "map" 100%N) [] 0%N 0%N))],
     Throw (PlannerException "Received plan with zero length"))
  /\ effects (fst (transformGlobalPlan farStartPlanner origin_pose))
     = effects farStartPlanner
         ++ [Publish_GlobalPlan
               (global_plan_ (fst (transformGlobalPlan farStartPlanner origin_pose)))].
Proof.
  split.
  - apply (computeVelocityCommands_transform_failure true (fun costmap => costmap)
             true 100%N 101%N
             (examplePlanner true false true [] []) (examplePlanner true false true [] [])
             origin_pose Twist2D.default
             (PlannerException "Received plan with zero length")).
    reflexivity.
  - apply (computeVelocityCommands_transform_failure true (fun costmap => costmap)
             true 100%N 101%N
             farStartPlanner (fst (transformGlobalPlan farStartPlanner origin_pose))
             origin_pose Twist2D.default zero_poses_error).
    + vm_compute. reflexivity.
    + reflexivity.
    + reflexivity.
Defined.



(** The cycle of the passing planner: the slower twist wins. *)
Example passing_cycle_command :
  snd (exampleCycle passingPlanner)
  = Return (Twist2DStamped.mk (Header.mk "" 101%N) (Twist2D.mk 0.5 0 0)).
Proof. vm_compute. reflexivity. Qed.

(** ** Squared distances ([getSquareDistance]) *)

(** X26: [getSquareDistance] is symmetric and never negative, the
    headings play no part in it, and it is zero between two poses at the
    same position, so a pose reached by turning on the spot is at distance
    zero.  (That only such poses are at distance zero is not claimed: the
    square of a small difference of doubles can underflow to zero.) *)
Theorem getSquareDistance_metric (pose_a pose_b : Pose2D.t) :
  getSquareDistance pose_a pose_b == getSquareDistance pose_b pose_a
  /\ 0 <= getSquareDistance pose_a pose_b
  /\ (forall theta_a theta_b,
         getSquareDistance (Pose2D.mk (Pose2D.x pose_a) (Pose2D.y pose_a) theta_a)
                           (Pose2D.mk (Pose2D.x pose_b) (Pose2D.y pose_b) theta_b)
         = getSquareDistance pose_a pose_b)
  /\ (Pose2D.x pose_a = Pose2D.x pose_b ->
      Pose2D.y pose_a = Pose2D.y pose_b ->
      getSquareDistance pose_a pose_b == 0).
Proof.
  unfold getSquareDistance. cbv zeta. cbn [Pose2D.x Pose2D.y].
  set (dx := Pose2D.x pose_a - Pose2D.x pose_b).
  set (dy := Pose2D.y pose_a - Pose2D.y pose_b).
  assert (Hx : 0 <= dx * dx) by nra.
  assert (Hy : 0 <= dy * dy) by nra.
  split; [unfold dx, dy; ring|]. split; [lra|].
  split; [reflexivity|].
  intros Hx' Hy'. unfold dx, dy. rewrite Hx', Hy'. ring.
Qed.

(** A turn on the spot at (2, 1), from heading 0 to heading 1.57. *)
Lemma getSquareDistance_metric_witness :
  getSquareDistance (Pose2D.mk 2 1 0) (Pose2D.mk 2 1 1.57) == 0.
Proof.
  apply (getSquareDistance_metric (Pose2D.mk 2 1 0) (Pose2D.mk 2 1 1.57));
    reflexivity.
Defined.
